(** * Report ingestion and aggregation of the analysis dashboard

    A shallow embedding of [dashboard/backend/ingest.py] and of the
    aggregations of [dashboard/backend/app.py] ([get_stats], the
    self-correction query of [get_patterns]), with the properties of the
    ingestion pipeline proved over it.

    Conventions of the embedding
    - a parsed JSON document is a [json] value; numbers are integers (a
      non-integral number is only ever copied into a row, never inspected);
    - a character of a Python [str] is an [ascii];
    - a Python exception is a [Raise] result; the functions of the source
      that can raise return a [result];
    - the database is a [Store]: four tables, each the list of its rows in
      insertion order. *)

From Stdlib Require Import ZArith List String Ascii Bool Lia PeanoNat.
From Stdlib Require Import Permutation Sorted.
From Stdlib Require Import QArith.
From Stdlib Require DecimalString.
Import ListNotations.

#[local] Set Warnings "-register-all".
Local Open Scope string_scope.
Local Open Scope list_scope.
Local Close Scope Q_scope.
Local Open Scope nat_scope.

(** ** Python values and exceptions *)

Inductive json : Type :=
| JNull
| JBool (b : bool)
| JInt (n : Z)
| JStr (s : string)
| JArr (l : list json)
| JObj (items : list (string * json)).

(** The exception classes the ingestion code can meet.  The handlers of
    [ingest_reports] distinguish [JSONDecodeError] and [KeyError]; all
    other classes derive from [Exception]. *)
Inductive pyexc : Type :=
| JSONDecodeError
| KeyError
| AttributeError
| TypeError
| IndexError
| OSError
| InterfaceError
| IntegrityError.

Inductive result (A : Type) : Type :=
| Ok (a : A)
| Raise (e : pyexc).
Arguments Ok {A} a.
Arguments Raise {A} e.

Definition bind {A B : Type} (m : result A) (k : A -> result B) : result B :=
  match m with
  | Ok a => k a
  | Raise e => Raise e
  end.

Declare Scope py_scope.
Delimit Scope py_scope with py.
Notation "x <- m ;; k" := (bind m (fun x => k))
  (at level 100, m at next level, right associativity) : py_scope.
Notation "m ;;; k" := (bind m (fun _ => k))
  (at level 100, right associativity) : py_scope.
Local Open Scope py_scope.

(** [for x in xs: ...] collecting results, stopping at the first exception. *)
Fixpoint mapM {A B : Type} (f : A -> result B) (l : list A) : result (list B) :=
  match l with
  | [] => Ok []
  | x :: xs => y <- f x ;; ys <- mapM f xs ;; Ok (y :: ys)
  end.

(** Threading a state through a loop body that may raise. *)
Fixpoint foldM {A S : Type} (f : S -> A -> result S) (l : list A) (s : S) : result S :=
  match l with
  | [] => Ok s
  | x :: xs => s' <- f s x ;; foldM f xs s'
  end.

(** Truth value of a Python object ([if x], [not x]). *)
Definition truthy (j : json) : bool :=
  match j with
  | JNull => false
  | JBool b => b
  | JInt n => negb (n =? 0)%Z
  | JStr s => negb (s =? "")%string
  | JArr l => match l with [] => false | _ => true end
  | JObj m => match m with [] => false | _ => true end
  end.

(** Lookup in the items of a dict (keys of a parsed document are distinct). *)
Fixpoint assoc (k : string) (m : list (string * json)) : option json :=
  match m with
  | [] => None
  | (k', v) :: r => if (k' =? k)%string then Some v else assoc k r
  end.

(** [d.get(k, default)]: only a dict has the method. *)
Definition py_get_default (d : json) (k : string) (default : json) : result json :=
  match d with
  | JObj m => Ok (match assoc k m with Some v => v | None => default end)
  | _ => Raise AttributeError
  end.

(** [d.get(k)] *)
Definition py_get (d : json) (k : string) : result json :=
  py_get_default d k JNull.

(** [d[k]] on the top-level document. *)
Definition py_getitem (d : json) (k : string) : result json :=
  match d with
  | JObj m => match assoc k m with Some v => Ok v | None => Raise KeyError end
  | _ => Raise TypeError
  end.

Fixpoint chars (s : string) : list json :=
  match s with
  | EmptyString => []
  | String c r => JStr (String c EmptyString) :: chars r
  end.

(** [for x in v]: a list yields its elements, a dict its keys, a string its
    characters; nothing else is iterable. *)
Definition py_iter (v : json) : result (list json) :=
  match v with
  | JArr l => Ok l
  | JObj m => Ok (map (fun kv => JStr (fst kv)) m)
  | JStr s => Ok (chars s)
  | _ => Raise TypeError
  end.

(** [a == b].  [True == 1] and [False == 0]; lists compare element-wise,
    dicts as finite maps. *)
Fixpoint py_eq (a b : json) {struct a} : bool :=
  match a with
  | JNull => match b with JNull => true | _ => false end
  | JBool x =>
      match b with
      | JBool y => Bool.eqb x y
      | JInt n => (Z.b2z x =? n)%Z
      | _ => false
      end
  | JInt n =>
      match b with
      | JBool y => (n =? Z.b2z y)%Z
      | JInt m => (n =? m)%Z
      | _ => false
      end
  | JStr s => match b with JStr t => (s =? t)%string | _ => false end
  | JArr l =>
      match b with
      | JArr l' =>
          (fix go (l : list json) (l' : list json) {struct l} : bool :=
             match l, l' with
             | [], [] => true
             | x :: xs, y :: ys => py_eq x y && go xs ys
             | _, _ => false
             end) l l'
      | _ => false
      end
  | JObj m =>
      match b with
      | JObj m' =>
          (List.length m =? List.length m') &&
          (fix go (m : list (string * json)) {struct m} : bool :=
             match m with
             | [] => true
             | (k, v) :: r =>
                 match assoc k m' with
                 | Some v' => py_eq v v'
                 | None => false
                 end && go r
             end) m
      | _ => false
      end
  end.

(** The key under which [dict], [set] and [Counter] file a hashable object:
    equal objects hash alike, so [True] and [1] are one key.  Lists and
    dicts are unhashable. *)
Inductive hkey : Type :=
| HNone
| HInt (n : Z)
| HStr (s : string).

Definition hkey_eqb (a b : hkey) : bool :=
  match a, b with
  | HNone, HNone => true
  | HInt n, HInt m => (n =? m)%Z
  | HStr s, HStr t => (s =? t)%string
  | _, _ => false
  end.

Definition py_hash (j : json) : result hkey :=
  match j with
  | JNull => Ok HNone
  | JBool b => Ok (HInt (Z.b2z b))
  | JInt n => Ok (HInt n)
  | JStr s => Ok (HStr s)
  | JArr _ | JObj _ => Raise TypeError
  end.

(** [sep.join(xs)]: every element must be a [str]. *)
Fixpoint join_strings (sep : string) (l : list string) : string :=
  match l with
  | [] => ""
  | [s] => s
  | s :: r => s ++ sep ++ join_strings sep r
  end.

Definition as_str (j : json) : result string :=
  match j with
  | JStr s => Ok s
  | _ => Raise TypeError
  end.

Definition py_join (sep : string) (l : list json) : result string :=
  ss <- mapM as_str l ;; Ok (join_strings sep ss).

(** [s[:n]] *)
Fixpoint str_take (n : nat) (s : string) : string :=
  match n, s with
  | S n', String c r => String c (str_take n' r)
  | _, _ => ""
  end.

(** [[g(x) for x in xs if p(x)]]: the condition, then the value, element by
    element. *)
Fixpoint list_comp {A B : Type} (g : A -> result B) (p : A -> result bool)
  (l : list A) : result (list B) :=
  match l with
  | [] => Ok []
  | x :: xs =>
      b <- p x ;;
      if b then (y <- g x ;; ys <- list_comp g p xs ;; Ok (y :: ys))
      else list_comp g p xs
  end.

(** [str(x)] as an f-string renders it; the text of a list or a dict is left
    to [repr_compound]. *)
Definition py_str (repr_compound : json -> string) (j : json) : string :=
  match j with
  | JNull => "None"
  | JBool true => "True"
  | JBool false => "False"
  | JInt n => DecimalString.NilEmpty.string_of_int (Z.to_int n)
  | JStr s => s
  | JArr _ | JObj _ => repr_compound j
  end.

(** *** Insertion-ordered dicts keyed by hashable objects *)

(** [list(dict.fromkeys(xs))]: the first object filed under each key, in
    order of insertion. *)
Fixpoint fromkeys_from (seen : list hkey) (l : list json) : result (list json) :=
  match l with
  | [] => Ok []
  | x :: xs =>
      k <- py_hash x ;;
      if existsb (hkey_eqb k) seen then fromkeys_from seen xs
      else (r <- fromkeys_from (k :: seen) xs ;; Ok (x :: r))
  end.

Definition dict_fromkeys (l : list json) : result (list json) :=
  fromkeys_from [] l.

(** A [Counter]: entries (key, first object filed under it, count) in order
    of first insertion. *)
Definition counter : Type := list (hkey * json * nat).

Fixpoint counter_incr (k : hkey) (x : json) (c : counter) : counter :=
  match c with
  | [] => [(k, x, 1)]
  | (k', x', n) :: r =>
      if hkey_eqb k' k then (k', x', S n) :: r
      else (k', x', n) :: counter_incr k x r
  end.

Definition Counter (l : list json) : result counter :=
  foldM (fun c x => k <- py_hash x ;; Ok (counter_incr k x c)) l [].

(** [max(items, key=count)]: the first entry holding the largest count;
    this is what [most_common(1)] evaluates to. *)
Fixpoint first_max (best : json * nat) (c : counter) : json * nat :=
  match c with
  | [] => best
  | (_, x, n) :: r =>
      if snd best <? n then first_max (x, n) r else first_max best r
  end.

Definition most_common_1 (c : counter) : list (json * nat) :=
  match c with
  | [] => []
  | (_, x, n) :: r => [first_max (x, n) r]
  end.

(** ** The derivation functions of ingest.py *)

(** [get_raw_steps_for_step_number] *)
Definition get_raw_steps_for_step_number (raw_data step_number : json)
  : result (list json) :=
  steps <- py_get_default raw_data "steps" (JArr []) ;;
  l <- py_iter steps ;;
  list_comp (fun s => Ok s)
            (fun s => v <- py_get s "step" ;; Ok (py_eq v step_number)) l.

(** The comprehension [[s.get(field) for s in raw_steps if s.get(field)]]. *)
Definition truthy_fields (field : string) (raw_steps : list json)
  : result (list json) :=
  list_comp (fun s => py_get s field)
            (fun s => v <- py_get s field ;; Ok (truthy v)) raw_steps.

(** [_extract_phase_from_raw_steps]; Python's [None] is [JNull]. *)
Definition _extract_phase_from_raw_steps (raw_steps : list json) : result json :=
  match raw_steps with
  | [] => Ok JNull
  | _ =>
      phases <- truthy_fields "phase" raw_steps ;;
      match phases with
      | [] => Ok JNull
      | _ =>
          unique_phases <- dict_fromkeys phases ;;
          match unique_phases with
          | [p] => Ok p
          | _ => s <- py_join "," unique_phases ;; Ok (JStr s)
          end
      end
  end.

(** [_extract_tool_from_raw_steps] *)
Definition _extract_tool_from_raw_steps (raw_steps : list json) : result json :=
  match raw_steps with
  | [] => Ok JNull
  | _ =>
      tools <- truthy_fields "tool" raw_steps ;;
      match tools with
      | [] => Ok JNull
      | _ =>
          tool_counts <- Counter tools ;;
          match tool_counts with
          | [] => Ok JNull
          | _ =>
              match most_common_1 tool_counts with
              | (t, _) :: _ => Ok t
              | [] => Raise IndexError
              end
          end
      end
  end.

(** [_get_failures_for_step] *)
Definition _get_failures_for_step (failures_details step_number : json)
  : result (list json) :=
  l <- py_iter failures_details ;;
  list_comp (fun f => Ok f)
            (fun f => v <- py_get f "step" ;; Ok (py_eq v step_number)) l.

(** Lines 166-168 of ingest.py: the errors summary of a step, [JNull] when
    unset. *)
Definition build_errors_summary (step_failures : list json) : result json :=
  error_messages <-
    list_comp (fun f => py_get_default f "error" (JStr ""))
              (fun f => v <- py_get f "error" ;; Ok (truthy v)) step_failures ;;
  match error_messages with
  | [] => Ok JNull
  | _ => s <- py_join " | " error_messages ;; Ok (JStr (str_take 1000 s))
  end.

(** ** The store *)

(** A value held in a column.  Column affinity is not modelled: a value is
    stored as it was bound. *)
Inductive sqlval : Type :=
| SNull
| SInt (n : Z)
| SText (s : string).

(** Binding a Python object to a [?] placeholder: [None], [int] (and [bool])
    and [str] are supported; a list or a dict is refused. *)
Definition bind_param (j : json) : result sqlval :=
  match j with
  | JNull => Ok SNull
  | JBool b => Ok (SInt (Z.b2z b))
  | JInt n => Ok (SInt n)
  | JStr s => Ok (SText s)
  | JArr _ | JObj _ => Raise InterfaceError
  end.

(** SQL [a = b] in a [WHERE] clause: never satisfied by [NULL]. *)
Definition sql_eq (a b : sqlval) : bool :=
  match a, b with
  | SInt n, SInt m => (n =? m)%Z
  | SText s, SText t => (s =? t)%string
  | _, _ => false
  end.

(** A row is the tuple of its values, in the order of the column list of
    the [INSERT] statement that writes it. *)
Definition row : Type := list sqlval.

Inductive table : Type := Runs | Steps | Failures | WebSearches.

Definition columns (t : table) : list string :=
  match t with
  | Runs =>
      ["run_id"; "generated_at"; "prompt"; "status"; "duration_minutes";
       "total_steps"; "passed_steps"; "failed_steps"; "total_retries";
       "replan_checkpoints"; "replans_triggered"; "success_rate";
       "planner"; "implementer"; "verifier"; "models_used";
       "rls_issues"; "migration_issues"; "edge_function_issues"; "auth_issues";
       "total_input_tokens"; "total_output_tokens"; "total_cache_read_tokens";
       "total_cache_creation_tokens"; "total_cost_usd";
       "ingested_at"; "classified_at"]
  | Steps =>
      ["id"; "run_id"; "step_number"; "build_phase"; "phase"; "tool";
       "final_verdict"; "attempts"; "retries"; "duration_seconds";
       "resolution_actions"; "error_categories"; "errors_summary";
       "classification"; "classification_confidence";
       "classification_reasoning"; "classification_evidence";
       "approach_changed"; "same_file_repeated"; "error_category_stable";
       "input_tokens"; "output_tokens"; "cost_usd"]
  | Failures =>
      ["run_id"; "step_number"; "build_phase"; "phase"; "category"; "error";
       "exit_code"]
  | WebSearches =>
      ["run_id"; "step_id"; "query"; "count"; "timestamp"]
  end.

Fixpoint position (name : string) (cols : list string) : nat :=
  match cols with
  | [] => 0
  | c :: r => if (c =? name)%string then 0 else S (position name r)
  end.

(** The value of column [name] in a row of table [t]. *)
Definition col (t : table) (name : string) (r : row) : sqlval :=
  nth (position name (columns t)) r SNull.

Record Store : Type := mkStore {
  runs : list row;
  steps : list row;
  failures : list row;
  web_searches : list row
}.

Definition rows_of (t : table) (db : Store) : list row :=
  match t with
  | Runs => runs db
  | Steps => steps db
  | Failures => failures db
  | WebSearches => web_searches db
  end.

Definition set_rows (t : table) (rs : list row) (db : Store) : Store :=
  match t with
  | Runs => mkStore rs (steps db) (failures db) (web_searches db)
  | Steps => mkStore (runs db) rs (failures db) (web_searches db)
  | Failures => mkStore (runs db) (steps db) rs (web_searches db)
  | WebSearches => mkStore (runs db) (steps db) (failures db) rs
  end.

(** The two statement shapes ingest.py issues. *)
Inductive stmt : Type :=
| DeleteWhereRunId (t : table)   (* DELETE FROM t WHERE run_id = ? *)
| InsertInto (t : table).        (* INSERT INTO t (columns t) VALUES (?, ...) *)

(** An open connection: the state its statements have produced so far, not
    yet committed, and the statements executed on it, oldest first. *)
Record Conn : Type := mkConn {
  pending : Store;
  executed : list stmt
}.

(** Modelled from the spec: the schema is created by db.py, which is not part
    of the sources at hand.  The spec makes the run identifier unique (an
    insert against an existing identifier raises a uniqueness violation) and
    the derived step identifier the identity of a step; failures and web
    searches have no identity beyond insertion order. *)
Definition unique_column (t : table) : option string :=
  match t with
  | Runs => Some "run_id"
  | Steps => Some "id"
  | Failures | WebSearches => None
  end.

Definition violates (t : table) (r : row) (existing : list row) : bool :=
  match unique_column t with
  | Some c => existsb (fun r' => sql_eq (col t c r') (col t c r)) existing
  | None => false
  end.

(** [cursor.execute(sql, params)]: the parameters are bound, then the
    statement runs against the pending state of the connection. *)
Definition execute (s : stmt) (params : list json) (conn : Conn) : result Conn :=
  vals <- mapM bind_param params ;;
  match s with
  | DeleteWhereRunId t =>
      let keep r := negb (sql_eq (col t "run_id" r) (hd SNull vals)) in
      Ok (mkConn (set_rows t (filter keep (rows_of t (pending conn))) (pending conn))
                 (executed conn ++ [s]))
  | InsertInto t =>
      if violates t vals (rows_of t (pending conn)) then Raise IntegrityError
      else Ok (mkConn (set_rows t (rows_of t (pending conn) ++ [vals]) (pending conn))
                      (executed conn ++ [s]))
  end.

(** Modelled from the spec: [run_exists] of db.py, "run exists in store",
    reads the committed state through a connection of its own. *)
Definition run_exists (db : Store) (run_id : json) : result bool :=
  v <- bind_param run_id ;;
  Ok (existsb (fun r => sql_eq (col Runs "run_id" r) v) (runs db)).

(** [_delete_run_data] *)
Definition _delete_run_data (conn : Conn) (run_id : json) : result Conn :=
  c1 <- execute (DeleteWhereRunId WebSearches) [run_id] conn ;;
  c2 <- execute (DeleteWhereRunId Failures) [run_id] c1 ;;
  c3 <- execute (DeleteWhereRunId Steps) [run_id] c2 ;;
  execute (DeleteWhereRunId Runs) [run_id] c3.

(** ** Ingestion *)

(** What the ingestion code takes from its runtime and no property below
    depends on: the text [json.dumps] produces, the text of a list or dict
    inside an f-string, the order in which a [set] is iterated, and the
    reading of the clock. *)
Record Runtime : Type := mkRuntime {
  json_dumps : json -> string;
  repr_compound : json -> string;
  set_order : list json -> list json;
  utc_now : string
}.

(** A file of the reports directory, as [open] and [json.load] see it. *)
Inductive file_content : Type :=
| Unreadable
| NotJson
| Document (data : json).

Definition json_load (f : file_content) : result json :=
  match f with
  | Unreadable => Raise OSError
  | NotJson => Raise JSONDecodeError
  | Document data => Ok data
  end.

Section Ingestion.

Variable rt : Runtime.

(** [json.dumps(v) if v else None] *)
Definition dumps_or_none (v : json) : json :=
  if truthy v then JStr (json_dumps rt v) else JNull.

(** The parameter tuple of the [INSERT INTO runs]. *)
Definition runs_params (data run_id summary tools_config supabase_specific
                        token_usage : json) : result (list json) :=
  let ingested_at := utc_now rt in
  generated_at <- py_get data "generated_at" ;;
  from_summary <-
    mapM (py_get summary)
      ["prompt"; "status"; "duration_minutes"; "total_steps"; "passed_steps";
       "failed_steps"; "total_retries"; "replan_checkpoints";
       "replans_triggered"; "success_rate"] ;;
  from_tools <- mapM (py_get tools_config) ["planner"; "implementer"; "verifier"] ;;
  models_used <- py_get tools_config "models_used" ;;
  from_supabase <-
    mapM (fun k => py_get_default supabase_specific k (JInt 0))
      ["rls_issues"; "migration_issues"; "edge_function_issues"; "auth_issues"] ;;
  from_tokens <-
    mapM (fun k => py_get_default token_usage k (JInt 0))
      ["total_input_tokens"; "total_output_tokens"; "total_cache_read_tokens";
       "total_cache_creation_tokens"; "total_cost_usd"] ;;
  Ok ([run_id; generated_at] ++ from_summary ++ from_tools
        ++ [dumps_or_none models_used] ++ from_supabase ++ from_tokens
        ++ [JStr ingested_at; JNull]).

(** [list(set(f.get("category") for f in step_failures if f.get("category")))] *)
Definition build_error_categories (step_failures : list json) : result (list json) :=
  cats <- truthy_fields "category" step_failures ;;
  distinct <- dict_fromkeys cats ;;
  Ok (set_order rt distinct).

(** The parameter tuple of the [INSERT INTO steps] for one entry of
    [step_outcomes] (the body of the first loop, up to the statement). *)
Definition steps_params (run_id raw_data failures_details step_outcome : json)
  : result (list json) :=
  step_number <- py_get step_outcome "step" ;;
  let step_id :=
    (py_str (repr_compound rt) run_id ++ "_"
       ++ py_str (repr_compound rt) step_number)%string in
  raw_steps <- get_raw_steps_for_step_number raw_data step_number ;;
  phase <- _extract_phase_from_raw_steps raw_steps ;;
  tool <- _extract_tool_from_raw_steps raw_steps ;;
  step_failures <- _get_failures_for_step failures_details step_number ;;
  error_categories <- build_error_categories step_failures ;;
  let error_categories_json :=
    match error_categories with
    | [] => JNull
    | _ => JStr (json_dumps rt (JArr error_categories))
    end in
  errors_summary <- build_errors_summary step_failures ;;
  resolution_actions <- py_get step_outcome "resolution_actions" ;;
  let resolution_actions_json := dumps_or_none resolution_actions in
  outcome_fields <-
    mapM (py_get step_outcome)
      ["build_phase"; "final_verdict"; "attempts"; "retries"; "duration_seconds"] ;;
  usage_fields <-
    mapM (fun k => py_get_default step_outcome k (JInt 0))
      ["input_tokens"; "output_tokens"; "cost_usd"] ;;
  Ok ([JStr step_id; run_id; step_number; nth 0 outcome_fields JNull; phase; tool]
        ++ skipn 1 outcome_fields
        ++ [resolution_actions_json; error_categories_json; errors_summary;
            JNull; JNull; JNull; JNull; JNull; JNull; JNull]
        ++ usage_fields).

Definition ingest_step (run_id raw_data failures_details : json) (conn : Conn)
  (step_outcome : json) : result Conn :=
  params <- steps_params run_id raw_data failures_details step_outcome ;;
  execute (InsertInto Steps) params conn.

(** The parameter tuple of the [INSERT INTO failures] for one entry of
    [failures.details]. *)
Definition failures_params (run_id failure : json) : result (list json) :=
  fields <-
    mapM (py_get failure)
      ["step"; "build_phase"; "phase"; "category"; "error"; "exit_code"] ;;
  Ok (run_id :: fields).

Definition ingest_failure (run_id : json) (conn : Conn) (failure : json) : result Conn :=
  params <- failures_params run_id failure ;;
  execute (InsertInto Failures) params conn.

(** The parameter tuple of the [INSERT INTO web_searches] for one entry of
    [web_searches]. *)
Definition web_searches_params (run_id ws : json) : result (list json) :=
  fields <- mapM (py_get ws) ["step_id"; "query"; "count"; "timestamp"] ;;
  Ok (run_id :: fields).

Definition ingest_web_search (run_id : json) (conn : Conn) (ws : json) : result Conn :=
  params <- web_searches_params run_id ws ;;
  execute (InsertInto WebSearches) params conn.

(** [_ingest_single_report]: the statements run on [conn]; nothing is
    committed here. *)
Definition _ingest_single_report (conn : Conn) (report : file_content) : result Conn :=
  data <- json_load report ;;
  run_id <- py_getitem data "run_id" ;;
  summary <- py_get_default data "summary" (JObj []) ;;
  tools_config <- py_get_default data "tools_config" (JObj []) ;;
  supabase_specific <- py_get_default data "supabase_specific" (JObj []) ;;
  token_usage <- py_get_default data "token_usage" (JObj []) ;;
  raw_data <- py_get_default data "raw_data" (JObj []) ;;
  params <- runs_params data run_id summary tools_config supabase_specific token_usage ;;
  conn <- execute (InsertInto Runs) params conn ;;
  step_outcomes <- py_get_default data "step_outcomes" (JArr []) ;;
  failures_section <- py_get_default data "failures" (JObj []) ;;
  failures_details <- py_get_default failures_section "details" (JArr []) ;;
  outcomes <- py_iter step_outcomes ;;
  conn <- foldM (ingest_step run_id raw_data failures_details) outcomes conn ;;
  details <- py_iter failures_details ;;
  conn <- foldM (ingest_failure run_id) details conn ;;
  web_searches <- py_get_default data "web_searches" (JArr []) ;;
  searches <- py_iter web_searches ;;
  foldM (ingest_web_search run_id) searches conn.

(** Modelled from the spec: [get_db] of db.py hands out a connection scoped
    to one ingestion unit.  Its statements take effect in the store when
    [commit] is called; a connection released without it leaves the store as
    it was. *)
Definition get_db (db : Store) : Conn := mkConn db [].

Definition commit (conn : Conn) : Store := pending conn.

(** The terminal state of a candidate file: the counter its iteration
    increments. *)
Inductive outcome : Type := Ingested | Skipped | Errored.

(** The body of the [with get_db() as conn:] block of [ingest_reports]. *)
Definition ingest_transaction (force : bool) (db : Store) (run_id : json)
  (report : file_content) : result Store :=
  let conn := get_db db in
  conn <- (if force
           then (e <- run_exists db run_id ;;
                 if e then _delete_run_data conn run_id else Ok conn)
           else Ok conn) ;;
  conn <- _ingest_single_report conn report ;;
  Ok (commit conn).

(** The [try] block of one iteration of the loop of [ingest_reports]. *)
Definition try_report (force : bool) (db : Store) (report : file_content)
  : result (Store * outcome) :=
  data <- json_load report ;;
  run_id <- py_get data "run_id" ;;
  if negb (truthy run_id) then Ok (db, Errored)
  else
    skip <- (if negb force then run_exists db run_id else Ok false) ;;
    if skip then Ok (db, Skipped)
    else (db' <- ingest_transaction force db run_id report ;; Ok (db', Ingested)).

(** One iteration: the [try] block and its three handlers. *)
Definition process_report (force : bool) (db : Store) (report : file_content)
  : Store * outcome :=
  match try_report force db report with
  | Ok r => r
  | Raise JSONDecodeError => (db, Errored)
  | Raise KeyError => (db, Errored)
  | Raise _ => (db, Errored)
  end.

(** The dict [{"ingested": N, "skipped": N, "errors": N}]. *)
Record counts : Type := mkCounts {
  ingested : nat;
  skipped : nat;
  errors : nat
}.

Definition bump (o : outcome) (r : counts) : counts :=
  match o with
  | Ingested => mkCounts (S (ingested r)) (skipped r) (errors r)
  | Skipped => mkCounts (ingested r) (S (skipped r)) (errors r)
  | Errored => mkCounts (ingested r) (skipped r) (S (errors r))
  end.

Fixpoint ingest_loop (force : bool) (report_files : list file_content)
  (db : Store) (r : counts) : Store * counts :=
  match report_files with
  | [] => (db, r)
  | report :: rest =>
      let '(db', o) := process_report force db report in
      ingest_loop force rest db' (bump o r)
  end.

(** [name] matches the pattern [*suffix]. *)
Fixpoint ends_with (suffix name : string) : bool :=
  if (name =? suffix)%string then true
  else match name with
       | EmptyString => false
       | String _ r => ends_with suffix r
       end.

(** [REPORTS_DIR.glob("*_full.json")] over the entries of the directory, in
    the order the file system lists them. *)
Definition glob_full_json (entries : list (string * file_content)) : list file_content :=
  map snd (filter (fun e => ends_with "_full.json" (fst e)) entries).

(** [ingest_reports]; [reports_dir] is [None] when the directory does not
    exist. *)
Definition ingest_reports (force : bool)
  (reports_dir : option (list (string * file_content))) (db : Store)
  : Store * counts :=
  let result := mkCounts 0 0 0 in
  match reports_dir with
  | None => (db, result)
  | Some entries =>
      let report_files := glob_full_json entries in
      match report_files with
      | [] => (db, result)
      | _ => ingest_loop force report_files db result
      end
  end.

End Ingestion.

(** ** Aggregations of app.py *)

Definition lower_char (c : ascii) : ascii :=
  let n := nat_of_ascii c in
  if (65 <=? n) && (n <=? 90) then ascii_of_nat (n + 32) else c.

Definition upper_char (c : ascii) : ascii :=
  let n := nat_of_ascii c in
  if (97 <=? n) && (n <=? 122) then ascii_of_nat (n - 32) else c.

Fixpoint map_string (f : ascii -> ascii) (s : string) : string :=
  match s with
  | EmptyString => EmptyString
  | String c r => String (f c) (map_string f r)
  end.

(** [s.lower()] *)
Definition lower (s : string) : string := map_string lower_char s.

(** SQL [UPPER(s)] *)
Definition upper (s : string) : string := map_string upper_char s.

Definition sqlval_eqb (a b : sqlval) : bool :=
  match a, b with
  | SNull, SNull => true
  | SInt n, SInt m => (n =? m)%Z
  | SText s, SText t => (s =? t)%string
  | _, _ => false
  end.

(** The distinct values of a list, in order of first appearance. *)
Fixpoint distinct (l : list sqlval) : list sqlval :=
  match l with
  | [] => []
  | v :: r => v :: filter (fun w => negb (sqlval_eqb v w)) (distinct r)
  end.

(** [GROUP BY key]: one group per distinct key (here in order of first
    appearance; SQL leaves the order open), with the rows of the group. *)
Definition group_by {A : Type} (key : A -> sqlval) (l : list A)
  : list (sqlval * list A) :=
  map (fun k => (k, filter (fun x => sqlval_eqb (key x) k) l))
      (distinct (map key l)).

(** SQL [COALESCE(v, d)] *)
Definition coalesce (v d : sqlval) : sqlval :=
  match v with
  | SNull => d
  | _ => v
  end.

(** *** get_stats: the classification distribution *)

(** The rows of
    [SELECT COALESCE(classification, 'pending'), COUNT( * ) FROM steps
     GROUP BY COALESCE(classification, 'pending')]. *)
Definition classification_rows (db : Store) : list (sqlval * nat) :=
  map (fun g => (fst g, List.length (snd g)))
      (group_by (fun s => coalesce (col Steps "classification" s) (SText "pending"))
                (steps db)).

(** A Python dict from bucket name to count. *)
Definition count_dict : Type := list (string * nat).

Fixpoint dict_get (k : string) (d : count_dict) : option nat :=
  match d with
  | [] => None
  | (k', v) :: r => if (k' =? k)%string then Some v else dict_get k r
  end.

Definition dict_mem (k : string) (d : count_dict) : bool :=
  match dict_get k d with
  | Some _ => true
  | None => false
  end.

Fixpoint dict_set (k : string) (v : nat) (d : count_dict) : count_dict :=
  match d with
  | [] => [(k, v)]
  | (k', v') :: r =>
      if (k' =? k)%string then (k', v) :: r else (k', v') :: dict_set k v r
  end.

Definition dict_at (k : string) (d : count_dict) : nat :=
  match dict_get k d with
  | Some v => v
  | None => 0
  end.

(** [(row[0] or "pending").lower()]: only a [str] has [lower]. *)
Definition row_label (v : sqlval) : result string :=
  match v with
  | SNull => Ok (lower "pending")
  | SText s => Ok (lower (if (s =? "")%string then "pending" else s))
  | SInt n => if (n =? 0)%Z then Ok (lower "pending") else Raise AttributeError
  end.

(** The body of [for row in classification_rows:]. *)
Definition tally_row (classification_counts : count_dict) (r : sqlval * nat)
  : result count_dict :=
  cls <- row_label (fst r) ;;
  if dict_mem cls classification_counts
  then Ok (dict_set cls (snd r) classification_counts)
  else if (cls =? "")%string
       then Ok (dict_set "pending"
                  (dict_at "pending" classification_counts + snd r)
                  classification_counts)
       else Ok classification_counts.

Definition initial_classification_counts : count_dict :=
  [("architectural", 0); ("implementation", 0); ("clean_pass", 0);
   ("ambiguous", 0); ("pending", 0)].

(** The part of the payload of [get_stats] the distribution is about. *)
Record stats : Type := mkStats {
  total_steps : nat;
  classification_counts : count_dict
}.

(** [get_stats], restricted to [total_steps] and [classification_counts]. *)
Definition get_stats (db : Store) : result stats :=
  let total := List.length (steps db) in
  counts <- foldM tally_row (classification_rows db) initial_classification_counts ;;
  Ok (mkStats total counts).

(** The sum of the five buckets. *)
Definition bucket_sum (d : count_dict) : nat :=
  dict_at "architectural" d + dict_at "implementation" d
  + dict_at "clean_pass" d + dict_at "ambiguous" d + dict_at "pending" d.

(** *** get_patterns: self-correction per error category *)

(** [v IS NOT NULL AND v != ''] *)
Definition not_null_nor_empty (v : sqlval) : bool :=
  match v with
  | SNull => false
  | SText s => negb (s =? "")%string
  | SInt _ => true
  end.

(** [v > 0]; a text value sorts above every number. *)
Definition sql_positive (v : sqlval) : bool :=
  match v with
  | SNull => false
  | SInt n => (0 <? n)%Z
  | SText _ => true
  end.

(** [UPPER(v) IN (names)] *)
Definition upper_in (names : list string) (v : sqlval) : bool :=
  match v with
  | SText s => existsb (String.eqb (upper s)) names
  | _ => false
  end.

(** [FROM failures f JOIN steps s ON f.run_id = s.run_id AND
    f.step_number = s.step_number WHERE f.category IS NOT NULL AND
    f.category != '' AND s.retries > 0]: the pairs (f, s). *)
Definition retried_failures (db : Store) : list (row * row) :=
  filter (fun fs =>
            not_null_nor_empty (col Failures "category" (fst fs))
            && sql_positive (col Steps "retries" (snd fs)))
    (flat_map
       (fun f =>
          map (pair f)
            (filter (fun s =>
                       sql_eq (col Failures "run_id" f) (col Steps "run_id" s)
                       && sql_eq (col Failures "step_number" f)
                                 (col Steps "step_number" s))
               (steps db)))
       (failures db)).

(** [COUNT(DISTINCT s.id)] over the pairs of a group. *)
Definition count_distinct_ids (g : list (row * row)) : nat :=
  List.length
    (distinct (filter (fun v => negb (sqlval_eqb v SNull))
                 (map (fun fs => col Steps "id" (snd fs)) g))).

(** [SUM(CASE WHEN s.retries > 0 AND UPPER(s.final_verdict) IN (names)
    THEN 1 ELSE 0 END)] over the pairs of a group. *)
Definition sum_verdict_in (names : list string) (g : list (row * row)) : nat :=
  List.length
    (filter (fun fs =>
               sql_positive (col Steps "retries" (snd fs))
               && upper_in names (col Steps "final_verdict" (snd fs))) g).

(** [ORDER BY total DESC], stable. *)
Fixpoint insert_desc {A : Type} (key : A -> nat) (x : A) (l : list A) : list A :=
  match l with
  | [] => [x]
  | y :: r => if key y <? key x then x :: l else y :: insert_desc key x r
  end.

Definition order_by_desc {A : Type} (key : A -> nat) (l : list A) : list A :=
  fold_right (insert_desc key) [] l.

(** The rows of the self-correction query:
    (category, total, self_corrected, failed). *)
Definition self_correction_rows (db : Store) : list (sqlval * nat * nat * nat) :=
  order_by_desc (fun r => snd (fst (fst r)))
    (map (fun g =>
            (fst g, count_distinct_ids (snd g),
             sum_verdict_in ["PROCEED"; "PASS"] (snd g),
             sum_verdict_in ["FAIL"; "SKIP"] (snd g)))
       (group_by (fun fs => col Failures "category" (fst fs))
                 (retried_failures db))).

(** [round(q, 3)] on the exact quotient, halves to the even neighbour. *)
Definition round3 (q : Q) : Q :=
  let n := (Qnum q * 1000)%Z in
  let d := Z.pos (Qden q) in
  let f := (n / d)%Z in
  let r := (n mod d)%Z in
  let up :=
    if (d <? 2 * r)%Z then true
    else if (2 * r <? d)%Z then false
    else Z.odd f in
  Qmake (if up then f + 1 else f) 1000.

Record self_correction_entry : Type := mkEntry {
  sc_category : sqlval;
  sc_total : nat;
  sc_self_corrected : nat;
  sc_failed : nat;
  sc_rate : Q
}.

(** The loop of [get_patterns] that builds [self_correction]. *)
Definition self_correction_entry_of (r : sqlval * nat * nat * nat)
  : self_correction_entry :=
  let '(category, total, self_corrected, failed) := r in
  let rate :=
    if 0 <? total
    then Qmake (Z.of_nat self_corrected) (Pos.of_nat total)
    else 0%Q in
  mkEntry category total self_corrected failed (round3 rate).

(** The [self_correction] list of the payload of [get_patterns]. *)
Definition get_patterns_self_correction (db : Store) : list self_correction_entry :=
  map self_correction_entry_of (self_correction_rows db).

(** ** Specification-side notions *)

(** *** Records of a report, read as the report schema types them *)

Definition is_object (j : json) : bool :=
  match j with
  | JObj _ => true
  | _ => false
  end.

(** The value of a field of a record, [JNull] when the field is absent. *)
Definition field (k : string) (j : json) : json :=
  match j with
  | JObj m => match assoc k m with Some v => v | None => JNull end
  | _ => JNull
  end.

(** The records whose [step] field equals the step number. *)
Definition matching (records : list json) (step_number : json) : list json :=
  filter (fun s => py_eq (field "step" s) step_number) records.

(** A field typed [Optional[str]]: a string, or else null, absent, or any
    other value Python takes for false. *)
Definition string_or_absent (k : string) (j : json) : bool :=
  match field k j with
  | JStr _ => true
  | v => negb (truthy v)
  end.

(** The non-empty string values of field [k], record by record. *)
Definition present_strings (k : string) (records : list json) : list string :=
  flat_map (fun s => match field k s with
                     | JStr v => if (v =? "")%string then [] else [v]
                     | _ => []
                     end) records.

(** The distinct values of a list, in order of first appearance. *)
Fixpoint first_seen (l : list string) : list string :=
  match l with
  | [] => []
  | x :: r => x :: filter (fun y => negb (y =? x)%string) (first_seen r)
  end.

(** [s] is one of the values [seen]. *)
Definition seen_before (seen : list string) (s : string) : bool :=
  existsb (String.eqb s) seen.

(** How often a value occurs in a list. *)
Definition occurrences (s : string) (l : list string) : nat :=
  count_occ string_dec l s.

Definition counter_keys (c : counter) : list hkey :=
  map (fun e => fst (fst e)) c.

(** [c] is the [Counter] of the strings [strs]: one entry per distinct
    string holding its number of occurrences, the entries in order of first
    appearance. *)
Definition counter_of (strs : list string) (c : counter) : Prop :=
  Forall (fun e => exists s, e = (HStr s, JStr s, occurrences s strs) /\ In s strs) c
  /\ NoDup (counter_keys c)
  /\ (forall s, In s strs -> In (HStr s) (counter_keys c))
  /\ (forall ks1 s ks2,
         counter_keys c = ks1 ++ HStr s :: ks2 ->
         exists l1 l2, strs = l1 ++ s :: l2
                       /\ forall u, In u l1 -> In (HStr u) ks1).

(** Lines 153 and 156 of ingest.py: the phase derived for a step number. *)
Definition derived_phase (raw_data step_number : json) : result json :=
  raw_steps <- get_raw_steps_for_step_number raw_data step_number ;;
  _extract_phase_from_raw_steps raw_steps.

(** Lines 153 and 157 of ingest.py: the tool derived for a step number. *)
Definition derived_tool (raw_data step_number : json) : result json :=
  raw_steps <- get_raw_steps_for_step_number raw_data step_number ;;
  _extract_tool_from_raw_steps raw_steps.

(** Lines 160 and 167-168 of ingest.py: the errors summary derived for a
    step number. *)
Definition derived_errors_summary (failures_details step_number : json)
  : result json :=
  step_failures <- _get_failures_for_step failures_details step_number ;;
  build_errors_summary step_failures.

(** The store with every record of run [v] removed. *)
Definition without_run (v : sqlval) (db : Store) : Store :=
  let others (t : table) :=
    filter (fun r => negb (sql_eq (col t "run_id" r) v)) (rows_of t db) in
  mkStore (others Runs) (others Steps) (others Failures) (others WebSearches).

(** The entries of a list-valued section of a report; empty when the
    section cannot be iterated. *)
Definition entries (section : result json) : list json :=
  match (v <- section ;; py_iter v) with
  | Ok l => l
  | Raise _ => []
  end.

Definition step_outcome_entries (data : json) : list json :=
  entries (py_get_default data "step_outcomes" (JArr [])).

Definition failure_detail_entries (data : json) : list json :=
  entries (s <- py_get_default data "failures" (JObj []) ;;
           py_get_default s "details" (JArr [])).

Definition web_search_entries (data : json) : list json :=
  entries (py_get_default data "web_searches" (JArr [])).

(** The rows [new] were written for run [v]: each carries it in its
    [run_id] column. *)
Definition all_of_run (t : table) (v : sqlval) (new : list row) : Prop :=
  Forall (fun r => col t "run_id" r = v) new.

(** The state a transaction on run [v] inserts into: under [force] the
    records of an existing run [v] are deleted first. *)
Definition insertion_base (force : bool) (v : sqlval) (db : Store) : Store :=
  if force && existsb (fun r => sql_eq (col Runs "run_id" r) v) (runs db)
  then without_run v db
  else db.

(** Every row of [db] is a row of [db']. *)
Definition store_incl (db db' : Store) : Prop :=
  forall t : table, incl (rows_of t db) (rows_of t db').

(** The same for the pending states of two connections. *)
Definition conn_incl (a b : Conn) : Prop := store_incl (pending a) (pending b).

(** How the outcome of a file in a second non-forced invocation relates to
    its outcome in the first: it is never ingested again, and it is skipped
    if the first invocation ingested or skipped it. *)
Definition second_outcome (o1 o2 : outcome) : Prop :=
  o2 <> Ingested /\ (o1 <> Errored -> o2 = Skipped).

(** The per-file failures ingestion isolates: the file does not parse, it
    carries no run identifier, or its transaction raises. *)
Inductive report_failure (rt : Runtime) (force : bool) (db : Store)
  (report : file_content) : Prop :=
| parse_failure (e : pyexc) :
    json_load report = Raise e -> report_failure rt force db report
| missing_run_id (data run_id : json) :
    json_load report = Ok data ->
    py_get data "run_id" = Ok run_id ->
    truthy run_id = false ->
    report_failure rt force db report
| write_failure (data run_id : json) (e : pyexc) :
    json_load report = Ok data ->
    py_get data "run_id" = Ok run_id ->
    truthy run_id = true ->
    (force = false -> run_exists db run_id = Ok false) ->
    ingest_transaction rt force db run_id report = Raise e ->
    report_failure rt force db report.

(** The terminal state of each candidate file of one invocation, in
    processing order. *)
Fixpoint loop_outcomes (rt : Runtime) (force : bool)
  (report_files : list file_content) (db : Store) : list outcome :=
  match report_files with
  | [] => []
  | report :: rest =>
      let '(db', o) := process_report rt force db report in
      o :: loop_outcomes rt force rest db'
  end.

(** *** The classification distribution *)

(** The buckets of the classification distribution. *)
Definition bucket_names : list string :=
  ["architectural"; "implementation"; "clean_pass"; "ambiguous"; "pending"].

(** The label a step is grouped under by the query of [get_stats]. *)
Definition label_of (s : row) : sqlval :=
  coalesce (col Steps "classification" s) (SText "pending").

(** The steps of the store grouped under label [k]. *)
Definition labelled (db : Store) (k : sqlval) : nat :=
  List.length (filter (fun s => sqlval_eqb (label_of s) k) (steps db)).

(** ** Sample data *)

Definition sample_runtime : Runtime :=
  mkRuntime (fun _ => "[]") (fun _ => "[]") (fun l => l)
            "2026-01-01T00:00:00+00:00".

Definition empty_store : Store := mkStore [] [] [] [].

(** A report of run [run_id] with one step, retried once, that failed [n]
    times with a timeout and ended with the verdict [verdict]. *)
Definition timeout_failure : json :=
  JObj [("step", JInt 1); ("build_phase", JStr "setup");
        ("category", JStr "timeout"); ("error", JStr "timed out")].

Definition retried_report (run_id verdict : string) (n : nat) : json :=
  JObj [("run_id", JStr run_id);
        ("summary", JObj [("status", JStr "success")]);
        ("raw_data",
          JObj [("steps",
                 JArr [JObj [("step", JInt 1); ("phase", JStr "build");
                             ("tool", JStr "cursor")];
                       JObj [("step", JInt 1); ("phase", JStr "test");
                             ("tool", JStr "claude")];
                       JObj [("step", JInt 1); ("phase", JStr "build");
                             ("tool", JStr "claude")]])]);
        ("step_outcomes",
          JArr [JObj [("step", JInt 1); ("retries", JInt 1);
                      ("final_verdict", JStr verdict)]]);
        ("failures", JObj [("details", JArr (repeat timeout_failure n))]);
        ("web_searches", JArr [JObj [("query", JStr "sqlite timeout")]])].

Definition sample_report : json := retried_report "r1" "PASS" 2.

Definition second_report : json := retried_report "r2" "PASS" 1.

(** The store after ingesting, into an empty store, a report whose only
    step met two timeouts before it passed. *)
Definition twice_failed_store : Store :=
  fst (ingest_reports sample_runtime false
         (Some [("r1_full.json", Document (sample_report))])
         empty_store).

(** The store after ingesting four reports whose step met one timeout:
    three passed, one failed. *)
Definition four_runs_store : Store :=
  fst (ingest_reports sample_runtime false
         (Some [("r1_full.json", Document (retried_report "r1" "PASS" 1));
                ("r2_full.json", Document (second_report));
                ("r3_full.json", Document (retried_report "r3" "PASS" 1));
                ("r4_full.json", Document (retried_report "r4" "FAIL" 1))])
         empty_store).

(** A step row as ingestion writes it, with the classification label the
    external classifier has set. *)
Definition classified_step (id : string) (step_number : Z) (label : sqlval) : row :=
  [SText id; SText "r1"; SInt step_number; SNull; SNull; SNull; SText "PASS";
   SInt 1; SInt 0; SNull; SNull; SNull; SNull; label; SNull; SNull; SNull;
   SNull; SNull; SNull; SInt 0; SInt 0; SInt 0].

(** One step not yet classified and one whose label is the empty string. *)
Definition unlabelled_store : Store :=
  mkStore [] [classified_step "r1_1" 1 SNull; classified_step "r1_2" 2 (SText "")]
          [] [].

Definition unlabelled_store_reversed : Store :=
  mkStore [] [classified_step "r1_2" 2 (SText ""); classified_step "r1_1" 1 SNull]
          [] [].

(** A sub-step of step 1. *)
Definition sub_step (phase tool : json) : json :=
  JObj [("step", JInt 1); ("phase", phase); ("tool", tool)].

(** Sub-steps of step 1 whose phase is the empty string. *)
Definition empty_phase_steps : list json :=
  [JObj [("step", JInt 1); ("phase", JStr "")];
   JObj [("step", JInt 1); ("phase", JStr "")]].

(** Sub-steps of step 1 with the phases "build" and "". *)
Definition build_and_empty_phase_steps : list json :=
  [JObj [("step", JInt 1); ("phase", JStr "build")];
   JObj [("step", JInt 1); ("phase", JStr "")]].

(** The store that holds run r1 (with its two failures) and run r2. *)
Definition two_runs_store : Store :=
  fst (ingest_reports sample_runtime false
         (Some [("r1_full.json", Document (sample_report));
                ("r2_full.json", Document (second_report))])
         empty_store).

Definition sample_files : list (string * file_content) :=
  [("r1_full.json", Document (sample_report));
   ("notes.json", NotJson);
   ("broken_full.json", NotJson);
   ("r2_full.json", Document (second_report))].

(** The sub-steps and the failure records of the sample report. *)
Definition sample_raw_data : json := field "raw_data" (sample_report).

Definition sample_sub_steps : list json :=
  entries (py_get sample_raw_data "steps").

Definition sample_details : list json :=
  failure_detail_entries (sample_report).

(** ** Conditions on the store *)

(** The rows of table [t] written for run [v], and the others. *)
Definition of_run (t : table) (v : sqlval) (r : row) : bool :=
  sql_eq (col t "run_id" r) v.

Definition of_other_run (t : table) (v : sqlval) (r : row) : bool :=
  negb (sql_eq (col t "run_id" r) v).

(** Each table of [db'] is the table of [db] with rows added at its end. *)
Definition store_extends (db db' : Store) : Prop :=
  forall t : table, exists more, rows_of t db' = rows_of t db ++ more.

(** The run identifier a report file is filed under, when it has one that
    can be bound to a statement. *)
Definition file_run_id (report : file_content) : option sqlval :=
  match (data <- json_load report ;;
         run_id <- py_get data "run_id" ;;
         bind_param run_id) with
  | Ok v => Some v
  | Raise _ => None
  end.

(** Some run row carries the identifier [v]. *)
Definition has_run (db : Store) (v : sqlval) : bool :=
  existsb (fun p => sql_eq (col Runs "run_id" p) v) (runs db).

(** Every step, failure and web-search row belongs to a run of the store. *)
Definition no_orphans (db : Store) : Prop :=
  forall (t : table) (r : row),
    t <> Runs -> In r (rows_of t db) -> has_run db (col t "run_id" r) = true.

(** No two run rows carry the same identifier. *)
Fixpoint distinct_run_ids (l : list row) : Prop :=
  match l with
  | [] => True
  | p :: rest =>
      existsb (fun q => sql_eq (col Runs "run_id" q) (col Runs "run_id" p)) rest
      = false
      /\ distinct_run_ids rest
  end.

(** The columns of a step that only the classifier writes. *)
Definition classifier_columns : list string :=
  ["classification"; "classification_confidence"; "classification_reasoning";
   "classification_evidence"; "approach_changed"; "same_file_repeated";
   "error_category_stable"].

Definition unclassified (s : row) : Prop :=
  forall c, In c classifier_columns -> col Steps c s = SNull.

(** The computation [m] does not end in the exception [e]. *)
Definition never_raises {A : Type} (e : pyexc) (m : result A) : Prop :=
  m <> Raise e.

(** ** More of app.py: the other aggregations of get_stats and get_patterns *)

(** *** get_stats: counts of runs and failures *)

(** [COUNT( * ) FROM runs WHERE status = s] counts the rows for which this
    holds. *)
Definition status_is (s : string) (r : row) : bool :=
  sql_eq (col Runs "status" r) (SText s).

Record run_counts : Type := mkRunCounts {
  total_runs : nat;
  completed_runs : nat;
  failed_runs : nat;
  total_failures : nat
}.

(** [get_stats], restricted to [total_runs], [completed_runs], [failed_runs]
    and [total_failures]. *)
Definition get_stats_run_counts (db : Store) : run_counts :=
  mkRunCounts (List.length (runs db))
              (List.length (filter (status_is "success") (runs db)))
              (List.length (filter (status_is "failed") (runs db)))
              (List.length (failures db)).

(** *** get_stats: the most frequent error categories and failure phases *)

(** The rows of [SELECT c, COUNT( * ) FROM failures WHERE c IS NOT NULL AND
    c != '' GROUP BY c ORDER BY count DESC]. *)
Definition failure_counts_by (column : string) (db : Store) : list (sqlval * nat) :=
  order_by_desc snd
    (map (fun g => (fst g, List.length (snd g)))
       (group_by (col Failures column)
          (filter (fun f => not_null_nor_empty (col Failures column f))
             (failures db)))).

(** [top_error_categories] of [get_stats]: the query above on [category]
    with [LIMIT 10]; each pair is a dict [{"category": .., "count": ..}]. *)
Definition top_error_categories (db : Store) : list (sqlval * nat) :=
  firstn 10 (failure_counts_by "category" db).

(** [top_failure_phases] of [get_stats]: the query on [build_phase], without
    limit. *)
Definition top_failure_phases (db : Store) : list (sqlval * nat) :=
  failure_counts_by "build_phase" db.

(** *** get_patterns: the error heatmap and the top patterns *)

(** [ON f.run_id = s.run_id AND f.step_number = s.step_number] *)
Definition joins (f s : row) : bool :=
  sql_eq (col Failures "run_id" f) (col Steps "run_id" s)
  && sql_eq (col Failures "step_number" f) (col Steps "step_number" s).

(** [failures f LEFT JOIN steps s ON ...] for one failure: a pair per
    joining step, or the failure alone when no step joins. *)
Definition left_join_steps (db : Store) (f : row) : list (row * option row) :=
  match filter (joins f) (steps db) with
  | [] => [(f, None)]
  | ss => map (fun s => (f, Some s)) ss
  end.

(** The joined rows that pass [WHERE f.category IS NOT NULL AND f.category
    != '' AND f.build_phase IS NOT NULL AND f.build_phase != '']. *)
Definition located (f : row) : bool :=
  not_null_nor_empty (col Failures "category" f)
  && not_null_nor_empty (col Failures "build_phase" f).

Definition located_failures (db : Store) : list (row * option row) :=
  flat_map (left_join_steps db) (filter located (failures db)).

(** [s.classification = label], false on the missing side of the join. *)
Definition classified_as (label : string) (fs : row * option row) : bool :=
  match snd fs with
  | Some s => sql_eq (col Steps "classification" s) (SText label)
  | None => false
  end.

Definition pair_eqb (a b : sqlval * sqlval) : bool :=
  sqlval_eqb (fst a) (fst b) && sqlval_eqb (snd a) (snd b).

(** The distinct values of a list under [eqb], in order of first
    appearance. *)
Fixpoint distinct_by {K : Type} (eqb : K -> K -> bool) (l : list K) : list K :=
  match l with
  | [] => []
  | v :: r => v :: filter (fun w => negb (eqb v w)) (distinct_by eqb r)
  end.

(** [GROUP BY] on a composite key. *)
Definition group_by_key {A K : Type} (eqb : K -> K -> bool) (key : A -> K)
  (l : list A) : list (K * list A) :=
  map (fun k => (k, filter (fun x => eqb (key x) k) l))
      (distinct_by eqb (map key l)).

Definition cell_of (fs : row * option row) : sqlval * sqlval :=
  (col Failures "category" (fst fs), col Failures "build_phase" (fst fs)).

(** The groups of [GROUP BY f.category, f.build_phase]. *)
Definition pattern_groups (db : Store)
  : list ((sqlval * sqlval) * list (row * option row)) :=
  group_by_key pair_eqb cell_of (located_failures db).

Record heatmap_entry : Type := mkHeat {
  hm_category : sqlval;
  hm_build_phase : sqlval;
  hm_count : nat;
  hm_architectural : nat;
  hm_implementation : nat
}.

Definition heatmap_entry_of (g : (sqlval * sqlval) * list (row * option row))
  : heatmap_entry :=
  mkHeat (fst (fst g)) (snd (fst g)) (List.length (snd g))
         (List.length (filter (classified_as "architectural") (snd g)))
         (List.length (filter (classified_as "implementation") (snd g))).

(** [error_heatmap] of [get_patterns]. *)
Definition error_heatmap (db : Store) : list heatmap_entry :=
  order_by_desc hm_count (map heatmap_entry_of (pattern_groups db)).

(** The text of a value, as [||], [GROUP_CONCAT] and an f-string give it;
    [None] for [NULL]. *)
Definition sql_text (v : sqlval) : option string :=
  match v with
  | SNull => None
  | SInt n => Some (DecimalString.NilEmpty.string_of_int (Z.to_int n))
  | SText s => Some s
  end.

Definition text_or_empty (v : sqlval) : string :=
  match sql_text v with
  | Some s => s
  | None => ""
  end.

(** [f"{v}"] for a value read from a row: [NULL] comes as [None]. *)
Definition py_format (v : sqlval) : string :=
  match sql_text v with
  | Some s => s
  | None => "None"
  end.

(** [GROUP_CONCAT(DISTINCT v)]: the distinct values that are not NULL,
    joined by commas; NULL when there is none. *)
Definition group_concat_distinct (vals : list sqlval) : option string :=
  match distinct (filter (fun v => negb (sqlval_eqb v SNull)) vals) with
  | [] => None
  | d => Some (join_strings "," (map text_or_empty d))
  end.

(** [s.split(sep)] for a separator of one character. *)
Fixpoint split_on (sep : ascii) (s : string) : list string :=
  match s with
  | EmptyString => [""]
  | String c r =>
      if Ascii.eqb c sep then "" :: split_on sep r
      else match split_on sep r with
           | h :: t => String c h :: t
           | [] => [String c ""]
           end
  end.

(** [row[5].split(',') if row[5] else []] *)
Definition split_run_ids (concat : option string) : list string :=
  match concat with
  | None => []
  | Some s => if (s =? "")%string then [] else split_on "," s
  end.

Record pattern_entry : Type := mkPattern {
  pt_pattern : string;
  pt_category : sqlval;
  pt_build_phase : sqlval;
  pt_total_occurrences : nat;
  pt_architectural_count : nat;
  pt_implementation_count : nat;
  pt_example_run_ids : list string
}.

Definition pattern_entry_of (g : (sqlval * sqlval) * list (row * option row))
  : pattern_entry :=
  let run_ids :=
    split_run_ids
      (group_concat_distinct
         (map (fun fs => col Failures "run_id" (fst fs)) (snd g))) in
  mkPattern (py_format (fst (fst g)) ++ " in " ++ py_format (snd (fst g)))
            (fst (fst g)) (snd (fst g)) (List.length (snd g))
            (List.length (filter (classified_as "architectural") (snd g)))
            (List.length (filter (classified_as "implementation") (snd g)))
            (firstn 5 run_ids).

(** [top_patterns] of [get_patterns]: the groups by descending size,
    [LIMIT 20]. *)
Definition top_patterns (db : Store) : list pattern_entry :=
  map pattern_entry_of
      (firstn 20 (order_by_desc (fun g => List.length (snd g)) (pattern_groups db))).

(** *** get_patterns: the comparison of tool configurations *)

(** SQL [a || b]: NULL when either side is. *)
Definition sql_concat (a b : sqlval) : sqlval :=
  match sql_text a, sql_text b with
  | Some x, Some y => SText (x ++ y)
  | _, _ => SNull
  end.

(** [planner || '/' || implementer || '/' || verifier] *)
Definition tool_config_of (r : row) : sqlval :=
  sql_concat
    (sql_concat
       (sql_concat (sql_concat (col Runs "planner" r) (SText "/"))
                   (col Runs "implementer" r))
       (SText "/"))
    (col Runs "verifier" r).

Definition triple_eqb (a b : sqlval * sqlval * sqlval) : bool :=
  sqlval_eqb (fst (fst a)) (fst (fst b))
  && sqlval_eqb (snd (fst a)) (snd (fst b))
  && sqlval_eqb (snd a) (snd b).

Definition tools_of (r : row) : sqlval * sqlval * sqlval :=
  (col Runs "planner" r, col Runs "implementer" r, col Runs "verifier" r).

(** The groups of [FROM runs WHERE planner IS NOT NULL GROUP BY planner,
    implementer, verifier]. *)
Definition tool_groups (db : Store) : list ((sqlval * sqlval * sqlval) * list row) :=
  group_by_key triple_eqb tools_of
    (filter (fun r => negb (sqlval_eqb (col Runs "planner" r) SNull)) (runs db)).

(** The rows of [FROM steps s JOIN runs r ON s.run_id = r.run_id WHERE
    r.planner || '/' || r.implementer || '/' || r.verifier = ?]. *)
Definition steps_of_config (db : Store) (tool_config : sqlval) : list (row * row) :=
  filter (fun sr => sql_eq (tool_config_of (snd sr)) tool_config)
    (flat_map
       (fun s =>
          map (pair s)
            (filter (fun r => sql_eq (col Steps "run_id" s) (col Runs "run_id" r))
                    (runs db)))
       (steps db)).

Record tool_entry : Type := mkTool {
  tc_tool_config : sqlval;
  tc_run_count : nat;
  tc_architectural_count : nat;
  tc_implementation_count : nat
}.

Definition tool_entry_of (db : Store) (g : (sqlval * sqlval * sqlval) * list row)
  : tool_entry :=
  let tool_config :=
    sql_concat
      (sql_concat
         (sql_concat (sql_concat (fst (fst (fst g))) (SText "/")) (snd (fst (fst g))))
         (SText "/"))
      (snd (fst g)) in
  let counted label :=
    List.length
      (filter (fun sr => sql_eq (col Steps "classification" (fst sr)) (SText label))
              (steps_of_config db tool_config)) in
  mkTool tool_config (List.length (snd g))
         (counted "architectural") (counted "implementation").

(** [tool_comparison] of [get_patterns], restricted to [tool_config],
    [run_count], [architectural_count] and [implementation_count]. *)
Definition tool_comparison (db : Store) : list tool_entry :=
  map (tool_entry_of db)
      (order_by_desc (fun g => List.length (snd g)) (tool_groups db)).

(** The keys never increase along the list. *)
Definition descending {A : Type} (key : A -> nat) (l : list A) : Prop :=
  StronglySorted (fun a b => key b <= key a) l.

(** The text holds no comma. *)
Fixpoint comma_free (s : string) : bool :=
  match s with
  | EmptyString => true
  | String c r => negb (Ascii.eqb c ",") && comma_free r
  end.

(** A run identifier that [GROUP_CONCAT] and [split(',')] carry through
    unchanged: a text that is not empty and holds no comma. *)
Definition plain_run_id (v : sqlval) : Prop :=
  exists s, v = SText s /\ s <> "" /\ comma_free s = true.

(** ** list_runs of app.py *)

(** The key of [runs.sort]: [r.get("generated_at") or ""]. *)
Inductive sort_key : Type :=
| KText (s : string)
| KInt (n : Z).

Definition or_empty (v : sqlval) : sort_key :=
  match v with
  | SNull => KText ""
  | SText s => KText s
  | SInt n => if (n =? 0)%Z then KText "" else KInt n
  end.

Definition is_text_key (k : sort_key) : bool :=
  match k with
  | KText _ => true
  | KInt _ => false
  end.

(** [a < b] on keys of one type; Python raises [TypeError] on a text and an
    integer. *)
Definition key_ltb (a b : sort_key) : bool :=
  match a, b with
  | KText s, KText t => String.ltb s t
  | KInt n, KInt m => (n <? m)%Z
  | _, _ => false
  end.

(** [l.sort(key=key, reverse=True)]: descending, and stable: of two elements
    with equal keys the one that came first stays first. *)
Fixpoint insert_reverse {A : Type} (key : A -> sort_key) (x : A) (l : list A)
  : list A :=
  match l with
  | [] => [x]
  | y :: r =>
      if key_ltb (key x) (key y) then y :: insert_reverse key x r else x :: l
  end.

Definition sort_reverse {A : Type} (key : A -> sort_key) (l : list A)
  : result (list A) :=
  if forallb (fun x => is_text_key (key x)) l
     || forallb (fun x => negb (is_text_key (key x))) l
  then Ok (fold_right (insert_reverse key) [] l)
  else Raise TypeError.

(** A run as [list_runs] returns it: the dict of the row, and under
    ["classifications"] the summary of its classifications, a dict from
    labels to counts. *)
Definition run_view : Type := row * (string -> option Z).

Definition run_key (r : run_view) : sort_key :=
  or_empty (col Runs "generated_at" (fst r)).

(** [if s:] for an optional text parameter of a request. *)
Definition given (s : option string) : option string :=
  match s with
  | Some t => if (t =? "")%string then None else Some t
  | None => None
  end.

Section ListRuns.

(** The helpers of db.py that [list_runs] calls. *)
Variable get_all_runs : list row.
Variable get_classification_summary : sqlval -> string -> option Z.
Variable get_steps_for_run : sqlval -> list row.
Variable get_failures_for_run : sqlval -> list row.

(** [r["classifications"].get("architectural", 0)] *)
Definition architectural_count (r : run_view) : Z :=
  match snd r "architectural" with
  | Some n => n
  | None => 0%Z
  end.

Definition status_filter (status : option string) (l : list run_view)
  : list run_view :=
  match given status with
  | Some s => filter (fun r => sql_eq (col Runs "status" (fst r)) (SText s)) l
  | None => l
  end.

Definition architectural_filter (has_architectural : option bool)
  (l : list run_view) : list run_view :=
  match has_architectural with
  | Some true => filter (fun r => (0 <? architectural_count r)%Z) l
  | Some false => filter (fun r => (architectural_count r =? 0)%Z) l
  | None => l
  end.

Definition build_phase_filter (build_phase : option string) (l : list run_view)
  : list run_view :=
  match given build_phase with
  | Some b =>
      filter (fun r =>
                existsb (fun s => sql_eq (col Steps "build_phase" s) (SText b))
                        (get_steps_for_run (col Runs "run_id" (fst r)))) l
  | None => l
  end.

Definition error_category_filter (error_category : option string)
  (l : list run_view) : list run_view :=
  match given error_category with
  | Some c =>
      filter (fun r =>
                existsb (fun f => sql_eq (col Failures "category" f) (SText c))
                        (get_failures_for_run (col Runs "run_id" (fst r)))) l
  | None => l
  end.

Definition list_runs (status : option string) (has_architectural : option bool)
  (build_phase error_category : option string) : result (list run_view) :=
  let runs :=
    map (fun run => (run, get_classification_summary (col Runs "run_id" run)))
        get_all_runs in
  let runs := status_filter status runs in
  let runs := architectural_filter has_architectural runs in
  let runs := build_phase_filter build_phase runs in
  let runs := error_category_filter error_category runs in
  sort_reverse run_key runs.

End ListRuns.

(** What a request for the runs asks for, on a run with its steps and its
    failures. *)
Definition asked_status (status : option string) (r : run_view) : Prop :=
  forall s, status = Some s -> s <> "" -> col Runs "status" (fst r) = SText s.

Definition asked_architectural (has_architectural : option bool) (r : run_view)
  : Prop :=
  forall b,
    has_architectural = Some b ->
    if b then (0 < architectural_count r)%Z else architectural_count r = 0%Z.

Definition asked_build_phase (build_phase : option string) (steps : list row)
  : Prop :=
  forall b,
    build_phase = Some b -> b <> "" ->
    exists s, In s steps /\ col Steps "build_phase" s = SText b.

Definition asked_error_category (error_category : option string)
  (failures : list row) : Prop :=
  forall c,
    error_category = Some c -> c <> "" ->
    exists f, In f failures /\ col Failures "category" f = SText c.

(** No element is followed by one with a greater key. *)
Definition newest_first (l : list run_view) : Prop :=
  Sorted (fun a b => key_ltb (run_key a) (run_key b) = false) l.

(** ** The command line of run_dashboard.py, and trigger_classify of app.py *)

(** What a command does: the collaborator it calls, and with what. *)
Inductive action : Type :=
| PrintUsage
| Serve (dev_mode : bool)
| IngestReports (force : bool)
| ClassifyRun (run_id : string)
| ReclassifyRun (run_id : string)
| ClassifyAllRuns
| UnknownCommand (command : string).

(** [arg.startswith("--")] *)
Definition is_flag (arg : string) : bool := prefix "--" arg.

(** The loop of [main] over [sys.argv[2:]]: the first argument that is no
    flag. *)
Fixpoint first_plain (args : list string) : option string :=
  match args with
  | [] => None
  | arg :: rest => if is_flag arg then first_plain rest else Some arg
  end.

(** [trigger_classify], by the call it makes to the classifier. *)
Definition trigger_classify (run_id : option string) (force : bool) : action :=
  match given run_id with
  | Some r => if force then ReclassifyRun r else ClassifyRun r
  | None => ClassifyAllRuns
  end.

(** [main] on [sys.argv], by the call it makes; [PrintUsage] and
    [UnknownCommand] end in [sys.exit(1)]. *)
Definition main (argv : list string) : action :=
  match argv with
  | [] | [_] => PrintUsage
  | _ :: command :: args =>
      if (command =? "serve")%string
      then Serve (existsb (String.eqb "--dev") argv)
      else if (command =? "ingest")%string
      then IngestReports (existsb (String.eqb "--force") argv)
      else if (command =? "classify")%string
      then
        let force := existsb (String.eqb "--force") argv in
        match given (first_plain args) with
        | Some run_id => if force then ReclassifyRun run_id else ClassifyRun run_id
        | None => ClassifyAllRuns
        end
      else UnknownCommand command
  end.

(** A report that names a planner but neither an implementer nor a
    verifier, and the store that holds its run. *)
Definition planner_only_report : json :=
  JObj [("run_id", JStr "p1");
        ("tools_config", JObj [("planner", JStr "claude")]);
        ("step_outcomes", JArr [JObj [("step", JInt 1)]])].

Definition planner_only_store : Store :=
  fst (ingest_reports sample_runtime false
         (Some [("p1_full.json", Document planner_only_report)])
         empty_store).

Definition planner_only_run : row := hd [] (runs planner_only_store).

(** The only step outcome of the sample report, and the row bound for it. *)
Definition sample_step_outcome : json :=
  hd JNull (step_outcome_entries sample_report).

Definition sample_step_params : list json :=
  match steps_params sample_runtime (JStr "r1") sample_raw_data
          (JArr sample_details) sample_step_outcome with
  | Ok params => params
  | Raise _ => []
  end.

Definition sample_step_row : row :=
  match mapM bind_param sample_step_params with
  | Ok r => r
  | Raise _ => []
  end.

(** The helpers of db.py on the store of the two sample runs. *)
Definition sample_steps_for_run (v : sqlval) : list row :=
  filter (of_run Steps v) (steps two_runs_store).

Definition sample_failures_for_run (v : sqlval) : list row :=
  filter (of_run Failures v) (failures two_runs_store).

Definition no_summary : sqlval -> string -> option Z := fun _ _ => None.

(** * Properties *)

(** ** Reasoning about results *)

Lemma bind_Ok {A B : Type} (m : result A) (k : A -> result B) (b : B) :
  bind m k = Ok b -> exists a, m = Ok a /\ k a = Ok b.
Proof.
  destruct m as [a|e]; simpl; intros H; [eauto | discriminate].
Qed.

Ltac bind_inv H :=
  let a := fresh "x" in
  let Ha := fresh "E" in
  apply bind_Ok in H; destruct H as [a [Ha H]].

Ltac bind_step H x E :=
  apply bind_Ok in H; destruct H as [x [E H]].

(** Invert the first step of [H] and replay it in the goal. *)
Ltac pure_step H :=
  let x := fresh "x" in
  let E := fresh "E" in
  bind_step H x E; rewrite E; simpl.

Lemma mapM_length {A B : Type} (f : A -> result B) (l : list A) (l' : list B) :
  mapM f l = Ok l' -> List.length l' = List.length l.
Proof.
  revert l'; induction l as [|x xs IH]; simpl; intros l' H.
  - inversion H; reflexivity.
  - bind_inv H. bind_inv H. inversion H; subst; simpl.
    f_equal; apply IH; assumption.
Qed.

Lemma sql_eq_refl (v : sqlval) : v <> SNull -> sql_eq v v = true.
Proof.
  destruct v; simpl; intros H.
  - congruence.
  - apply Z.eqb_refl.
  - apply String.eqb_refl.
Qed.

(** ** Cascade deletion *)

Lemma execute_delete (t : table) (run_id : json) (v : sqlval) (conn : Conn) :
  bind_param run_id = Ok v ->
  execute (DeleteWhereRunId t) [run_id] conn
  = Ok (mkConn
          (set_rows t
             (filter (fun r => negb (sql_eq (col t "run_id" r) v))
                     (rows_of t (pending conn)))
             (pending conn))
          (executed conn ++ [DeleteWhereRunId t])).
Proof.
  intros Hv; unfold execute; simpl; rewrite Hv; reflexivity.
Qed.

Lemma delete_run_data_spec (conn : Conn) (run_id : json) (v : sqlval) :
  bind_param run_id = Ok v ->
  _delete_run_data conn run_id
  = Ok (mkConn (without_run v (pending conn))
          (executed conn
             ++ [DeleteWhereRunId WebSearches; DeleteWhereRunId Failures;
                 DeleteWhereRunId Steps; DeleteWhereRunId Runs])).
Proof.
  intros Hv; unfold _delete_run_data.
  rewrite (execute_delete _ _ _ _ Hv); simpl.
  rewrite (execute_delete _ _ _ _ Hv); simpl.
  rewrite (execute_delete _ _ _ _ Hv); simpl.
  rewrite (execute_delete _ _ _ _ Hv); simpl.
  unfold without_run; destruct conn as [[rs ss fs ws] ex]; simpl.
  repeat rewrite <- app_assoc; reflexivity.
Qed.

(** C8.  For a run identifier that can be bound to a statement,
    [_delete_run_data] issues four deletes, on web_searches, failures, steps
    and runs in that order; afterwards each table holds exactly its former
    rows whose run_id differs from the identifier, in their former order, so
    every record of the run is gone and the records of every other run are
    untouched. *)
Theorem delete_run_data_cascade :
  forall (conn : Conn) (run_id : json) (v : sqlval),
    bind_param run_id = Ok v ->
    exists conn',
      _delete_run_data conn run_id = Ok conn'
      /\ executed conn'
         = executed conn
             ++ [DeleteWhereRunId WebSearches; DeleteWhereRunId Failures;
                 DeleteWhereRunId Steps; DeleteWhereRunId Runs]
      /\ (forall t : table,
            rows_of t (pending conn')
            = filter (fun r => negb (sql_eq (col t "run_id" r) v))
                     (rows_of t (pending conn)))
      /\ (forall (t : table) (r : row),
            In r (rows_of t (pending conn'))
            <-> In r (rows_of t (pending conn))
                /\ sql_eq (col t "run_id" r) v = false).
Proof.
  intros conn run_id v Hv.
  eexists; split; [apply delete_run_data_spec; exact Hv|].
  split; [reflexivity|].
  assert (Hrows : forall t : table,
             rows_of t (without_run v (pending conn))
             = filter (fun r => negb (sql_eq (col t "run_id" r) v))
                      (rows_of t (pending conn))).
  { intros t; destruct t; reflexivity. }
  split; [exact Hrows|].
  intros t r; simpl; rewrite Hrows, filter_In, negb_true_iff; tauto.
Qed.

Section IngestionProperties.

Variable rt : Runtime.

(** ** The outcome of one candidate file *)

(** What [try_report] can evaluate to. *)
Lemma try_report_Ok (force : bool) (db db' : Store) (report : file_content)
  (o : outcome) :
  try_report rt force db report = Ok (db', o) ->
  exists data run_id,
    json_load report = Ok data /\ py_get data "run_id" = Ok run_id
    /\ ((truthy run_id = false /\ db' = db /\ o = Errored)
        \/ (truthy run_id = true /\ force = false
            /\ run_exists db run_id = Ok true /\ db' = db /\ o = Skipped)
        \/ (truthy run_id = true
            /\ (force = false -> run_exists db run_id = Ok false)
            /\ ingest_transaction rt force db run_id report = Ok db'
            /\ o = Ingested)).
Proof.
  unfold try_report; intros H.
  bind_inv H. bind_inv H. exists x, x0. split; [assumption|]. split; [assumption|].
  destruct (truthy x0); simpl in H.
  - bind_inv H. destruct force; simpl in E1.
    + inversion E1; subst x1. bind_inv H. inversion H; subst.
      right; right. repeat split; try assumption. discriminate.
    + destruct x1.
      * inversion H; subst. right; left. repeat split; assumption.
      * bind_inv H. inversion H; subst.
        right; right. repeat split; try assumption. intros _; assumption.
  - inversion H; subst. left. repeat split.
Qed.

Lemma process_report_Raise (force : bool) (db : Store) (report : file_content)
  (e : pyexc) :
  try_report rt force db report = Raise e ->
  process_report rt force db report = (db, Errored).
Proof.
  intros H; unfold process_report; rewrite H; destruct e; reflexivity.
Qed.

Lemma process_report_Ok (force : bool) (db : Store) (report : file_content)
  (r : Store * outcome) :
  try_report rt force db report = Ok r ->
  process_report rt force db report = r.
Proof.
  intros H; unfold process_report; rewrite H; reflexivity.
Qed.

(** Only an ingested file changes the store. *)
Lemma process_report_store (force : bool) (db db' : Store)
  (report : file_content) (o : outcome) :
  process_report rt force db report = (db', o) ->
  o <> Ingested -> db' = db.
Proof.
  intros H Ho.
  destruct (try_report rt force db report) as [[db1 o1]|e] eqn:E.
  - rewrite (process_report_Ok _ _ _ _ E) in H; inversion H; subst.
    apply try_report_Ok in E.
    destruct E as (data & run_id & _ & _ & [C | [C | C]]).
    + tauto.
    + tauto.
    + destruct C as (_ & _ & _ & C); contradiction.
  - rewrite (process_report_Raise _ _ _ _ E) in H; inversion H; reflexivity.
Qed.

Lemma report_failure_errored (force : bool) (db : Store) (report : file_content) :
  report_failure rt force db report ->
  process_report rt force db report = (db, Errored).
Proof.
  intros [e He | data run_id Hd Hr Ht | data run_id e Hd Hr Ht Hx Hi].
  - apply (process_report_Raise _ _ _ e).
    unfold try_report; rewrite He; reflexivity.
  - apply process_report_Ok.
    unfold try_report; rewrite Hd; simpl; rewrite Hr; simpl; rewrite Ht; reflexivity.
  - apply (process_report_Raise _ _ _ e).
    unfold try_report; rewrite Hd; simpl; rewrite Hr; simpl; rewrite Ht; simpl.
    destruct force; simpl.
    + rewrite Hi; reflexivity.
    + rewrite (Hx eq_refl); simpl; rewrite Hi; reflexivity.
Qed.

(** ** The loop over the candidate files *)

Lemma ingest_loop_app (force : bool) (pre post : list file_content)
  (db : Store) (r : counts) :
  ingest_loop rt force (pre ++ post) db r
  = let '(db1, r1) := ingest_loop rt force pre db r in
    ingest_loop rt force post db1 r1.
Proof.
  revert db r; induction pre as [|f pre IH]; simpl; intros db r.
  - reflexivity.
  - destruct (process_report rt force db f) as [db' o]; apply IH.
Qed.

Lemma bump_comm (o1 o2 : outcome) (r : counts) :
  bump o1 (bump o2 r) = bump o2 (bump o1 r).
Proof.
  destruct o1, o2; reflexivity.
Qed.

Lemma ingest_loop_bump (force : bool) (files : list file_content)
  (db : Store) (r : counts) (o : outcome) :
  ingest_loop rt force files db (bump o r)
  = let '(db1, r1) := ingest_loop rt force files db r in (db1, bump o r1).
Proof.
  revert db r; induction files as [|f files IH]; simpl; intros db r.
  - reflexivity.
  - destruct (process_report rt force db f) as [db' o'].
    rewrite bump_comm; apply IH.
Qed.

Lemma ingest_loop_total (force : bool) (files : list file_content)
  (db : Store) (r : counts) :
  let r' := snd (ingest_loop rt force files db r) in
  ingested r' + skipped r' + errors r'
  = ingested r + skipped r + errors r + List.length files.
Proof.
  revert db r; induction files as [|f files IH]; simpl; intros db r.
  - lia.
  - destruct (process_report rt force db f) as [db' o].
    specialize (IH db' (bump o r)); simpl in IH; rewrite IH.
    destruct o; simpl; lia.
Qed.

(** C10.  When the reports directory exists, the three counts returned by
    [ingest_reports] add up to the number of files matching [*_full.json];
    when the directory is missing, or holds no matching file, the counts are
    all zero and the store is the one the call started from. *)
Theorem ingest_reports_counts_total :
  forall (force : bool) (reports_dir : option (list (string * file_content)))
         (db : Store),
    match reports_dir with
    | None => ingest_reports rt force reports_dir db = (db, mkCounts 0 0 0)
    | Some dir_entries =>
        (let r := snd (ingest_reports rt force reports_dir db) in
         ingested r + skipped r + errors r
         = List.length (glob_full_json dir_entries))
        /\ (glob_full_json dir_entries = [] ->
            ingest_reports rt force reports_dir db = (db, mkCounts 0 0 0))
    end.
Proof.
  intros force [dir_entries|] db; [|reflexivity].
  unfold ingest_reports; split.
  - destruct (glob_full_json dir_entries) as [|f files] eqn:E; [reflexivity|].
    pose proof (ingest_loop_total force (f :: files) db (mkCounts 0 0 0)) as H.
    simpl in H |- *; exact H.
  - intros E; rewrite E; reflexivity.
Qed.

(** C3.  A candidate file that fails -- it does not parse, it has no run
    identifier, or its transaction raises -- is counted in [errors] and has
    no other effect: the loop returns (it does not raise), and the store and
    the other two counts are those of the same invocation without the
    file. *)
Theorem ingest_loop_error_isolation :
  forall (force : bool) (pre post : list file_content) (report : file_content)
         (db : Store) (r : counts),
    report_failure rt force (fst (ingest_loop rt force pre db r)) report ->
    process_report rt force (fst (ingest_loop rt force pre db r)) report
    = (fst (ingest_loop rt force pre db r), Errored)
    /\ ingest_loop rt force (pre ++ report :: post) db r
       = (fst (ingest_loop rt force (pre ++ post) db r),
          bump Errored (snd (ingest_loop rt force (pre ++ post) db r))).
Proof.
  intros force pre post report db r Hfail.
  apply report_failure_errored in Hfail.
  split; [exact Hfail|].
  rewrite !ingest_loop_app.
  destruct (ingest_loop rt force pre db r) as [db1 r1]; simpl in *.
  rewrite Hfail, ingest_loop_bump.
  destruct (ingest_loop rt force post db1 r1); reflexivity.
Qed.

(** ** What a transaction writes *)

Lemma rows_of_set_rows_same (t : table) (rs : list row) (db : Store) :
  rows_of t (set_rows t rs db) = rs.
Proof.
  destruct t; reflexivity.
Qed.

Lemma rows_of_set_rows_other (t t' : table) (rs : list row) (db : Store) :
  t <> t' -> rows_of t' (set_rows t rs db) = rows_of t' db.
Proof.
  destruct t, t'; intros H; try reflexivity; congruence.
Qed.

Lemma execute_insert_Ok (t : table) (params : list json) (conn conn' : Conn) :
  execute (InsertInto t) params conn = Ok conn' ->
  exists vals,
    mapM bind_param params = Ok vals
    /\ violates t vals (rows_of t (pending conn)) = false
    /\ pending conn'
       = set_rows t (rows_of t (pending conn) ++ [vals]) (pending conn).
Proof.
  unfold execute; intros H. bind_inv H. exists x; split; [assumption|].
  destruct (violates t x (rows_of t (pending conn))); [discriminate|].
  inversion H; subst; simpl; auto.
Qed.

(** A loop of inserts into one table appends one row per element, in order,
    and leaves the other tables alone. *)
Lemma insert_loop_Ok (t : table) (params_of : json -> result (list json))
  (l : list json) (conn conn' : Conn) :
  foldM (fun c x => params <- params_of x ;; execute (InsertInto t) params c)
        l conn = Ok conn' ->
  exists new,
    Forall2 (fun x r => exists p, params_of x = Ok p /\ mapM bind_param p = Ok r)
            l new
    /\ pending conn' = set_rows t (rows_of t (pending conn) ++ new) (pending conn).
Proof.
  revert conn; induction l as [|x l IH]; simpl; intros conn H.
  - inversion H; subst. exists []; split; [constructor|].
    rewrite app_nil_r; destruct t, (pending conn'); reflexivity.
  - bind_inv H. bind_inv E.
    apply execute_insert_Ok in E as (vals & Hv & _ & Hp).
    apply IH in H as (new & Hnew & Hp').
    exists (vals :: new); split.
    + constructor; [exists x1; auto | assumption].
    + rewrite Hp', Hp, rows_of_set_rows_same, <- app_assoc; simpl.
      destruct t, (pending conn); reflexivity.
Qed.

Lemma mapM_bind_cons (j : json) (p : list json) (r : row) :
  mapM bind_param (j :: p) = Ok r ->
  exists v r', bind_param j = Ok v /\ mapM bind_param p = Ok r' /\ r = v :: r'.
Proof.
  simpl; intros H. bind_inv H. bind_inv H. inversion H; subst; eauto.
Qed.

Lemma steps_params_shape (run_id raw_data failures_details step_outcome : json)
  (p : list json) :
  steps_params rt run_id raw_data failures_details step_outcome = Ok p ->
  exists step_id rest, p = step_id :: run_id :: rest.
Proof.
  unfold steps_params; intros H.
  repeat (let x := fresh "x" in let E := fresh "E" in
          apply bind_Ok in H; destruct H as [x [E H]]).
  inversion H; subst; simpl; eauto.
Qed.

Lemma runs_params_shape (data run_id summary tools_config supabase_specific
                           token_usage : json) (p : list json) :
  runs_params rt data run_id summary tools_config supabase_specific token_usage
  = Ok p ->
  exists rest, p = run_id :: rest.
Proof.
  unfold runs_params; intros H.
  repeat (let x := fresh "x" in let E := fresh "E" in
          apply bind_Ok in H; destruct H as [x [E H]]).
  inversion H; subst; simpl; eauto.
Qed.

Lemma py_getitem_get (d : json) (k : string) (v : json) :
  py_getitem d k = Ok v -> py_get d k = Ok v.
Proof.
  unfold py_getitem, py_get, py_get_default; destruct d; try discriminate.
  destruct (assoc k items); [auto | discriminate].
Qed.

(** The effect of a successful [_ingest_single_report] on the pending
    state of its connection. *)
Lemma ingest_single_report_Ok (conn conn' : Conn) (report : file_content) :
  _ingest_single_report rt conn report = Ok conn' ->
  exists data run_id v run_row step_rows failure_rows search_rows,
    json_load report = Ok data
    /\ py_get data "run_id" = Ok run_id
    /\ bind_param run_id = Ok v
    /\ pending conn'
       = mkStore (runs (pending conn) ++ [run_row])
                 (steps (pending conn) ++ step_rows)
                 (failures (pending conn) ++ failure_rows)
                 (web_searches (pending conn) ++ search_rows)
    /\ List.length step_rows = List.length (step_outcome_entries data)
    /\ List.length failure_rows = List.length (failure_detail_entries data)
    /\ List.length search_rows = List.length (web_search_entries data)
    /\ all_of_run Runs v [run_row]
    /\ all_of_run Steps v step_rows
    /\ all_of_run Failures v failure_rows
    /\ all_of_run WebSearches v search_rows.
Proof.
  unfold _ingest_single_report; intros H.
  bind_inv H. rename x into data, E into Hload.
  bind_inv H. rename x into run_id, E into Hrid.
  bind_inv H. bind_inv H. bind_inv H. bind_inv H. bind_inv H.
  bind_inv H. rename x4 into rp, E4 into Hrp.
  bind_inv H. rename x4 into c1, E4 into Hc1.
  bind_inv H. rename x4 into step_outcomes, E4 into Hso.
  bind_inv H. rename x4 into failures_section, E4 into Hfs.
  bind_inv H. rename x4 into failures_details, E4 into Hfd.
  bind_inv H. rename x4 into outcomes, E4 into Hout.
  bind_inv H. rename x4 into c2, E4 into Hc2.
  bind_inv H. rename x4 into details, E4 into Hdet.
  bind_inv H. rename x4 into c3, E4 into Hc3.
  bind_inv H. rename x4 into searches_v, E4 into Hws.
  bind_inv H. rename x4 into searches, E4 into Hsea.
  apply runs_params_shape in Hrp as [rest ->].
  apply execute_insert_Ok in Hc1 as (run_row & Hrow & _ & Hp1).
  apply mapM_bind_cons in Hrow as (v & row_rest & Hv & _ & ->).
  apply insert_loop_Ok in Hc2 as (step_rows & Hsteps & Hp2).
  apply insert_loop_Ok in Hc3 as (failure_rows & Hfails & Hp3).
  apply insert_loop_Ok in H as (search_rows & Hsearch & Hp4).
  exists data, run_id, v, (v :: row_rest), step_rows, failure_rows, search_rows.
  split; [assumption|]. split; [apply py_getitem_get; assumption|].
  split; [assumption|]. split.
  - rewrite Hp4, Hp3, Hp2, Hp1. destruct (pending conn); reflexivity.
  - split; [|split; [|split; [|split; [|split; [|split]]]]].
    + unfold step_outcome_entries, entries. rewrite Hso; simpl; rewrite Hout.
      symmetry; eapply Forall2_length; eassumption.
    + unfold failure_detail_entries, entries.
      rewrite Hfs; simpl; rewrite Hfd; simpl; rewrite Hdet.
      symmetry; eapply Forall2_length; eassumption.
    + unfold web_search_entries, entries. rewrite Hws; simpl; rewrite Hsea.
      symmetry; eapply Forall2_length; eassumption.
    + constructor; [reflexivity | constructor].
    + clear - Hsteps Hv. induction Hsteps as [|x r l new (p & Hp & Hb) _ IH];
        constructor; [|assumption].
      apply steps_params_shape in Hp as (step_id & rest & ->).
      apply mapM_bind_cons in Hb as (v0 & r0 & _ & Hb & ->).
      apply mapM_bind_cons in Hb as (v1 & r1 & Hv1 & _ & ->).
      rewrite Hv in Hv1; inversion Hv1; reflexivity.
    + clear - Hfails Hv. induction Hfails as [|x r l new (p & Hp & Hb) _ IH];
        constructor; [|assumption].
      unfold failures_params in Hp. bind_inv Hp. inversion Hp; subst p.
      apply mapM_bind_cons in Hb as (v0 & r0 & Hv0 & _ & ->).
      rewrite Hv in Hv0; inversion Hv0; reflexivity.
    + clear - Hsearch Hv. induction Hsearch as [|x r l new (p & Hp & Hb) _ IH];
        constructor; [|assumption].
      unfold web_searches_params in Hp. bind_inv Hp. inversion Hp; subst p.
      apply mapM_bind_cons in Hb as (v0 & r0 & Hv0 & _ & ->).
      rewrite Hv in Hv0; inversion Hv0; reflexivity.
Qed.

Lemma ingest_transaction_Ok (force : bool) (db db' : Store) (data run_id : json)
  (report : file_content) :
  json_load report = Ok data ->
  py_get data "run_id" = Ok run_id ->
  ingest_transaction rt force db run_id report = Ok db' ->
  exists v conn conn',
    bind_param run_id = Ok v
    /\ pending conn = insertion_base force v db
    /\ _ingest_single_report rt conn report = Ok conn'
    /\ db' = pending conn'.
Proof.
  unfold ingest_transaction, commit; intros Hload Hrid H.
  bind_inv H. rename x into conn, E into Hconn.
  bind_inv H. rename x into conn', E into Hing. inversion H; subst db'.
  pose proof Hing as Hv.
  apply ingest_single_report_Ok in Hv
    as (data' & rid & v & _ & _ & _ & _ & Hload' & Hrid' & Hv & _).
  rewrite Hload in Hload'; inversion Hload'; subst data'.
  rewrite Hrid in Hrid'; inversion Hrid'; subst rid.
  exists v, conn, conn'. split; [assumption|].
  split; [|split; [assumption | reflexivity]].
  destruct force; simpl in Hconn.
  - bind_inv Hconn. unfold run_exists in E. rewrite Hv in E; simpl in E.
    inversion E; subst x. clear E.
    unfold insertion_base; simpl.
    destruct (existsb _ (runs db)).
    + rewrite (delete_run_data_spec _ _ _ Hv) in Hconn.
      inversion Hconn; reflexivity.
    + inversion Hconn; reflexivity.
  - inversion Hconn; reflexivity.
Qed.

(** The effect of one iteration on the store, by outcome. *)
Lemma process_report_effect :
  forall (force : bool) (db db' : Store) (report : file_content) (o : outcome),
    process_report rt force db report = (db', o) ->
    match o with
    | Ingested =>
        exists data run_id v run_row step_rows failure_rows search_rows,
          json_load report = Ok data
          /\ py_get data "run_id" = Ok run_id
          /\ bind_param run_id = Ok v
          /\ db' = mkStore
                     (runs (insertion_base force v db) ++ [run_row])
                     (steps (insertion_base force v db) ++ step_rows)
                     (failures (insertion_base force v db) ++ failure_rows)
                     (web_searches (insertion_base force v db) ++ search_rows)
          /\ List.length step_rows = List.length (step_outcome_entries data)
          /\ List.length failure_rows = List.length (failure_detail_entries data)
          /\ List.length search_rows = List.length (web_search_entries data)
          /\ all_of_run Runs v [run_row]
          /\ all_of_run Steps v step_rows
          /\ all_of_run Failures v failure_rows
          /\ all_of_run WebSearches v search_rows
    | Skipped | Errored => db' = db
    end.
Proof.
  intros force db db' report o H.
  destruct o; try (apply (process_report_store _ _ _ _ _ H); discriminate).
  destruct (try_report rt force db report) as [[db1 o1]|e] eqn:E.
  - rewrite (process_report_Ok _ _ _ _ E) in H; inversion H; subst.
    apply try_report_Ok in E
      as (data & run_id & Hload & Hrid & [C | [C | C]]).
    + destruct C as (_ & _ & C); discriminate.
    + destruct C as (_ & _ & _ & _ & C); discriminate.
    + destruct C as (_ & _ & Htx & _).
      apply (ingest_transaction_Ok _ _ _ _ _ _ Hload Hrid) in Htx
        as (v & conn & conn' & Hv & Hbase & Hing & ->).
      apply ingest_single_report_Ok in Hing
        as (data' & rid' & v' & run_row & step_rows & failure_rows & search_rows
            & Hload' & Hrid' & Hv' & Hp & Hrest).
      rewrite Hload in Hload'; inversion Hload'; subst data'.
      rewrite Hrid in Hrid'; inversion Hrid'; subst rid'.
      rewrite Hv in Hv'; inversion Hv'; subst v'.
      exists data, run_id, v, run_row, step_rows, failure_rows, search_rows.
      rewrite <- Hbase. repeat (split; [assumption|]). exact Hrest.
  - rewrite (process_report_Raise _ _ _ _ E) in H; inversion H.
Qed.

(** C2.  A report file that is ingested adds to the store, in one commit,
    exactly one run record, one step record per entry of step_outcomes, one
    failure record per entry of failures.details and one web-search record
    per entry of web_searches, all carrying its run identifier (under force
    after the records of the prior run were deleted); a file that is not
    ingested -- skipped, or failed at any point of its transaction -- leaves
    the store exactly as it was, the deletion under force included. *)
Theorem process_report_atomic :
  forall (force : bool) (db db' : Store) (report : file_content) (o : outcome),
    process_report rt force db report = (db', o) ->
    match o with
    | Ingested =>
        exists data run_id v run_row step_rows failure_rows search_rows,
          json_load report = Ok data
          /\ py_get data "run_id" = Ok run_id
          /\ bind_param run_id = Ok v
          /\ db' = mkStore
                     (runs (insertion_base force v db) ++ [run_row])
                     (steps (insertion_base force v db) ++ step_rows)
                     (failures (insertion_base force v db) ++ failure_rows)
                     (web_searches (insertion_base force v db) ++ search_rows)
          /\ List.length step_rows = List.length (step_outcome_entries data)
          /\ List.length failure_rows = List.length (failure_detail_entries data)
          /\ List.length search_rows = List.length (web_search_entries data)
          /\ all_of_run Runs v [run_row]
          /\ all_of_run Steps v step_rows
          /\ all_of_run Failures v failure_rows
          /\ all_of_run WebSearches v search_rows
    | Skipped | Errored => db' = db
    end.
Proof.
  exact process_report_effect.
Qed.

(** ** Non-forced ingestion only adds rows *)

Lemma store_incl_refl (db : Store) : store_incl db db.
Proof.
  intros t; apply incl_refl.
Qed.

Lemma store_incl_trans (a b c : Store) :
  store_incl a b -> store_incl b c -> store_incl a c.
Proof.
  intros H1 H2 t; eapply incl_tran; [apply H1 | apply H2].
Qed.

Lemma existsb_incl {A : Type} (p : A -> bool) (l l' : list A) :
  incl l l' -> existsb p l = true -> existsb p l' = true.
Proof.
  intros Hi H. apply existsb_exists in H as (x & Hx & Hp).
  apply existsb_exists; exists x; auto.
Qed.

Lemma run_exists_mono (db db' : Store) (run_id : json) :
  store_incl db db' ->
  run_exists db run_id = Ok true -> run_exists db' run_id = Ok true.
Proof.
  unfold run_exists; intros Hi H. bind_inv H. rewrite E; simpl.
  inversion H as [H']; rewrite H'. f_equal.
  eapply existsb_incl; [apply (Hi Runs) | exact H'].
Qed.

Lemma run_exists_anti (db db' : Store) (run_id : json) :
  store_incl db db' ->
  run_exists db' run_id = Ok false -> run_exists db run_id = Ok false.
Proof.
  unfold run_exists; intros Hi H. bind_inv H. rewrite E; simpl.
  inversion H as [H']; rewrite H'. f_equal.
  destruct (existsb _ (runs db)) eqn:Ex; [|reflexivity].
  apply (existsb_incl _ _ _ (Hi Runs)) in Ex. simpl in Ex; congruence.
Qed.

Lemma process_report_grows (db db' : Store) (report : file_content) (o : outcome) :
  process_report rt false db report = (db', o) -> store_incl db db'.
Proof.
  intros H. apply process_report_effect in H. destruct o.
  - destruct H as (data & run_id & v & run_row & step_rows & failure_rows
                   & search_rows & _ & _ & _ & -> & _).
    intros t; destruct t; simpl; apply incl_appl, incl_refl.
  - subst; apply store_incl_refl.
  - subst; apply store_incl_refl.
Qed.

Lemma ingest_loop_grows (files : list file_content) (db : Store) (r : counts) :
  store_incl db (fst (ingest_loop rt false files db r)).
Proof.
  revert db r; induction files as [|f files IH]; simpl; intros db r.
  - apply store_incl_refl.
  - destruct (process_report rt false db f) as [db' o] eqn:E.
    eapply store_incl_trans; [eapply process_report_grows; eassumption | apply IH].
Qed.

Lemma truthy_bound_not_null (run_id : json) (v : sqlval) :
  truthy run_id = true -> bind_param run_id = Ok v -> v <> SNull.
Proof.
  destruct run_id; simpl; intros Ht Hv; inversion Hv; discriminate.
Qed.

(** An ingested run is found by [run_exists] afterwards. *)
Lemma ingested_run_exists (db db' : Store) (report : file_content)
  (data run_id : json) :
  json_load report = Ok data ->
  py_get data "run_id" = Ok run_id ->
  truthy run_id = true ->
  process_report rt false db report = (db', Ingested) ->
  run_exists db' run_id = Ok true.
Proof.
  intros Hload Hrid Ht H. apply process_report_effect in H.
  destruct H as (data' & rid' & v & run_row & step_rows & failure_rows
                 & search_rows & Hload' & Hrid' & Hv & -> & _ & _ & _ & Hrun & _).
  rewrite Hload in Hload'; inversion Hload'; subst data'.
  rewrite Hrid in Hrid'; inversion Hrid'; subst rid'.
  unfold run_exists; rewrite Hv; simpl. f_equal.
  rewrite existsb_app; simpl.
  apply Forall_inv in Hrun; rewrite Hrun.
  rewrite (sql_eq_refl v (truthy_bound_not_null _ _ Ht Hv)).
  apply orb_true_iff; right; reflexivity.
Qed.

(** ** A transaction that succeeds on a store succeeds on every smaller one *)

Lemma execute_insert_sim (t : table) (params : list json) (a b b' : Conn) :
  conn_incl a b ->
  execute (InsertInto t) params b = Ok b' ->
  exists a', execute (InsertInto t) params a = Ok a' /\ conn_incl a' b'.
Proof.
  unfold execute; intros Hi H. bind_inv H. rewrite E; simpl.
  destruct (violates t x (rows_of t (pending b))) eqn:Vb; [discriminate|].
  assert (Va : violates t x (rows_of t (pending a)) = false).
  { unfold violates in *. destruct (unique_column t); [|reflexivity].
    destruct (existsb _ (rows_of t (pending a))) eqn:Ex; [|reflexivity].
    apply (existsb_incl _ _ _ (Hi t)) in Ex; congruence. }
  rewrite Va. eexists; split; [reflexivity|].
  inversion H; subst b'. unfold conn_incl; simpl. intros t'.
  pose proof (Hi Runs); pose proof (Hi Steps);
    pose proof (Hi Failures); pose proof (Hi WebSearches).
  destruct t, t'; simpl in *; auto using incl_app, incl_appl, incl_appr, incl_refl.
Qed.

Lemma foldM_sim {A : Type} (f : Conn -> A -> result Conn) :
  (forall a b x b', conn_incl a b -> f b x = Ok b' ->
                    exists a', f a x = Ok a' /\ conn_incl a' b') ->
  forall (l : list A) (a b b' : Conn),
    conn_incl a b -> foldM f l b = Ok b' ->
    exists a', foldM f l a = Ok a' /\ conn_incl a' b'.
Proof.
  intros Hf l; induction l as [|x l IH]; simpl; intros a b b' Hi H.
  - inversion H; subst; eauto.
  - bind_inv H. destruct (Hf _ _ _ _ Hi E) as (a1 & Ha1 & Hi1).
    rewrite Ha1; simpl. eapply IH; eassumption.
Qed.

Lemma insert_step_sim (t : table) (params_of : json -> result (list json))
  (a b : Conn) (x : json) (b' : Conn) :
  conn_incl a b ->
  (params <- params_of x ;; execute (InsertInto t) params b) = Ok b' ->
  exists a', (params <- params_of x ;; execute (InsertInto t) params a) = Ok a'
             /\ conn_incl a' b'.
Proof.
  intros Hi H. bind_inv H. rewrite E; simpl.
  eapply execute_insert_sim; eassumption.
Qed.

Lemma ingest_single_report_sim (a b b' : Conn) (report : file_content) :
  conn_incl a b ->
  _ingest_single_report rt b report = Ok b' ->
  exists a', _ingest_single_report rt a report = Ok a' /\ conn_incl a' b'.
Proof.
  unfold _ingest_single_report, ingest_step, ingest_failure, ingest_web_search;
    intros Hi H.
  do 8 pure_step H.
  bind_step H c1 Hc1.
  destruct (execute_insert_sim _ _ _ _ _ Hi Hc1) as (a1 & -> & Hi1); simpl.
  do 4 pure_step H.
  bind_step H c2 Hc2.
  destruct (foldM_sim _ (insert_step_sim Steps _) _ _ _ _ Hi1 Hc2)
    as (a2 & -> & Hi2); simpl.
  pure_step H.
  bind_step H c3 Hc3.
  destruct (foldM_sim _ (insert_step_sim Failures _) _ _ _ _ Hi2 Hc3)
    as (a3 & -> & Hi3); simpl.
  do 2 pure_step H.
  exact (foldM_sim _ (insert_step_sim WebSearches _) _ _ _ _ Hi3 H).
Qed.

Lemma ingest_transaction_sim (db dbF dbF' : Store) (run_id : json)
  (report : file_content) :
  store_incl db dbF ->
  ingest_transaction rt false dbF run_id report = Ok dbF' ->
  exists db', ingest_transaction rt false db run_id report = Ok db'.
Proof.
  unfold ingest_transaction; simpl; intros Hi H. bind_inv H.
  assert (Hc : conn_incl (get_db db) (get_db dbF)) by exact Hi.
  destruct (ingest_single_report_sim _ _ _ _ Hc E) as (a' & -> & _).
  simpl; eauto.
Qed.

(** ** Idempotence of non-forced ingestion *)

(** A file whose run identifier is in the store is skipped. *)
Lemma existing_run_skipped (db : Store) (report : file_content)
  (data run_id : json) :
  json_load report = Ok data ->
  py_get data "run_id" = Ok run_id ->
  truthy run_id = true ->
  run_exists db run_id = Ok true ->
  process_report rt false db report = (db, Skipped).
Proof.
  intros Hload Hrid Ht Hex. apply process_report_Ok.
  unfold try_report. rewrite Hload; simpl. rewrite Hrid; simpl.
  rewrite Ht; simpl. rewrite Hex; reflexivity.
Qed.

(** The file that was processed on [db] is processed again on a store
    holding at least what the first pass left. *)
Lemma second_pass (db db' dbF : Store) (report : file_content) (o : outcome) :
  process_report rt false db report = (db', o) ->
  store_incl db' dbF ->
  exists o2,
    process_report rt false dbF report = (dbF, o2) /\ second_outcome o o2.
Proof.
  intros H Hi.
  pose proof (process_report_grows _ _ _ _ H) as Hg.
  destruct (process_report rt false dbF report) as [dbF' o2] eqn:HF.
  assert (Hno : o2 <> Ingested).
  { intros ->.
    destruct (try_report rt false dbF report) as [[d1 o1]|e] eqn:EF;
      [|rewrite (process_report_Raise _ _ _ _ EF) in HF; discriminate].
    rewrite (process_report_Ok _ _ _ _ EF) in HF; inversion HF; subst d1 o1.
    apply try_report_Ok in EF
      as (data & run_id & Hload & Hrid & [C | [C | C]]);
      try (destruct C as (_ & _ & C); discriminate);
      try (destruct C as (_ & _ & _ & _ & C); discriminate).
    destruct C as (Ht & Hex & Htx & _). specialize (Hex eq_refl).
    assert (HiF : store_incl db dbF) by (eapply store_incl_trans; eassumption).
    pose proof (run_exists_anti _ _ _ HiF Hex) as Hex0.
    destruct (ingest_transaction_sim _ _ _ _ _ HiF Htx) as (db0 & Htx0).
    assert (H0 : process_report rt false db report = (db0, Ingested)).
    { apply process_report_Ok. unfold try_report.
      rewrite Hload; simpl. rewrite Hrid; simpl. rewrite Ht; simpl.
      rewrite Hex0; simpl. rewrite Htx0; reflexivity. }
    rewrite H0 in H; inversion H; subst db0 o.
    pose proof (ingested_run_exists _ _ _ _ _ Hload Hrid Ht H0) as Hreg.
    apply (run_exists_mono _ _ _ Hi) in Hreg. congruence. }
  pose proof (process_report_store _ _ _ _ _ HF Hno) as ->.
  exists o2; split; [reflexivity|]. split; [assumption|].
  intros Ho.
  assert (Hreg : exists data run_id,
             json_load report = Ok data /\ py_get data "run_id" = Ok run_id
             /\ truthy run_id = true /\ run_exists db' run_id = Ok true).
  { destruct (try_report rt false db report) as [[d1 o1]|e] eqn:E;
      [|rewrite (process_report_Raise _ _ _ _ E) in H; inversion H; congruence].
    pose proof H as H'.
    rewrite (process_report_Ok _ _ _ _ E) in H'; inversion H'; subst d1 o1.
    apply try_report_Ok in E
      as (data & run_id & Hload & Hrid & [C | [C | C]]).
    - destruct C as (_ & _ & C); congruence.
    - destruct C as (Ht & _ & Hex & -> & _).
      exists data, run_id; auto.
    - destruct C as (Ht & _ & _ & ->).
      exists data, run_id. repeat split; try assumption.
      eapply ingested_run_exists; eassumption. }
  destruct Hreg as (data & run_id & Hload & Hrid & Ht & Hex).
  apply (run_exists_mono _ _ _ Hi) in Hex.
  rewrite (existing_run_skipped _ _ _ _ Hload Hrid Ht Hex) in HF.
  inversion HF; reflexivity.
Qed.

Lemma ingest_loop_fst (force : bool) (files : list file_content) (db : Store)
  (r r' : counts) :
  fst (ingest_loop rt force files db r) = fst (ingest_loop rt force files db r').
Proof.
  revert db r r'; induction files as [|f files IH]; simpl; intros db r r'.
  - reflexivity.
  - destruct (process_report rt force db f) as [db' o]; apply IH.
Qed.

(** The counts of an invocation are the tally of its outcomes. *)
Lemma ingest_loop_outcomes (force : bool) (files : list file_content)
  (db : Store) (r : counts) :
  snd (ingest_loop rt force files db r)
  = fold_left (fun acc o => bump o acc) (loop_outcomes rt force files db) r.
Proof.
  revert db r; induction files as [|f files IH]; simpl; intros db r.
  - reflexivity.
  - destruct (process_report rt force db f) as [db' o]; simpl; apply IH.
Qed.

Lemma second_loop (files : list file_content) (db dbF : Store) (r : counts) :
  store_incl (fst (ingest_loop rt false files db r)) dbF ->
  (forall rF, fst (ingest_loop rt false files dbF rF) = dbF)
  /\ Forall2 second_outcome (loop_outcomes rt false files db)
                            (loop_outcomes rt false files dbF).
Proof.
  revert db r; induction files as [|f files IH]; simpl; intros db r Hi.
  - split; [reflexivity | constructor].
  - destruct (process_report rt false db f) as [db' o] eqn:E.
    assert (Hi' : store_incl db' dbF).
    { eapply store_incl_trans; [apply (ingest_loop_grows files db' (bump o r)) | exact Hi]. }
    destruct (second_pass _ _ _ _ _ E Hi') as (o2 & -> & Ho).
    destruct (IH _ _ Hi) as (Hst & Hall).
    split; [intros rF; apply Hst | constructor; assumption].
Qed.

Lemma second_outcomes_tally (l1 l2 : list outcome) (r1 r2 : counts) :
  Forall2 second_outcome l1 l2 ->
  ingested r2 = 0 ->
  ingested r1 + skipped r1 <= skipped r2 ->
  let t1 := fold_left (fun acc o => bump o acc) l1 r1 in
  let t2 := fold_left (fun acc o => bump o acc) l2 r2 in
  ingested t2 = 0 /\ ingested t1 + skipped t1 <= skipped t2.
Proof.
  intros H; revert r1 r2; induction H as [|o1 o2 l1 l2 [Hn Hs] _ IH];
    simpl; intros r1 r2 Hz Hle.
  - auto.
  - apply IH.
    + destruct o2; simpl; congruence.
    + destruct o1; try (rewrite Hs by discriminate); simpl; try lia.
      destruct o2; simpl; try lia; congruence.
Qed.

(** C1.  Without force, a report file whose run identifier (a value that
    passes the test [if not run_id]) is already in the store is counted as
    skipped and leaves the store as it is.  Hence a second
    non-forced invocation over the same files, on the store the first one
    left, changes nothing and ingests nothing: every file the first
    invocation ingested or skipped is skipped by the second, and no file is
    ingested. *)
Theorem ingest_reports_idempotent :
  forall (reports_dir : option (list (string * file_content))) (db : Store),
    (forall (report : file_content) (data run_id : json),
        json_load report = Ok data ->
        py_get data "run_id" = Ok run_id ->
        truthy run_id = true ->
        run_exists db run_id = Ok true ->
        process_report rt false db report = (db, Skipped))
    /\ (let first := ingest_reports rt false reports_dir db in
        let second := ingest_reports rt false reports_dir (fst first) in
        fst second = fst first
        /\ ingested (snd second) = 0
        /\ ingested (snd first) + skipped (snd first) <= skipped (snd second)
        /\ forall files,
            reports_dir = Some files ->
            Forall2 second_outcome
              (loop_outcomes rt false (glob_full_json files) db)
              (loop_outcomes rt false (glob_full_json files) (fst first))).
Proof.
  intros reports_dir db; split; [apply existing_run_skipped|].
  unfold ingest_reports.
  destruct reports_dir as [dir_entries|]; simpl;
    [|repeat split; try lia; intros; discriminate].
  destruct (glob_full_json dir_entries) as [|f files] eqn:G; simpl;
    [repeat split; try lia; intros ? Heq; inversion Heq; subst;
     rewrite G; constructor|].
  set (zero := mkCounts 0 0 0).
  change (let '(db', o) := process_report rt false db f in
          ingest_loop rt false files db' (bump o zero))
    with (ingest_loop rt false (f :: files) db zero).
  set (db1 := fst (ingest_loop rt false (f :: files) db zero)).
  change (let '(db', o) := process_report rt false db1 f in
          ingest_loop rt false files db' (bump o zero))
    with (ingest_loop rt false (f :: files) db1 zero).
  destruct (second_loop (f :: files) db db1 zero (store_incl_refl _)) as (Hst & Hall).
  split; [apply Hst|].
  rewrite !ingest_loop_outcomes.
  pose proof (second_outcomes_tally _ _ zero zero Hall eq_refl (Nat.le_refl _)) as Ht.
  simpl in Ht. destruct Ht as (Hz & Hle).
  split; [exact Hz|]. split; [exact Hle|].
  intros files' Heq; inversion Heq; subst files'. rewrite G. exact Hall.
Qed.

End IngestionProperties.

(** ** Comprehensions over well-typed records *)

Lemma py_get_field (k : string) (j : json) :
  is_object j = true -> py_get j k = Ok (field k j).
Proof.
  destruct j; simpl; try discriminate; reflexivity.
Qed.

Lemma matching_comp (records : list json) (n : json) :
  Forall (fun s => is_object s = true) records ->
  list_comp (fun s => Ok s)
            (fun s => v <- py_get s "step" ;; Ok (py_eq v n)) records
  = Ok (matching records n).
Proof.
  induction 1 as [|s l Hs _ IH]; simpl; [reflexivity|].
  rewrite (py_get_field _ _ Hs); simpl.
  destruct (py_eq (field "step" s) n); simpl; rewrite IH; reflexivity.
Qed.

Lemma matching_objects (records : list json) (n : json) :
  Forall (fun s => is_object s = true) records ->
  Forall (fun s => is_object s = true) (matching records n).
Proof.
  intros H; apply Forall_forall; intros s Hs.
  apply filter_In in Hs as [Hs _]. rewrite Forall_forall in H; auto.
Qed.

Lemma truthy_fields_strings (k : string) (records : list json) :
  Forall (fun s => is_object s = true) records ->
  Forall (fun s => string_or_absent k s = true) records ->
  truthy_fields k records = Ok (map JStr (present_strings k records)).
Proof.
  unfold truthy_fields.
  induction 1 as [|s l Hs _ IH]; intros Ht; simpl; [reflexivity|].
  inversion Ht as [|? ? Hk Hl]; subst. specialize (IH Hl).
  rewrite (py_get_field _ _ Hs); cbn [bind].
  unfold string_or_absent in Hk.
  destruct (truthy (field k s)) eqn:T.
  - destruct (field k s) as [| | |v| |]; simpl in T;
      try (simpl in Hk; rewrite T in Hk; discriminate); try discriminate.
    apply negb_true_iff in T. rewrite T. cbn [bind app map]. rewrite IH; reflexivity.
  - destruct (field k s) as [| | |v| |]; try exact IH.
    simpl in T. apply negb_false_iff in T. rewrite T. exact IH.
Qed.

Lemma mapM_as_str (l : list string) : mapM as_str (map JStr l) = Ok l.
Proof.
  induction l as [|s l IH]; simpl; [reflexivity|]. rewrite IH; reflexivity.
Qed.

Lemma py_join_strings (sep : string) (l : list string) :
  py_join sep (map JStr l) = Ok (join_strings sep l).
Proof.
  unfold py_join; rewrite mapM_as_str; reflexivity.
Qed.

(** ** Distinct values in order of first appearance *)

Lemma first_seen_In (l : list string) (x : string) :
  In x (first_seen l) <-> In x l.
Proof.
  induction l as [|y l IH]; simpl; [tauto|].
  rewrite filter_In, IH, negb_true_iff, String.eqb_neq.
  destruct (string_dec y x); [tauto|].
  split; [tauto|]. intros [H|H]; [tauto|]. right; split; congruence.
Qed.

Lemma first_seen_NoDup (l : list string) : NoDup (first_seen l).
Proof.
  induction l as [|y l IH]; simpl; constructor.
  - rewrite filter_In, String.eqb_refl; simpl; intros [_ H]; discriminate.
  - apply NoDup_filter; assumption.
Qed.

Lemma filter_filter {A : Type} (p q : A -> bool) (l : list A) :
  filter p (filter q l) = filter (fun x => q x && p x) l.
Proof.
  induction l as [|x l IH]; simpl; [reflexivity|].
  destruct (q x); simpl; [destruct (p x)|]; rewrite IH; reflexivity.
Qed.

(** Appending a value adds it at the end if it is new and changes nothing
    otherwise: the order is that of first appearance. *)
Lemma first_seen_snoc (l : list string) (x : string) :
  first_seen (l ++ [x])
  = if existsb (String.eqb x) l then first_seen l else first_seen l ++ [x].
Proof.
  induction l as [|y l IH]; simpl; [reflexivity|].
  rewrite IH. destruct (x =? y)%string eqn:E; simpl.
  - apply String.eqb_eq in E; subst y.
    destruct (existsb (String.eqb x) l); [reflexivity|].
    rewrite filter_app; simpl. rewrite String.eqb_refl; simpl.
    rewrite app_nil_r; reflexivity.
  - destruct (existsb (String.eqb x) l); [reflexivity|].
    rewrite filter_app; simpl. rewrite E; reflexivity.
Qed.

Lemma first_seen_constant (l : list string) (v : string) :
  l <> [] -> (forall p, In p l -> p = v) -> first_seen l = [v].
Proof.
  induction l as [|x l IH]; intros Hne Hall; [congruence|].
  simpl. rewrite (Hall x (or_introl eq_refl)). f_equal.
  destruct l as [|y l']; [reflexivity|].
  rewrite IH; [|discriminate|intros p Hp; apply Hall; right; exact Hp].
  simpl; rewrite String.eqb_refl; reflexivity.
Qed.

Lemma first_seen_several (l : list string) (p q : string) :
  In p l -> In q l -> p <> q ->
  exists a b rest, first_seen l = a :: b :: rest.
Proof.
  intros Hp Hq Hne.
  apply first_seen_In in Hp, Hq.
  destruct (first_seen l) as [|a [|b rest]]; simpl in *; eauto.
  - contradiction.
  - destruct Hp as [<-|[]], Hq as [<-|[]]; congruence.
Qed.

Lemma fromkeys_from_strings (seen l : list string) :
  fromkeys_from (map HStr seen) (map JStr l)
  = Ok (map JStr (filter (fun s => negb (seen_before seen s)) (first_seen l))).
Proof.
  revert seen; induction l as [|x l IH]; intros seen; simpl; [reflexivity|].
  assert (Hmem : existsb (hkey_eqb (HStr x)) (map HStr seen) = seen_before seen x).
  { unfold seen_before; induction seen as [|y seen IHs]; simpl; [reflexivity|].
    rewrite IHs; reflexivity. }
  rewrite Hmem. destruct (seen_before seen x) eqn:Ex; simpl.
  - rewrite IH, filter_filter. do 2 f_equal.
    apply filter_ext_in; intros s _.
    destruct (s =? x)%string eqn:E; simpl; [|reflexivity].
    apply String.eqb_eq in E; subst s; rewrite Ex; reflexivity.
  - change (HStr x :: map HStr seen) with (map HStr (x :: seen)).
    rewrite IH; simpl. rewrite filter_filter. do 3 f_equal.
    apply filter_ext_in; intros s _. unfold seen_before; simpl.
    destruct (s =? x)%string; reflexivity.
Qed.

Lemma dict_fromkeys_strings (l : list string) :
  dict_fromkeys (map JStr l) = Ok (map JStr (first_seen l)).
Proof.
  unfold dict_fromkeys.
  change (@nil hkey) with (map HStr []).
  rewrite (fromkeys_from_strings [] l); simpl.
  do 2 f_equal. induction (first_seen l) as [|x r IH]; simpl; [|rewrite IH]; reflexivity.
Qed.

(** [_extract_phase_from_raw_steps] on sub-steps whose phase is a string,
    null or absent. *)
Lemma extract_phase_strings (raw_steps : list json) :
  Forall (fun s => is_object s = true) raw_steps ->
  Forall (fun s => string_or_absent "phase" s = true) raw_steps ->
  _extract_phase_from_raw_steps raw_steps
  = Ok (match first_seen (present_strings "phase" raw_steps) with
        | [] => JNull
        | [v] => JStr v
        | l => JStr (join_strings "," l)
        end).
Proof.
  intros Ho Ht. unfold _extract_phase_from_raw_steps.
  destruct raw_steps as [|s0 l0]; [reflexivity|].
  rewrite (truthy_fields_strings _ _ Ho Ht).
  generalize (present_strings "phase" (s0 :: l0)); intros ps.
  destruct ps as [|p ps]; [reflexivity|].
  cbn [bind map].
  change (JStr p :: map JStr ps) with (map JStr (p :: ps)).
  rewrite dict_fromkeys_strings. cbn [bind].
  destruct (first_seen (p :: ps)) as [|a [|b rest]] eqn:F.
  - simpl in F; discriminate.
  - reflexivity.
  - cbn [map].
    change (JStr a :: JStr b :: map JStr rest) with (map JStr (a :: b :: rest)).
    rewrite py_join_strings; reflexivity.
Qed.

(** C4 (amended).  For sub-steps typed as the report schema has them, the
    phase derived for a step number is decided by the non-empty phase values
    of the sub-steps whose step field equals it: None when there is none (in
    particular when no sub-step matches); that value when they are all
    equal; otherwise the distinct values, in order of first appearance,
    joined by commas. *)
Theorem derived_phase_nonempty_values :
  forall (raw_data : json) (sub_steps : list json) (step_number : json),
    py_get_default raw_data "steps" (JArr []) = Ok (JArr sub_steps) ->
    Forall (fun s => is_object s = true) sub_steps ->
    Forall (fun s => string_or_absent "phase" s = true)
           (matching sub_steps step_number) ->
    let ps := present_strings "phase" (matching sub_steps step_number) in
    exists r,
      derived_phase raw_data step_number = Ok r
      /\ (ps = [] -> r = JNull)
      /\ (forall v, ps <> [] -> (forall p, In p ps -> p = v) -> r = JStr v)
      /\ ((exists p q, In p ps /\ In q ps /\ p <> q) ->
          r = JStr (join_strings "," (first_seen ps)))
      /\ NoDup (first_seen ps)
      /\ (forall x, In x (first_seen ps) <-> In x ps).
Proof.
  intros raw_data sub_steps n Hsteps Ho Ht ps.
  unfold derived_phase, get_raw_steps_for_step_number.
  rewrite Hsteps; cbn [bind py_iter].
  rewrite (matching_comp _ _ Ho); cbn [bind].
  rewrite (extract_phase_strings _ (matching_objects _ _ Ho) Ht).
  fold ps. eexists; split; [reflexivity|].
  split; [intros ->; reflexivity|].
  split; [intros v Hne Hall; rewrite (first_seen_constant _ _ Hne Hall); reflexivity|].
  split; [|split; [apply first_seen_NoDup | intros x; apply first_seen_In]].
  intros (p & q & Hp & Hq & Hne).
  destruct (first_seen_several _ _ _ Hp Hq Hne) as (a & b & rest & ->).
  reflexivity.
Qed.

(** ** The errors summary *)

Lemma error_messages_strings (records : list json) :
  Forall (fun s => is_object s = true) records ->
  Forall (fun s => string_or_absent "error" s = true) records ->
  list_comp (fun f => py_get_default f "error" (JStr ""))
            (fun f => v <- py_get f "error" ;; Ok (truthy v)) records
  = Ok (map JStr (present_strings "error" records)).
Proof.
  induction 1 as [|s l Hs _ IH]; intros Ht; simpl; [reflexivity|].
  inversion Ht as [|? ? Hk Hl]; subst. specialize (IH Hl).
  rewrite (py_get_field _ _ Hs); cbn [bind].
  unfold string_or_absent in Hk.
  destruct (truthy (field "error" s)) eqn:T.
  - destruct (field "error" s) as [| | |msg| |] eqn:F; simpl in T;
      try (simpl in Hk; rewrite T in Hk; discriminate); try discriminate.
    apply negb_true_iff in T. rewrite T. cbn [app map].
    assert (Hv : py_get_default s "error" (JStr "") = Ok (JStr msg)).
    { destruct s as [| | | | |m]; try discriminate.
      unfold field in F; unfold py_get_default.
      destruct (assoc "error" m); [rewrite F; reflexivity | discriminate]. }
    rewrite Hv; cbn [bind]. rewrite IH; reflexivity.
  - destruct (field "error" s) as [| | |msg| |]; try exact IH.
    simpl in T. apply negb_false_iff in T. rewrite T. exact IH.
Qed.

Lemma str_take_length (n : nat) (s : string) :
  String.length (str_take n s) = Nat.min n (String.length s).
Proof.
  revert s; induction n as [|n IH]; intros s; simpl; [reflexivity|].
  destruct s; simpl; [reflexivity | rewrite IH; reflexivity].
Qed.

Lemma str_take_prefix (n : nat) (s : string) :
  exists rest, s = (str_take n s ++ rest)%string.
Proof.
  revert s; induction n as [|n IH]; intros s; simpl; [exists s; reflexivity|].
  destruct s as [|c s]; simpl; [exists ""; reflexivity|].
  destruct (IH s) as [rest Hr]. exists rest; rewrite <- Hr; reflexivity.
Qed.

Lemma mapM_five (f : string -> result json) (a b c d e : string) (l : list json) :
  mapM f [a; b; c; d; e] = Ok l ->
  exists va vb vc vd ve, l = [va; vb; vc; vd; ve].
Proof.
  intros H. apply mapM_length in H.
  destruct l as [|va [|vb [|vc [|vd [|ve [|vf l]]]]]]; try discriminate.
  eauto 10.
Qed.

Lemma mapM_nth {A B : Type} (f : A -> result B) (l : list A) (l' : list B)
  (i : nat) (dA : A) (dB : B) :
  mapM f l = Ok l' -> i < List.length l -> f (nth i l dA) = Ok (nth i l' dB).
Proof.
  revert l' i; induction l as [|x l IH]; simpl; intros l' i H Hi; [lia|].
  bind_inv H. bind_inv H. inversion H; subst l'.
  destruct i as [|i]; simpl; [assumption|]. apply IH; [assumption | lia].
Qed.

(** The errors summary is the thirteenth parameter of the insert, and the
    value of the errors_summary column of the row it writes. *)
Lemma steps_params_errors_summary (rt : Runtime)
  (run_id raw_data failures_details step_outcome step_number summary : json)
  (params : list json) :
  py_get step_outcome "step" = Ok step_number ->
  derived_errors_summary failures_details step_number = Ok summary ->
  steps_params rt run_id raw_data failures_details step_outcome = Ok params ->
  nth (position "errors_summary" (columns Steps)) params JNull = summary
  /\ forall r : row,
       mapM bind_param params = Ok r ->
       bind_param summary = Ok (col Steps "errors_summary" r).
Proof.
  unfold steps_params, derived_errors_summary; intros Hn Hs H.
  bind_step H n' Hn'. rewrite Hn in Hn'; inversion Hn'; subst n'.
  bind_step H raw_steps Hraw. bind_step H phase Hphase. bind_step H tool Htool.
  bind_step H sf Hsf. rewrite Hsf in Hs; cbn [bind] in Hs.
  bind_step H cats Hcats. bind_step H es Hes.
  rewrite Hes in Hs; inversion Hs; subst es.
  bind_step H ra Hra. bind_step H ofs Hofs. bind_step H ufs Hufs.
  apply mapM_five in Hofs as (va & vb & vc & vd & ve & ->).
  inversion H; subst params. split; [reflexivity|].
  intros r Hr. unfold col.
  apply (mapM_nth _ _ _ (position "errors_summary" (columns Steps)) JNull SNull) in Hr;
    [exact Hr | simpl; lia].
Qed.

(** C5.  For failure records typed as the report schema has them, the
    errors summary derived for a step number -- the value bound to the
    errors_summary column of the row written for the step -- is unset when
    no failure record of that step carries a non-empty error message;
    otherwise it is the non-empty messages of those records, in order,
    joined by " | " and then cut to the first 1000 characters of the joined
    text. *)
Theorem errors_summary_joined_then_truncated :
  forall (details : list json) (step_number : json),
    Forall (fun f => is_object f = true) details ->
    Forall (fun f => string_or_absent "error" f = true)
           (matching details step_number) ->
    let msgs := present_strings "error" (matching details step_number) in
    let joined := join_strings " | " msgs in
    exists summary,
      derived_errors_summary (JArr details) step_number = Ok summary
      /\ (msgs = [] -> summary = JNull)
      /\ (msgs <> [] ->
          summary = JStr (str_take 1000 joined)
          /\ String.length (str_take 1000 joined)
             = Nat.min 1000 (String.length joined)
          /\ exists rest, joined = (str_take 1000 joined ++ rest)%string)
      /\ (forall (rt : Runtime) (run_id raw_data step_outcome : json)
                 (params : list json) (r : row),
             py_get step_outcome "step" = Ok step_number ->
             steps_params rt run_id raw_data (JArr details) step_outcome
             = Ok params ->
             mapM bind_param params = Ok r ->
             nth (position "errors_summary" (columns Steps)) params JNull
             = summary
             /\ bind_param summary = Ok (col Steps "errors_summary" r)).
Proof.
  intros details n Ho Ht msgs joined.
  assert (Hd : derived_errors_summary (JArr details) n
               = Ok (match msgs with
                     | [] => JNull
                     | _ => JStr (str_take 1000 joined)
                     end)).
  { unfold derived_errors_summary, _get_failures_for_step.
    cbn [bind py_iter]. rewrite (matching_comp _ _ Ho); cbn [bind].
    unfold build_errors_summary.
    rewrite (error_messages_strings _ (matching_objects _ _ Ho) Ht).
    fold msgs. cbn [bind]. subst joined.
    destruct msgs as [|m ms]; [reflexivity|].
    change (map JStr (m :: ms)) with (JStr m :: map JStr ms) at 1. cbv iota.
    rewrite py_join_strings; reflexivity. }
  eexists; split; [exact Hd|].
  split; [intros ->; reflexivity|].
  split.
  - intros Hne. destruct msgs as [|m ms]; [congruence|].
    split; [reflexivity|]. split; [apply str_take_length | apply str_take_prefix].
  - intros rt run_id raw_data step_outcome params r Hn Hp Hr.
    destruct (steps_params_errors_summary _ _ _ _ _ _ _ _ Hn Hd Hp) as (H1 & H2).
    split; [exact H1 | exact (H2 r Hr)].
Qed.

(** ** The most common tool *)

Lemma hkey_eqb_eq (a b : hkey) : hkey_eqb a b = true <-> a = b.
Proof.
  destruct a, b; simpl; split; intros H; try discriminate; try reflexivity.
  - apply Z.eqb_eq in H; congruence.
  - inversion H; apply Z.eqb_refl.
  - apply String.eqb_eq in H; congruence.
  - inversion H; apply String.eqb_refl.
Qed.

Lemma foldM_snoc {A S : Type} (f : S -> A -> result S) (l : list A) (y : A) (s : S) :
  foldM f (l ++ [y]) s = (s' <- foldM f l s ;; f s' y).
Proof.
  revert s; induction l as [|x l IH]; intros s; simpl.
  - destruct (f s y); reflexivity.
  - destruct (f s x); simpl; [apply IH | reflexivity].
Qed.

Lemma counter_incr_cases (k : hkey) (y : json) (c : counter) :
  (exists c1 x n c2,
      c = c1 ++ (k, x, n) :: c2
      /\ counter_incr k y c = c1 ++ (k, x, S n) :: c2)
  \/ (~ In k (counter_keys c) /\ counter_incr k y c = c ++ [(k, y, 1)]).
Proof.
  induction c as [|[[k' x'] n'] c IH]; simpl.
  - right; split; [tauto | reflexivity].
  - destruct (hkey_eqb k' k) eqn:E.
    + apply hkey_eqb_eq in E; subst k'.
      left; exists [], x', n', c; split; reflexivity.
    + assert (Hne : k' <> k).
      { intros ->. rewrite (proj2 (hkey_eqb_eq k k) eq_refl) in E; discriminate. }
      destruct IH as [(c1 & x & n & c2 & -> & ->) | (Hni & ->)].
      * left; exists ((k', x', n') :: c1), x, n, c2; split; reflexivity.
      * right; split; [intros [H|H]; [congruence | contradiction] | reflexivity].
Qed.

Lemma counter_keys_app (c1 c2 : counter) :
  counter_keys (c1 ++ c2) = counter_keys c1 ++ counter_keys c2.
Proof.
  apply map_app.
Qed.

Lemma occurrences_snoc (l : list string) (y s : string) :
  occurrences s (l ++ [y])
  = occurrences s l + (if string_dec y s then 1 else 0).
Proof.
  unfold occurrences. rewrite count_occ_app; simpl.
  destruct (string_dec y s); reflexivity.
Qed.

Lemma counter_of_snoc_found (l : list string) (y : string) (c1 c2 : counter)
  (x : json) (n : nat) :
  counter_of l (c1 ++ (HStr y, x, n) :: c2) ->
  counter_of (l ++ [y]) (c1 ++ (HStr y, x, S n) :: c2).
Proof.
  intros (Ha & Hc & Hb & Hd).
  assert (Hkeys : counter_keys (c1 ++ (HStr y, x, S n) :: c2)
                  = counter_keys (c1 ++ (HStr y, x, n) :: c2)).
  { rewrite !counter_keys_app; reflexivity. }
  assert (Hy : x = JStr y /\ n = occurrences y l /\ In y l).
  { apply Forall_elt in Ha. destruct Ha as (s & He & Hs).
    inversion He; subst. auto. }
  destruct Hy as (-> & -> & Hyl).
  rewrite counter_keys_app in Hc; simpl in Hc.
  split; [|split; [|split]].
  - apply Forall_app in Ha as (Ha1 & Ha2). inversion Ha2 as [|? ? _ Ha2']; subst.
    assert (Hother : forall e : hkey * json * nat,
               In (fst (fst e)) (counter_keys c1 ++ counter_keys c2) ->
               (exists s, e = (HStr s, JStr s, occurrences s l) /\ In s l) ->
               exists s, e = (HStr s, JStr s, occurrences s (l ++ [y]))
                         /\ In s (l ++ [y])).
    { intros e Hin (s & -> & Hs). simpl in Hin. exists s. split.
      - rewrite occurrences_snoc. destruct (string_dec y s) as [->|]; [|f_equal; lia].
        exfalso. apply NoDup_remove_2 in Hc. contradiction.
      - apply in_or_app; left; exact Hs. }
    apply Forall_app; split; [|constructor].
    + apply Forall_forall; intros e He. apply Hother.
      * apply in_or_app; left.
        exact (in_map (fun e' : hkey * json * nat => fst (fst e')) _ _ He).
      * rewrite Forall_forall in Ha1; auto.
    + exists y; split.
      * rewrite occurrences_snoc. destruct (string_dec y y); [|congruence].
        f_equal; lia.
      * apply in_or_app; right; left; reflexivity.
    + apply Forall_forall; intros e He. apply Hother.
      * apply in_or_app; right.
        exact (in_map (fun e' : hkey * json * nat => fst (fst e')) _ _ He).
      * rewrite Forall_forall in Ha2'; auto.
  - rewrite Hkeys, counter_keys_app; exact Hc.
  - intros s Hs. rewrite Hkeys.
    apply in_app_or in Hs as [Hs | [<- | []]]; [apply Hb; exact Hs|].
    apply Hb; exact Hyl.
  - intros ks1 s ks2 Hsplit. rewrite Hkeys in Hsplit.
    destruct (Hd _ _ _ Hsplit) as (l1 & l2 & -> & Hl1).
    exists l1, (l2 ++ [y]); split; [|exact Hl1].
    rewrite <- app_assoc; reflexivity.
Qed.

Lemma counter_of_snoc_new (l : list string) (y : string) (c : counter) :
  counter_of l c ->
  ~ In (HStr y) (counter_keys c) ->
  counter_of (l ++ [y]) (c ++ [(HStr y, JStr y, 1)]).
Proof.
  intros (Ha & Hc & Hb & Hd) Hnew.
  assert (Hyl : ~ In y l) by (intros H; apply Hnew, Hb, H).
  split; [|split; [|split]].
  - apply Forall_app; split.
    + apply Forall_forall; intros e He. rewrite Forall_forall in Ha.
      destruct (Ha e He) as (s & -> & Hs). exists s; split.
      * rewrite occurrences_snoc. destruct (string_dec y s) as [->|]; [tauto|].
        f_equal; lia.
      * apply in_or_app; left; exact Hs.
    + constructor; [|constructor]. exists y; split.
      * rewrite occurrences_snoc. unfold occurrences.
        rewrite (proj1 (count_occ_not_In string_dec l y) Hyl).
        destruct (string_dec y y); [reflexivity | congruence].
      * apply in_or_app; right; left; reflexivity.
  - rewrite counter_keys_app; simpl.
    apply NoDup_app; [exact Hc | constructor; [tauto | constructor] |].
    intros k Hk [<- | []]; contradiction.
  - intros s Hs. rewrite counter_keys_app.
    apply in_app_or in Hs as [Hs | [<- | []]]; apply in_or_app;
      [left; apply Hb; exact Hs | right; left; reflexivity].
  - intros ks1 s ks2 Hsplit. rewrite counter_keys_app in Hsplit; simpl in Hsplit.
    destruct (exists_last (l := HStr s :: ks2)) as (front & z & Hfz); [discriminate|].
    rewrite Hfz, app_assoc in Hsplit.
    apply app_inj_tail in Hsplit as (Hkc & Hz).
    destruct ks2 as [|k2 ks2'].
    + destruct front as [|? [|? ?]]; try discriminate.
      simpl in Hfz. injection Hfz as Hzs. rewrite <- Hzs in Hz.
      injection Hz as Hys. subst s.
      rewrite app_nil_r in Hkc; subst ks1.
      exists l, []; split; [reflexivity | exact Hb].
    + destruct front as [|f0 front']; [destruct ks2'; discriminate|].
      simpl in Hfz; inversion Hfz; subst f0.
      destruct (Hd ks1 s front' Hkc) as (l1 & l2 & -> & Hl1).
      exists l1, (l2 ++ [y]); split; [|exact Hl1].
      rewrite <- app_assoc; reflexivity.
Qed.

Lemma Counter_strings (strs : list string) :
  exists c, Counter (map JStr strs) = Ok c /\ counter_of strs c.
Proof.
  induction strs as [|y l (c & Hc & Hinv)] using rev_ind.
  - exists []; split; [reflexivity|].
    split; [constructor|]. split; [constructor|].
    split; [intros s []|]. intros ks1 s ks2 H; destruct ks1; discriminate.
  - unfold Counter in *. rewrite map_app; simpl map.
    rewrite foldM_snoc, Hc; cbn [bind py_hash].
    eexists; split; [reflexivity|].
    destruct (counter_incr_cases (HStr y) (JStr y) c)
      as [(c1 & x & n & c2 & -> & ->) | (Hnew & ->)].
    + apply counter_of_snoc_found; exact Hinv.
    + apply counter_of_snoc_new; assumption.
Qed.

Lemma first_max_split (c : counter) (x t : json) (n m : nat) :
  first_max (x, n) c = (t, m) ->
  (t = x /\ m = n /\ Forall (fun e => snd e <= n) c)
  \/ (exists c1 k c2,
         c = c1 ++ (k, t, m) :: c2
         /\ n < m
         /\ Forall (fun e => snd e < m) c1
         /\ Forall (fun e => snd e <= m) c2).
Proof.
  revert x n; induction c as [|[[k y] q] r IH]; simpl; intros x n H.
  - inversion H; subst; left; auto.
  - destruct (n <? q) eqn:E.
    + apply Nat.ltb_lt in E.
      destruct (IH _ _ H) as [(-> & -> & Hall) | (c1 & k' & c2 & -> & Hlt & H1 & H2)].
      * right; exists [], k, r.
        split; [reflexivity|]. split; [exact E|]. split; [constructor | exact Hall].
      * right; exists ((k, y, q) :: c1), k', c2.
        split; [reflexivity|]. split; [lia|]. split; [|exact H2].
        constructor; [simpl; lia | exact H1].
    + apply Nat.ltb_ge in E.
      destruct (IH _ _ H) as [(-> & -> & Hall) | (c1 & k' & c2 & -> & Hlt & H1 & H2)].
      * left. split; [reflexivity|]. split; [reflexivity|].
        constructor; [simpl; lia | exact Hall].
      * right; exists ((k, y, q) :: c1), k', c2.
        split; [reflexivity|]. split; [lia|]. split; [|exact H2].
        constructor; [simpl; lia | exact H1].
Qed.

Lemma most_common_1_split (c : counter) (e : hkey * json * nat) :
  exists t m c1 k c2,
    most_common_1 (e :: c) = [(t, m)]
    /\ e :: c = c1 ++ (k, t, m) :: c2
    /\ Forall (fun e' => snd e' < m) c1
    /\ Forall (fun e' => snd e' <= m) c2.
Proof.
  destruct e as [[k0 x0] n0]; simpl.
  destruct (first_max (x0, n0) c) as [t m] eqn:F.
  exists t, m.
  destruct (first_max_split _ _ _ _ _ F)
    as [(-> & -> & Hall) | (c1 & k & c2 & -> & Hlt & H1 & H2)].
  - exists [], k0, c.
    split; [reflexivity|]. split; [reflexivity|]. split; [constructor | exact Hall].
  - exists ((k0, x0, n0) :: c1), k, c2.
    split; [reflexivity|]. split; [reflexivity|]. split; [|exact H2].
    constructor; [simpl; lia | exact H1].
Qed.

(** [_extract_tool_from_raw_steps] on sub-steps whose tool is a string, null
    or absent: the first tool, in order of appearance, that no other tool
    outnumbers. *)
Lemma extract_tool_strings (raw_steps : list json) :
  Forall (fun s => is_object s = true) raw_steps ->
  Forall (fun s => string_or_absent "tool" s = true) raw_steps ->
  let tools := present_strings "tool" raw_steps in
  exists r,
    _extract_tool_from_raw_steps raw_steps = Ok r
    /\ (tools = [] -> r = JNull)
    /\ (tools <> [] ->
        exists t pre post,
          r = JStr t
          /\ tools = pre ++ t :: post
          /\ (forall u, In u pre -> occurrences u tools < occurrences t tools)
          /\ (forall u, In u post -> occurrences u tools <= occurrences t tools)).
Proof.
  intros Ho Ht tools.
  pose proof (truthy_fields_strings _ _ Ho Ht) as Htf. fold tools in Htf.
  clearbody tools. unfold _extract_tool_from_raw_steps.
  destruct raw_steps as [|s0 l0].
  { exists JNull; split; [reflexivity|]. split; [reflexivity|].
    destruct tools; [congruence | discriminate]. }
  rewrite Htf. cbn [bind].
  destruct tools as [|t0 ts].
  { exists JNull; split; [reflexivity|]. split; [reflexivity | congruence]. }
  cbn [map]. change (JStr t0 :: map JStr ts) with (map JStr (t0 :: ts)).
  remember (t0 :: ts) as tools eqn:T.
  destruct (Counter_strings tools) as (c & -> & (Ha & Hc & Hb & Hd)).
  cbn [bind].
  destruct c as [|e c].
  { exfalso. apply (Hb t0). rewrite T; left; reflexivity. }
  destruct (most_common_1_split c e) as (tj & m & c1 & k & c2 & -> & Hsplit & H1 & H2).
  exists tj; split; [reflexivity|].
  split; [intros H; rewrite H in T; discriminate|]. intros _.
  rewrite Hsplit in Ha, Hd.
  pose proof (Forall_elt _ _ _ Ha) as (t & He & Hin). inversion He; subst k tj m.
  rewrite counter_keys_app in Hd; simpl in Hd.
  destruct (Hd _ _ _ eq_refl) as (pre & post & Htools & Hpre).
  assert (Hcount : forall (u : string) (part : counter),
             incl part (c1 ++ (HStr t, JStr t, occurrences t tools) :: c2) ->
             In (HStr u) (counter_keys part) ->
             exists e', In e' part /\ snd e' = occurrences u tools).
  { intros u part Hpart Hu. apply in_map_iff in Hu as (e' & Hk & He').
    exists e'; split; [exact He'|].
    rewrite Forall_forall in Ha. destruct (Ha e' (Hpart _ He')) as (s & -> & _).
    simpl in Hk; inversion Hk; reflexivity. }
  exists t, pre, post. split; [reflexivity|]. split; [exact Htools|]. split.
  - intros u Hu.
    destruct (Hcount u c1) as (e' & He' & <-);
      [apply incl_appl, incl_refl | apply Hpre; exact Hu|].
    rewrite Forall_forall in H1; apply H1; exact He'.
  - intros u Hu.
    assert (Hut : In u tools).
    { rewrite Htools. apply in_or_app; right; right; exact Hu. }
    destruct (Hcount u _ (incl_refl _)) as (e' & He' & <-).
    { rewrite <- Hsplit. apply Hb; exact Hut. }
    apply in_app_or in He' as [He' | [<- | He']].
    + rewrite Forall_forall in H1. apply Nat.lt_le_incl, H1; exact He'.
    + simpl; lia.
    + rewrite Forall_forall in H2; apply H2; exact He'.
Qed.

(** C7.  For sub-steps typed as the report schema has them, the tool derived
    for a step number is None when no sub-step whose step field equals it
    specifies a non-empty tool (in particular when no sub-step matches);
    otherwise it is the most frequent non-empty tool value of those
    sub-steps, and among the values of the highest frequency the one
    encountered first. *)
Theorem derived_tool_most_frequent :
  forall (raw_data : json) (sub_steps : list json) (step_number : json),
    py_get_default raw_data "steps" (JArr []) = Ok (JArr sub_steps) ->
    Forall (fun s => is_object s = true) sub_steps ->
    Forall (fun s => string_or_absent "tool" s = true)
           (matching sub_steps step_number) ->
    let tools := present_strings "tool" (matching sub_steps step_number) in
    exists r,
      derived_tool raw_data step_number = Ok r
      /\ (tools = [] -> r = JNull)
      /\ (tools <> [] ->
          exists t pre post,
            r = JStr t
            /\ tools = pre ++ t :: post
            /\ (forall u, In u pre -> occurrences u tools < occurrences t tools)
            /\ (forall u, In u post -> occurrences u tools <= occurrences t tools)).
Proof.
  intros raw_data sub_steps n Hsteps Ho Ht tools.
  unfold derived_tool, get_raw_steps_for_step_number.
  rewrite Hsteps; cbn [bind py_iter].
  rewrite (matching_comp _ _ Ho); cbn [bind].
  exact (extract_tool_strings _ (matching_objects _ _ Ho) Ht).
Qed.

(** ** The derivations on small inputs *)

Example derived_phase_build_build :
  _extract_phase_from_raw_steps
    [sub_step (JStr "build") JNull; sub_step (JStr "build") JNull]
  = Ok (JStr "build").
Proof. reflexivity. Qed.

Example derived_phase_build_test :
  _extract_phase_from_raw_steps
    [sub_step (JStr "build") JNull; sub_step (JStr "test") JNull;
     sub_step (JStr "build") JNull]
  = Ok (JStr "build,test").
Proof. reflexivity. Qed.

Example derived_phase_no_sub_steps :
  _extract_phase_from_raw_steps [] = Ok JNull.
Proof. reflexivity. Qed.

Example derived_tool_tie_first_encountered :
  _extract_tool_from_raw_steps
    [sub_step JNull (JStr "cursor"); sub_step JNull (JStr "claude");
     sub_step JNull (JStr "claude"); sub_step JNull (JStr "cursor")]
  = Ok (JStr "cursor").
Proof. reflexivity. Qed.

Example derived_tool_most_common :
  _extract_tool_from_raw_steps
    [sub_step JNull (JStr "cursor"); sub_step JNull (JStr "claude");
     sub_step JNull (JStr ""); sub_step JNull (JStr "claude")]
  = Ok (JStr "claude").
Proof. reflexivity. Qed.

Example errors_summary_cut_after_joining :
  let long := String.concat "" (repeat "0123456789" 70) in
  match build_errors_summary
          [JObj [("error", JStr long)]; JObj [("error", JStr long)]] with
  | Ok (JStr s) =>
      String.length s = 1000
      /\ s = str_take 1000 (long ++ " | " ++ long)%string
  | _ => False
  end.
Proof. vm_compute. split; reflexivity. Qed.

(** ** The aggregations on sample stores *)

(** C6.  A step retried once that met two timeouts before it passed is one
    step of the category, yet it is counted twice as self-corrected: the
    reported rate is 2, not the fraction of steps whose verdict is PROCEED
    or PASS, and it is above 1. *)
Theorem self_correction_rate_counts_failures :
  get_patterns_self_correction twice_failed_store
  = [mkEntry (SText "timeout") 1 2 0 (Qmake 2000 1000)]
  /\ List.length (steps twice_failed_store) = 1
  /\ (1 < Qmake 2000 1000)%Q.
Proof.
  split; [vm_compute; reflexivity|]. split; [vm_compute; reflexivity|].
  reflexivity.
Qed.

(** The example of the spec: four retried steps with one timeout each, three
    with verdict PASS and one with verdict FAIL, give the rate 0.75. *)
Lemma self_correction_rate_one_failure_each :
  get_patterns_self_correction four_runs_store
  = [mkEntry (SText "timeout") 4 3 1 (Qmake 750 1000)].
Proof.
  vm_compute; reflexivity.
Qed.

(** C9.  With one step whose classification is null and one whose
    classification is the empty string, [get_stats] reports two steps and a
    pending bucket of one: the count of one group overwrites that of the
    other, whichever comes first, and the five buckets sum to one. *)
Theorem stats_pending_bucket_overwritten :
  get_stats unlabelled_store
  = Ok (mkStats 2 [("architectural", 0); ("implementation", 0);
                   ("clean_pass", 0); ("ambiguous", 0); ("pending", 1)])
  /\ get_stats unlabelled_store_reversed = get_stats unlabelled_store
  /\ bucket_sum [("architectural", 0); ("implementation", 0);
                 ("clean_pass", 0); ("ambiguous", 0); ("pending", 1)] = 1
  /\ List.length (steps unlabelled_store) = 2.
Proof.
  split; [vm_compute; reflexivity|]. split; [vm_compute; reflexivity|].
  split; reflexivity.
Qed.

(** C4, as stated, fails on empty phase values: two sub-steps of step 1 that
    share the phase value "" derive no phase at all, and sub-steps with the
    phases "build" and "" derive "build", not the two distinct values joined
    by a comma. *)
Lemma derived_phase_ignores_empty_values :
  (matching empty_phase_steps (JInt 1) = empty_phase_steps
   /\ Forall (fun s => field "phase" s = JStr "") empty_phase_steps
   /\ derived_phase (JObj [("steps", JArr empty_phase_steps)]) (JInt 1) = Ok JNull
   /\ derived_phase (JObj [("steps", JArr empty_phase_steps)]) (JInt 1)
      <> Ok (JStr ""))
  /\ (matching build_and_empty_phase_steps (JInt 1) = build_and_empty_phase_steps
      /\ map (field "phase") build_and_empty_phase_steps = [JStr "build"; JStr ""]
      /\ derived_phase (JObj [("steps", JArr build_and_empty_phase_steps)]) (JInt 1)
         = Ok (JStr "build")
      /\ derived_phase (JObj [("steps", JArr build_and_empty_phase_steps)]) (JInt 1)
         <> Ok (JStr (join_strings "," ["build"; ""]))).
Proof.
  split.
  - split; [reflexivity|]. split; [repeat constructor|].
    split; [reflexivity | discriminate].
  - split; [reflexivity|]. split; [reflexivity|].
    split; [reflexivity | discriminate].
Qed.

(** ** The classification distribution on well-labelled steps *)

Lemma sqlval_eqb_eq (a b : sqlval) : sqlval_eqb a b = true <-> a = b.
Proof.
  destruct a, b; simpl; split; intros H; try discriminate; try reflexivity.
  - apply Z.eqb_eq in H; congruence.
  - inversion H; apply Z.eqb_refl.
  - apply String.eqb_eq in H; congruence.
  - inversion H; apply String.eqb_refl.
Qed.

Lemma distinct_In (l : list sqlval) (k : sqlval) : In k (distinct l) <-> In k l.
Proof.
  induction l as [|v l IH]; simpl; [tauto|].
  rewrite filter_In, IH, negb_true_iff.
  destruct (sqlval_eqb v k) eqn:E.
  - apply sqlval_eqb_eq in E. tauto.
  - assert (v <> k) by (intros ->; rewrite (proj2 (sqlval_eqb_eq k k) eq_refl) in E;
                        discriminate).
    tauto.
Qed.

Lemma distinct_NoDup (l : list sqlval) : NoDup (distinct l).
Proof.
  induction l as [|v l IH]; simpl; constructor.
  - rewrite filter_In, (proj2 (sqlval_eqb_eq v v) eq_refl); simpl.
    intros [_ H]; discriminate.
  - apply NoDup_filter; assumption.
Qed.

Lemma dict_at_set_same (k : string) (v : nat) (d : count_dict) :
  dict_mem k d = true -> dict_at k (dict_set k v d) = v.
Proof.
  unfold dict_mem, dict_at.
  induction d as [|[k' v'] d IH]; simpl; [discriminate|].
  destruct (k' =? k)%string eqn:E; simpl; rewrite E; [reflexivity | exact IH].
Qed.

Lemma dict_at_set_other (k k' : string) (v : nat) (d : count_dict) :
  k <> k' -> dict_at k' (dict_set k v d) = dict_at k' d.
Proof.
  unfold dict_at; intros Hne.
  induction d as [|[k0 v0] d IH]; simpl.
  - destruct (k =? k')%string eqn:E; [apply String.eqb_eq in E; congruence|].
    reflexivity.
  - destruct (k0 =? k)%string eqn:E; simpl.
    + apply String.eqb_eq in E; subst k0.
      destruct (k =? k')%string eqn:E'; [apply String.eqb_eq in E'; congruence|].
      reflexivity.
    + destruct (k0 =? k')%string; [reflexivity | exact IH].
Qed.

Lemma dict_mem_set (k k' : string) (v : nat) (d : count_dict) :
  dict_mem k' d = true -> dict_mem k' (dict_set k v d) = true.
Proof.
  unfold dict_mem.
  induction d as [|[k0 v0] d IH]; simpl; [discriminate|].
  destruct (k0 =? k)%string eqn:E; simpl.
  - apply String.eqb_eq in E; subst k0.
    destruct (k =? k')%string; [reflexivity | auto].
  - destruct (k0 =? k')%string; [reflexivity | exact IH].
Qed.

Lemma tally_row_bucket (n : string) (m : nat) (d : count_dict) :
  In n bucket_names -> dict_mem n d = true ->
  tally_row d (SText n, m) = Ok (dict_set n m d).
Proof.
  intros Hn Hd. unfold tally_row.
  assert (Hl : row_label (SText n) = Ok n).
  { simpl in Hn.
    destruct Hn as [<- | [<- | [<- | [<- | [<- | []]]]]]; reflexivity. }
  cbn [fst snd]. rewrite Hl; cbn [bind]. rewrite Hd; reflexivity.
Qed.

Lemma tally_buckets (cnt : sqlval -> nat) (ks : list sqlval) (d0 : count_dict) :
  NoDup ks ->
  (forall k, In k ks -> exists n, In n bucket_names /\ k = SText n) ->
  (forall n, In n bucket_names -> dict_mem n d0 = true) ->
  exists d,
    foldM tally_row (map (fun k => (k, cnt k)) ks) d0 = Ok d
    /\ forall n, dict_at n d
                 = if existsb (sqlval_eqb (SText n)) ks then cnt (SText n)
                   else dict_at n d0.
Proof.
  revert d0; induction ks as [|k ks IH]; intros d0 Hnd Hks Hmem.
  - exists d0; split; [reflexivity | intros n; reflexivity].
  - destruct (Hks k (or_introl eq_refl)) as (n0 & Hn0 & ->).
    inversion Hnd as [|? ? Hnotin Hnd']; subst.
    simpl map; simpl foldM.
    rewrite (tally_row_bucket _ _ _ Hn0 (Hmem _ Hn0)); cbn [bind].
    destruct (IH (dict_set n0 (cnt (SText n0)) d0) Hnd') as (d & Hd & Hat).
    + intros k Hk; apply Hks; right; exact Hk.
    + intros n Hn; apply dict_mem_set, Hmem, Hn.
    + exists d; split; [exact Hd|]. intros n. rewrite Hat. simpl existsb.
      destruct (n =? n0)%string eqn:E.
      * apply String.eqb_eq in E; subst n0. simpl.
        destruct (existsb (sqlval_eqb (SText n)) ks) eqn:Ex.
        -- reflexivity.
        -- apply dict_at_set_same, Hmem, Hn0.
      * simpl. destruct (existsb (sqlval_eqb (SText n)) ks); [reflexivity|].
        apply dict_at_set_other. intros ->. rewrite String.eqb_refl in E; discriminate.
Qed.

Lemma labelled_total (l : list row) :
  Forall (fun s => exists n, In n bucket_names /\ label_of s = SText n) l ->
  List.length (filter (fun s => sqlval_eqb (label_of s) (SText "architectural")) l)
  + List.length (filter (fun s => sqlval_eqb (label_of s) (SText "implementation")) l)
  + List.length (filter (fun s => sqlval_eqb (label_of s) (SText "clean_pass")) l)
  + List.length (filter (fun s => sqlval_eqb (label_of s) (SText "ambiguous")) l)
  + List.length (filter (fun s => sqlval_eqb (label_of s) (SText "pending")) l)
  = List.length l.
Proof.
  induction 1 as [|s l (n & Hn & Hs) _ IH]; [reflexivity|].
  cbn [filter]. rewrite Hs. simpl in Hn.
  destruct Hn as [<- | [<- | [<- | [<- | [<- | []]]]]]; simpl; lia.
Qed.

(** When every step carries no label or one of the five bucket names,
    [get_stats] counts each step in exactly one bucket -- a step without
    label in pending -- and the buckets add up to the number of steps. *)
Lemma stats_buckets_of_well_labelled_steps (db : Store) :
  Forall (fun s => exists n, In n bucket_names /\ label_of s = SText n) (steps db) ->
  exists st,
    get_stats db = Ok st
    /\ total_steps st = List.length (steps db)
    /\ (forall n, In n bucket_names ->
                  dict_at n (classification_counts st) = labelled db (SText n))
    /\ bucket_sum (classification_counts st) = List.length (steps db).
Proof.
  intros Hall.
  assert (Hrows : classification_rows db
                  = map (fun k => (k, labelled db k))
                        (distinct (map label_of (steps db)))).
  { unfold classification_rows, group_by. rewrite map_map. reflexivity. }
  unfold get_stats. rewrite Hrows.
  destruct (tally_buckets (labelled db) (distinct (map label_of (steps db)))
              initial_classification_counts) as (d & Hd & Hat).
  - apply distinct_NoDup.
  - intros k Hk. apply distinct_In, in_map_iff in Hk as (s & <- & Hs).
    rewrite Forall_forall in Hall. exact (Hall s Hs).
  - intros n Hn. simpl in Hn.
    destruct Hn as [<- | [<- | [<- | [<- | [<- | []]]]]]; reflexivity.
  - rewrite Hd; cbn [bind].
    assert (Hcount : forall n, In n bucket_names -> dict_at n d = labelled db (SText n)).
    { intros n Hn. rewrite Hat.
      destruct (existsb (sqlval_eqb (SText n)) (distinct (map label_of (steps db))))
        eqn:Ex; [reflexivity|].
      assert (H0 : dict_at n initial_classification_counts = 0).
      { simpl in Hn. destruct Hn as [<- | [<- | [<- | [<- | [<- | []]]]]]; reflexivity. }
      rewrite H0. unfold labelled.
      destruct (filter (fun s => sqlval_eqb (label_of s) (SText n)) (steps db))
        as [|s l] eqn:F; [reflexivity|].
      exfalso.
      assert (Hs : In s (filter (fun s => sqlval_eqb (label_of s) (SText n)) (steps db)))
        by (rewrite F; left; reflexivity).
      apply filter_In in Hs as (Hs & Hl). apply sqlval_eqb_eq in Hl.
      assert (Hex : existsb (sqlval_eqb (SText n)) (distinct (map label_of (steps db)))
                    = true).
      { apply existsb_exists. exists (SText n); split.
        - apply distinct_In. rewrite <- Hl. apply in_map; exact Hs.
        - apply sqlval_eqb_eq; reflexivity. }
      congruence. }
    eexists; split; [reflexivity|]. cbn [total_steps classification_counts].
    split; [reflexivity|]. split; [exact Hcount|].
    unfold bucket_sum.
    rewrite !Hcount by (simpl; tauto).
    unfold labelled. apply labelled_total; exact Hall.
Qed.

(** ** The properties at work on the sample data *)

Lemma delete_run_data_cascade_sample :
  bind_param (JStr "r1") = Ok (SText "r1")
  /\ exists conn',
      _delete_run_data (get_db two_runs_store) (JStr "r1") = Ok conn'
      /\ executed conn'
         = executed (get_db two_runs_store)
             ++ [DeleteWhereRunId WebSearches; DeleteWhereRunId Failures;
                 DeleteWhereRunId Steps; DeleteWhereRunId Runs]
      /\ (forall t : table,
            rows_of t (pending conn')
            = filter (fun r => negb (sql_eq (col t "run_id" r) (SText "r1")))
                     (rows_of t (pending (get_db two_runs_store))))
      /\ (forall (t : table) (r : row),
            In r (rows_of t (pending conn'))
            <-> In r (rows_of t (pending (get_db two_runs_store)))
                /\ sql_eq (col t "run_id" r) (SText "r1") = false).
Proof.
  split; [reflexivity|].
  apply (delete_run_data_cascade (get_db two_runs_store) (JStr "r1") (SText "r1")).
  reflexivity.
Defined.

Lemma ingest_reports_counts_total_sample :
  (let r := snd (ingest_reports sample_runtime false (Some sample_files) empty_store) in
   ingested r + skipped r + errors r = List.length (glob_full_json sample_files))
  /\ (glob_full_json sample_files = [] ->
      ingest_reports sample_runtime false (Some sample_files) empty_store
      = (empty_store, mkCounts 0 0 0)).
Proof.
  exact (ingest_reports_counts_total sample_runtime false (Some sample_files)
           empty_store).
Defined.

Lemma ingest_loop_error_isolation_sample :
  report_failure sample_runtime false
    (fst (ingest_loop sample_runtime false
            [Document (sample_report)] empty_store (mkCounts 0 0 0)))
    NotJson
  /\ ingest_loop sample_runtime false
       ([Document (sample_report)]
          ++ NotJson :: [Document (second_report)])
       empty_store (mkCounts 0 0 0)
     = (fst (ingest_loop sample_runtime false
               ([Document (sample_report)]
                  ++ [Document (second_report)])
               empty_store (mkCounts 0 0 0)),
        bump Errored
          (snd (ingest_loop sample_runtime false
                  ([Document (sample_report)]
                     ++ [Document (second_report)])
                  empty_store (mkCounts 0 0 0)))).
Proof.
  assert (H : report_failure sample_runtime false
                (fst (ingest_loop sample_runtime false
                        [Document (sample_report)] empty_store
                        (mkCounts 0 0 0)))
                NotJson).
  { apply (parse_failure _ _ _ _ JSONDecodeError); reflexivity. }
  split; [exact H|].
  exact (proj2 (ingest_loop_error_isolation sample_runtime false
                  [Document (sample_report)]
                  [Document (second_report)] NotJson
                  empty_store (mkCounts 0 0 0) H)).
Defined.

Lemma process_report_atomic_sample :
  process_report sample_runtime false empty_store
    (Document (sample_report))
  = (twice_failed_store, Ingested)
  /\ exists data run_id v run_row step_rows failure_rows search_rows,
      json_load (Document (sample_report)) = Ok data
      /\ py_get data "run_id" = Ok run_id
      /\ bind_param run_id = Ok v
      /\ twice_failed_store
         = mkStore
             (runs (insertion_base false v empty_store) ++ [run_row])
             (steps (insertion_base false v empty_store) ++ step_rows)
             (failures (insertion_base false v empty_store) ++ failure_rows)
             (web_searches (insertion_base false v empty_store) ++ search_rows)
      /\ List.length step_rows = List.length (step_outcome_entries data)
      /\ List.length failure_rows = List.length (failure_detail_entries data)
      /\ List.length search_rows = List.length (web_search_entries data)
      /\ all_of_run Runs v [run_row]
      /\ all_of_run Steps v step_rows
      /\ all_of_run Failures v failure_rows
      /\ all_of_run WebSearches v search_rows.
Proof.
  assert (H : process_report sample_runtime false empty_store
                (Document (sample_report))
              = (twice_failed_store, Ingested)) by (vm_compute; reflexivity).
  split; [exact H|].
  exact (process_report_atomic sample_runtime false empty_store twice_failed_store
           (Document (sample_report)) Ingested H).
Defined.

Lemma ingest_reports_idempotent_sample :
  json_load (Document (sample_report)) = Ok (sample_report)
  /\ py_get (sample_report) "run_id" = Ok (JStr "r1")
  /\ truthy (JStr "r1") = true
  /\ run_exists two_runs_store (JStr "r1") = Ok true
  /\ process_report sample_runtime false two_runs_store
       (Document (sample_report))
     = (two_runs_store, Skipped)
  /\ ingested
       (snd (ingest_reports sample_runtime false (Some sample_files)
               (fst (ingest_reports sample_runtime false (Some sample_files)
                       empty_store))))
     = 0.
Proof.
  destruct (ingest_reports_idempotent sample_runtime (Some sample_files) empty_store)
    as [_ (_ & Hz & _)].
  destruct (ingest_reports_idempotent sample_runtime None two_runs_store)
    as [Hskip _].
  split; [reflexivity|]. split; [reflexivity|]. split; [reflexivity|].
  split; [reflexivity|].
  split; [|exact Hz].
  apply (Hskip (Document (sample_report)) (sample_report) (JStr "r1"));
    reflexivity.
Defined.

Lemma derived_phase_nonempty_values_sample :
  py_get_default sample_raw_data "steps" (JArr []) = Ok (JArr sample_sub_steps)
  /\ Forall (fun s => is_object s = true) sample_sub_steps
  /\ Forall (fun s => string_or_absent "phase" s = true)
            (matching sample_sub_steps (JInt 1))
  /\ derived_phase sample_raw_data (JInt 1) = Ok (JStr "build,test").
Proof.
  assert (H1 : py_get_default sample_raw_data "steps" (JArr [])
               = Ok (JArr sample_sub_steps)) by reflexivity.
  assert (H2 : Forall (fun s => is_object s = true) sample_sub_steps)
    by (repeat constructor).
  assert (H3 : Forall (fun s => string_or_absent "phase" s = true)
                      (matching sample_sub_steps (JInt 1)))
    by (repeat constructor).
  split; [exact H1|]. split; [exact H2|]. split; [exact H3|].
  destruct (derived_phase_nonempty_values sample_raw_data sample_sub_steps (JInt 1)
              H1 H2 H3) as (r & Hr & _ & _ & Hjoin & _).
  rewrite Hr. f_equal. apply Hjoin.
  exists "build", "test". split; [left; reflexivity|].
  split; [right; left; reflexivity | discriminate].
Defined.

Lemma errors_summary_joined_then_truncated_sample :
  Forall (fun f => is_object f = true) sample_details
  /\ Forall (fun f => string_or_absent "error" f = true)
            (matching sample_details (JInt 1))
  /\ derived_errors_summary (JArr sample_details) (JInt 1)
     = Ok (JStr "timed out | timed out").
Proof.
  assert (H1 : Forall (fun f => is_object f = true) sample_details)
    by (repeat constructor).
  assert (H2 : Forall (fun f => string_or_absent "error" f = true)
                      (matching sample_details (JInt 1)))
    by (repeat constructor).
  split; [exact H1|]. split; [exact H2|].
  destruct (errors_summary_joined_then_truncated sample_details (JInt 1) H1 H2)
    as (summary & Hs & _ & Hcut & _).
  rewrite Hs. f_equal. apply Hcut. discriminate.
Defined.

Lemma derived_tool_most_frequent_sample :
  py_get_default sample_raw_data "steps" (JArr []) = Ok (JArr sample_sub_steps)
  /\ Forall (fun s => is_object s = true) sample_sub_steps
  /\ Forall (fun s => string_or_absent "tool" s = true)
            (matching sample_sub_steps (JInt 1))
  /\ exists r,
      derived_tool sample_raw_data (JInt 1) = Ok r
      /\ (present_strings "tool" (matching sample_sub_steps (JInt 1)) = [] ->
          r = JNull)
      /\ (present_strings "tool" (matching sample_sub_steps (JInt 1)) <> [] ->
          exists t pre post,
            r = JStr t
            /\ present_strings "tool" (matching sample_sub_steps (JInt 1))
               = pre ++ t :: post
            /\ (forall u, In u pre ->
                  occurrences u (present_strings "tool"
                                   (matching sample_sub_steps (JInt 1)))
                  < occurrences t (present_strings "tool"
                                     (matching sample_sub_steps (JInt 1))))
            /\ (forall u, In u post ->
                  occurrences u (present_strings "tool"
                                   (matching sample_sub_steps (JInt 1)))
                  <= occurrences t (present_strings "tool"
                                      (matching sample_sub_steps (JInt 1))))).
Proof.
  assert (H1 : py_get_default sample_raw_data "steps" (JArr [])
               = Ok (JArr sample_sub_steps)) by reflexivity.
  assert (H2 : Forall (fun s => is_object s = true) sample_sub_steps)
    by (repeat constructor).
  assert (H3 : Forall (fun s => string_or_absent "tool" s = true)
                      (matching sample_sub_steps (JInt 1)))
    by (repeat constructor).
  split; [exact H1|]. split; [exact H2|]. split; [exact H3|].
  exact (derived_tool_most_frequent sample_raw_data sample_sub_steps (JInt 1)
           H1 H2 H3).
Defined.

(** * Further properties of ingestion *)

Section IngestionInvariants.

Variable rt : Runtime.

(** ** A property every iteration keeps is kept by an invocation *)

Lemma ingest_loop_keeps (P : Store -> Prop) (force : bool) :
  (forall db report db' o,
      P db -> process_report rt force db report = (db', o) -> P db') ->
  forall (files : list file_content) (db : Store) (r : counts),
    P db -> P (fst (ingest_loop rt force files db r)).
Proof.
  intros Hstep files; induction files as [|f files IH]; simpl; intros db r HP.
  - exact HP.
  - destruct (process_report rt force db f) as [db' o] eqn:E.
    apply IH. exact (Hstep _ _ _ _ HP E).
Qed.

Lemma ingest_reports_keeps (P : Store -> Prop) (force : bool) :
  (forall db report db' o,
      P db -> process_report rt force db report = (db', o) -> P db') ->
  forall (reports_dir : option (list (string * file_content))) (db : Store),
    P db -> P (fst (ingest_reports rt force reports_dir db)).
Proof.
  intros Hstep [dir_entries|] db HP; unfold ingest_reports; [|exact HP].
  destruct (glob_full_json dir_entries) as [|f files] eqn:G; [exact HP|].
  exact (ingest_loop_keeps P force Hstep (f :: files) db (mkCounts 0 0 0) HP).
Qed.

(** ** The rows an ingested file writes *)

Lemma steps_params_unclassified
  (run_id raw_data failures_details step_outcome : json) (p : list json) (r : row) :
  steps_params rt run_id raw_data failures_details step_outcome = Ok p ->
  mapM bind_param p = Ok r ->
  unclassified r.
Proof.
  unfold steps_params; intros H Hr.
  bind_step H n Hn. bind_step H raw_steps Hraw. bind_step H phase Hphase.
  bind_step H tool Htool. bind_step H sf Hsf. bind_step H cats Hcats.
  bind_step H es Hes. bind_step H ra Hra. bind_step H ofs Hofs.
  bind_step H ufs Hufs.
  apply mapM_five in Hofs as (va & vb & vc & vd & ve & ->).
  inversion H; subst p. clear H.
  intros c Hc. unfold col.
  assert (Hnull : forall k, 13 <= k < 20 ->
             nth k r SNull = SNull).
  { intros k Hk.
    assert (Hb : bind_param
                   (nth k ([JStr (py_str (repr_compound rt) run_id ++ "_"
                                    ++ py_str (repr_compound rt) n)%string;
                            run_id; n; nth 0 [va; vb; vc; vd; ve] JNull;
                            phase; tool]
                           ++ skipn 1 [va; vb; vc; vd; ve]
                           ++ [dumps_or_none rt ra;
                               match cats with
                               | [] => JNull
                               | _ :: _ => JStr (json_dumps rt (JArr cats))
                               end; es;
                               JNull; JNull; JNull; JNull; JNull; JNull; JNull]
                           ++ ufs) JNull)
                 = Ok (nth k r SNull)).
    { apply (mapM_nth _ _ _ k JNull SNull Hr). simpl. lia. }
    assert (Hk' : k = 13 \/ k = 14 \/ k = 15 \/ k = 16 \/ k = 17 \/ k = 18 \/ k = 19)
      by lia.
    destruct Hk' as [-> | [-> | [-> | [-> | [-> | [-> | ->]]]]]];
      simpl in Hb; inversion Hb; reflexivity. }
  simpl in Hc.
  destruct Hc as [<- | [<- | [<- | [<- | [<- | [<- | [<- | []]]]]]]];
    apply Hnull; simpl; lia.
Qed.

(** The step rows a successful [_ingest_single_report] adds have all their
    classifier columns unset. *)
Lemma ingest_single_report_steps_unclassified (conn conn' : Conn)
  (report : file_content) :
  _ingest_single_report rt conn report = Ok conn' ->
  exists step_rows,
    steps (pending conn') = steps (pending conn) ++ step_rows
    /\ Forall unclassified step_rows.
Proof.
  unfold _ingest_single_report; intros H.
  bind_step H data Hload. bind_step H run_id Hrid.
  bind_step H summary Hsum. bind_step H tools_config Htc.
  bind_step H supabase_specific Hsb. bind_step H token_usage Htu.
  bind_step H raw_data Hrd. bind_step H rp Hrp. bind_step H c1 Hc1.
  bind_step H step_outcomes Hso. bind_step H failures_section Hfs.
  bind_step H failures_details Hfd. bind_step H outcomes Hout.
  bind_step H c2 Hc2. bind_step H details Hdet. bind_step H c3 Hc3.
  bind_step H searches_v Hws. bind_step H searches Hsea.
  apply execute_insert_Ok in Hc1 as (run_row & _ & _ & Hp1).
  apply insert_loop_Ok in Hc2 as (step_rows & Hsteps & Hp2).
  apply insert_loop_Ok in Hc3 as (failure_rows & _ & Hp3).
  apply insert_loop_Ok in H as (search_rows & _ & Hp4).
  exists step_rows; split.
  - rewrite Hp4, Hp3, Hp2, Hp1. destruct (pending conn); reflexivity.
  - clear - Hsteps. induction Hsteps as [|x r l new (p & Hp & Hb) _ IH];
      constructor; [|assumption].
    eapply steps_params_unclassified; eassumption.
Qed.

Lemma has_run_without_run (v : sqlval) (db : Store) :
  has_run (without_run v db) v = false.
Proof.
  unfold has_run, without_run; simpl.
  induction (runs db) as [|p l IH]; simpl; [reflexivity|].
  destruct (sql_eq (col Runs "run_id" p) v) eqn:E; simpl; [exact IH|].
  rewrite E; exact IH.
Qed.

(** The run an ingested file writes is not in the state it inserts into:
    the branches of [ingest_reports] exclude it. *)
Lemma insertion_base_fresh (force : bool) (db : Store) (run_id : json) (v : sqlval) :
  bind_param run_id = Ok v ->
  (force = false -> run_exists db run_id = Ok false) ->
  has_run (insertion_base force v db) v = false.
Proof.
  intros Hv Hex. unfold insertion_base.
  destruct force; simpl.
  - destruct (existsb _ (runs db)) eqn:E; [apply has_run_without_run | exact E].
  - specialize (Hex eq_refl). unfold run_exists in Hex. rewrite Hv in Hex.
    simpl in Hex. inversion Hex as [Hex']. unfold has_run. rewrite Hex'. reflexivity.
Qed.

(** All that is known of an iteration that ingested its file. *)
Lemma process_report_ingested (force : bool) (db db' : Store)
  (report : file_content) :
  process_report rt force db report = (db', Ingested) ->
  exists data run_id v run_row step_rows failure_rows search_rows,
    json_load report = Ok data
    /\ py_get data "run_id" = Ok run_id
    /\ bind_param run_id = Ok v
    /\ v <> SNull
    /\ has_run (insertion_base force v db) v = false
    /\ db' = mkStore
               (runs (insertion_base force v db) ++ [run_row])
               (steps (insertion_base force v db) ++ step_rows)
               (failures (insertion_base force v db) ++ failure_rows)
               (web_searches (insertion_base force v db) ++ search_rows)
    /\ List.length step_rows = List.length (step_outcome_entries data)
    /\ List.length failure_rows = List.length (failure_detail_entries data)
    /\ List.length search_rows = List.length (web_search_entries data)
    /\ all_of_run Runs v [run_row]
    /\ all_of_run Steps v step_rows
    /\ all_of_run Failures v failure_rows
    /\ all_of_run WebSearches v search_rows
    /\ Forall unclassified step_rows.
Proof.
  intros H.
  destruct (try_report rt force db report) as [[db1 o1]|e] eqn:E;
    [|rewrite (process_report_Raise _ _ _ _ _ E) in H; discriminate].
  rewrite (process_report_Ok _ _ _ _ _ E) in H; inversion H; subst db1 o1.
  apply try_report_Ok in E as (data & run_id & Hload & Hrid & [C | [C | C]]);
    try (destruct C as (_ & _ & C); discriminate);
    try (destruct C as (_ & _ & _ & _ & C); discriminate).
  destruct C as (Ht & Hex & Htx & _).
  apply (ingest_transaction_Ok _ _ _ _ _ _ _ Hload Hrid) in Htx
    as (v & conn & conn' & Hv & Hbase & Hing & ->).
  pose proof (ingest_single_report_steps_unclassified _ _ _ Hing)
    as (step_rows' & Hsteps' & Hun).
  apply ingest_single_report_Ok in Hing
    as (data' & rid' & v' & run_row & step_rows & failure_rows & search_rows
        & Hload' & Hrid' & Hv' & Hp & Hl1 & Hl2 & Hl3 & Hr1 & Hr2 & Hr3 & Hr4).
  rewrite Hload in Hload'; inversion Hload'; subst data'.
  rewrite Hrid in Hrid'; inversion Hrid'; subst rid'.
  rewrite Hv in Hv'; inversion Hv'; subst v'.
  assert (step_rows' = step_rows).
  { rewrite Hp in Hsteps'; simpl in Hsteps'.
    apply app_inv_head in Hsteps'. congruence. }
  subst step_rows'.
  exists data, run_id, v, run_row, step_rows, failure_rows, search_rows.
  rewrite <- Hbase.
  split; [assumption|]. split; [assumption|]. split; [assumption|].
  split; [exact (truthy_bound_not_null _ _ Ht Hv)|].
  split; [rewrite Hbase; apply (insertion_base_fresh _ _ _ _ Hv Hex)|].
  repeat (split; [assumption|]). assumption.
Qed.

(** ** Non-forced ingestion is append-only *)

Lemma store_extends_refl (db : Store) : store_extends db db.
Proof.
  intros t; exists []; rewrite app_nil_r; reflexivity.
Qed.

Lemma store_extends_trans (a b c : Store) :
  store_extends a b -> store_extends b c -> store_extends a c.
Proof.
  intros H1 H2 t. destruct (H1 t) as [m1 E1], (H2 t) as [m2 E2].
  exists (m1 ++ m2). rewrite E2, E1, app_assoc; reflexivity.
Qed.

Lemma process_report_extends (db db' : Store) (report : file_content) (o : outcome) :
  process_report rt false db report = (db', o) -> store_extends db db'.
Proof.
  intros H. apply process_report_effect in H. destruct o.
  - destruct H as (data & run_id & v & run_row & step_rows & failure_rows
                   & search_rows & _ & _ & _ & -> & _).
    intros t; destruct t; simpl; eexists; reflexivity.
  - subst; apply store_extends_refl.
  - subst; apply store_extends_refl.
Qed.

(** X1.  Without force, [ingest_reports] only appends: every table of the
    store it returns begins with the rows the table held before, in their
    order, whatever the report files contain. *)
Theorem non_forced_ingestion_appends :
  forall (reports_dir : option (list (string * file_content))) (db : Store),
    store_extends db (fst (ingest_reports rt false reports_dir db)).
Proof.
  intros reports_dir db.
  apply (ingest_reports_keeps (store_extends db) false);
    [|apply store_extends_refl].
  intros db1 report db2 o H1 H2.
  eapply store_extends_trans; [exact H1 | eapply process_report_extends; exact H2].
Qed.

(** ** An ingested file touches the rows of its own run only *)

Lemma sql_eq_eq (a b : sqlval) : sql_eq a b = true -> a = b.
Proof.
  destruct a, b; simpl; intros H; try discriminate.
  - apply Z.eqb_eq in H; congruence.
  - apply String.eqb_eq in H; congruence.
Qed.

Lemma sql_eq_sym (a b : sqlval) : sql_eq a b = sql_eq b a.
Proof.
  destruct a, b; simpl; try reflexivity.
  - apply Z.eqb_sym.
  - apply String.eqb_sym.
Qed.

Lemma insertion_base_cases (force : bool) (v : sqlval) (db : Store) :
  insertion_base force v db = db \/ insertion_base force v db = without_run v db.
Proof.
  unfold insertion_base. destruct (force && _); auto.
Qed.

Lemma rows_of_without_run (t : table) (v : sqlval) (db : Store) :
  rows_of t (without_run v db) = filter (of_other_run t v) (rows_of t db).
Proof.
  destruct t; reflexivity.
Qed.

Lemma rows_of_mkStore_app (t : table) (base : Store) (r1 r2 r3 r4 : list row) :
  exists new,
    rows_of t (mkStore (runs base ++ r1) (steps base ++ r2)
                       (failures base ++ r3) (web_searches base ++ r4))
    = rows_of t base ++ new
    /\ new = match t with
             | Runs => r1 | Steps => r2 | Failures => r3 | WebSearches => r4
             end.
Proof.
  destruct t; simpl; eexists; split; reflexivity.
Qed.

Lemma filter_none {A : Type} (p : A -> bool) (l : list A) :
  (forall x, In x l -> p x = false) -> filter p l = [].
Proof.
  induction l as [|x l IH]; simpl; intros H; [reflexivity|].
  rewrite (H x (or_introl eq_refl)). apply IH; intros y Hy; apply H; right; exact Hy.
Qed.

Lemma filter_all {A : Type} (p : A -> bool) (l : list A) :
  (forall x, In x l -> p x = true) -> filter p l = l.
Proof.
  induction l as [|x l IH]; simpl; intros H; [reflexivity|].
  rewrite (H x (or_introl eq_refl)). f_equal.
  apply IH; intros y Hy; apply H; right; exact Hy.
Qed.

Lemma file_run_id_Some (report : file_content) (data run_id : json) (v : sqlval) :
  json_load report = Ok data ->
  py_get data "run_id" = Ok run_id ->
  bind_param run_id = Ok v ->
  file_run_id report = Some v.
Proof.
  intros H1 H2 H3. unfold file_run_id. rewrite H1; simpl. rewrite H2; simpl.
  rewrite H3; reflexivity.
Qed.

(** The rows an ingested file adds to table [t]. *)
Lemma ingested_rows (force : bool) (db db' : Store) (report : file_content) :
  process_report rt force db report = (db', Ingested) ->
  exists v,
    file_run_id report = Some v
    /\ v <> SNull
    /\ has_run (insertion_base force v db) v = false
    /\ has_run db' v = true
    /\ forall t, exists new,
         rows_of t db' = rows_of t (insertion_base force v db) ++ new
         /\ all_of_run t v new.
Proof.
  intros H. apply process_report_ingested in H
    as (data & run_id & v & run_row & step_rows & failure_rows & search_rows
        & Hload & Hrid & Hv & Hnn & Hfresh & -> & _ & _ & _ & H1 & H2 & H3 & H4 & _).
  exists v. split; [eapply file_run_id_Some; eassumption|].
  split; [assumption|]. split; [assumption|]. split.
  - unfold has_run; simpl. rewrite existsb_app; simpl.
    apply Forall_inv in H1. rewrite H1, (sql_eq_refl v Hnn).
    apply orb_true_iff; right; reflexivity.
  - intros t; destruct t; simpl; eexists; split; try reflexivity; assumption.
Qed.

Lemma other_file_keeps_run (force : bool) (db db' : Store)
  (report : file_content) (o : outcome) (v : sqlval) :
  file_run_id report <> Some v ->
  process_report rt force db report = (db', o) ->
  forall t, filter (of_run t v) (rows_of t db') = filter (of_run t v) (rows_of t db).
Proof.
  intros Hother H t.
  destruct o; try (rewrite (process_report_store _ _ _ _ _ _ H); [reflexivity | discriminate]).
  apply ingested_rows in H as (w & Hw & Hnn & _ & _ & Hrows).
  assert (Hwv : w <> v) by congruence.
  destruct (Hrows t) as (new & -> & Hnew).
  rewrite filter_app.
  assert (Hn : filter (of_run t v) new = []).
  { apply filter_none. intros r Hr. unfold all_of_run in Hnew.
    rewrite Forall_forall in Hnew. unfold of_run. rewrite (Hnew r Hr).
    destruct (sql_eq w v) eqn:E; [apply sql_eq_eq in E; contradiction | reflexivity]. }
  rewrite Hn, app_nil_r.
  destruct (insertion_base_cases force w db) as [-> | ->]; [reflexivity|].
  rewrite rows_of_without_run, filter_filter.
  apply filter_ext. intros r. unfold of_other_run, of_run.
  destruct (sql_eq (col t "run_id" r) v) eqn:E; [|apply andb_false_r].
  apply sql_eq_eq in E. rewrite E.
  destruct (sql_eq v w) eqn:E'; [apply sql_eq_eq in E'; congruence | reflexivity].
Qed.

Lemma other_files_keep_run (force : bool) (files : list file_content)
  (db : Store) (r : counts) (v : sqlval) :
  Forall (fun report => file_run_id report <> Some v) files ->
  forall t,
    filter (of_run t v) (rows_of t (fst (ingest_loop rt force files db r)))
    = filter (of_run t v) (rows_of t db).
Proof.
  intros Hall t; revert db r.
  induction Hall as [|g rest Hg _ IH]; intros db r; [reflexivity|].
  simpl. destruct (process_report rt force db g) as [db' o] eqn:E.
  rewrite IH. exact (other_file_keeps_run _ _ _ _ _ _ Hg E t).
Qed.

(** X2.  Forced or not, an invocation of [ingest_reports] leaves the
    records of run [v] exactly as they were, in every table, when no
    matching report file is filed under [v]. *)
Theorem ingestion_leaves_other_runs :
  forall (force : bool) (dir_entries : list (string * file_content))
         (db : Store) (v : sqlval),
    Forall (fun report => file_run_id report <> Some v)
           (glob_full_json dir_entries) ->
    forall t,
      filter (of_run t v)
             (rows_of t (fst (ingest_reports rt force (Some dir_entries) db)))
      = filter (of_run t v) (rows_of t db).
Proof.
  intros force dir_entries db v Hall t. unfold ingest_reports.
  destruct (glob_full_json dir_entries) as [|f files] eqn:G; [reflexivity|].
  exact (other_files_keep_run force (f :: files) db (mkCounts 0 0 0) v Hall t).
Qed.

(** ** Invariants of the store *)

Lemma has_run_incl (db db' : Store) (v : sqlval) :
  incl (runs db) (runs db') -> has_run db v = true -> has_run db' v = true.
Proof.
  unfold has_run; intros Hi H. eapply existsb_incl; eassumption.
Qed.

Lemma runs_of_base_kept (force : bool) (db db' : Store) (v w : sqlval) :
  (exists new, runs db' = runs (insertion_base force v db) ++ new) ->
  sql_eq w v = false ->
  has_run db w = true -> has_run db' w = true.
Proof.
  intros (new & Hruns) Hwv Hw. unfold has_run in *. rewrite Hruns, existsb_app.
  apply orb_true_iff; left.
  destruct (insertion_base_cases force v db) as [-> | ->]; [exact Hw|].
  apply existsb_exists in Hw as (p & Hp & Hpw).
  apply existsb_exists. exists p; split; [|exact Hpw].
  unfold without_run; simpl. apply filter_In; split; [exact Hp|].
  apply sql_eq_eq in Hpw. rewrite Hpw, Hwv. reflexivity.
Qed.

Lemma process_report_keeps_no_orphans (force : bool) (db db' : Store)
  (report : file_content) (o : outcome) :
  no_orphans db ->
  process_report rt force db report = (db', o) ->
  no_orphans db'.
Proof.
  intros Hinv H.
  destruct o; try (rewrite (process_report_store _ _ _ _ _ _ H); [assumption | discriminate]).
  apply ingested_rows in H as (v & _ & Hnn & _ & Hv & Hrows).
  intros t r Ht Hr.
  destruct (Hrows t) as (new & Hrows_t & Hnew).
  rewrite Hrows_t in Hr. apply in_app_or in Hr as [Hr | Hr].
  - destruct (sql_eq (col t "run_id" r) v) eqn:E.
    + apply sql_eq_eq in E. rewrite E; exact Hv.
    + apply (runs_of_base_kept force db db' v);
        [destruct (Hrows Runs) as (nr & Hnr & _); exists nr; exact Hnr | exact E|].
      apply (Hinv t r Ht).
      destruct (insertion_base_cases force v db) as [Hb | Hb]; rewrite Hb in Hr;
        [exact Hr|].
      rewrite rows_of_without_run in Hr. apply filter_In in Hr; tauto.
  - unfold all_of_run in Hnew. rewrite Forall_forall in Hnew.
    rewrite (Hnew r Hr). exact Hv.
Qed.

(** X3.  Forced or not, [ingest_reports] never leaves an orphan: if every
    step, failure and web-search row of the store belongs to a run of the
    store before the call, the same holds after it. *)
Theorem ingestion_keeps_no_orphans :
  forall (force : bool) (reports_dir : option (list (string * file_content)))
         (db : Store),
    no_orphans db ->
    no_orphans (fst (ingest_reports rt force reports_dir db)).
Proof.
  intros force reports_dir db.
  apply (ingest_reports_keeps no_orphans force).
  intros db1 report db2 o; apply process_report_keeps_no_orphans.
Qed.

Lemma distinct_run_ids_filter (p : row -> bool) (l : list row) :
  distinct_run_ids l -> distinct_run_ids (filter p l).
Proof.
  induction l as [|x l IH]; simpl; intros H; [exact I|].
  destruct H as (Hx & Hl). destruct (p x); simpl; [|auto].
  split; [|auto].
  destruct (existsb _ (filter p l)) eqn:E; [|reflexivity].
  apply existsb_exists in E as (q & Hq & Hqx). apply filter_In in Hq as (Hq & _).
  assert (existsb (fun q => sql_eq (col Runs "run_id" q) (col Runs "run_id" x)) l = true)
    by (apply existsb_exists; eauto).
  congruence.
Qed.

Lemma distinct_run_ids_snoc (l : list row) (p : row) :
  distinct_run_ids l ->
  existsb (fun q => sql_eq (col Runs "run_id" q) (col Runs "run_id" p)) l = false ->
  distinct_run_ids (l ++ [p]).
Proof.
  induction l as [|x l IH]; simpl; intros H Hp; [auto|].
  destruct H as (Hx & Hl). apply orb_false_iff in Hp as (Hxp & Hp).
  split; [|auto].
  rewrite existsb_app, Hx; simpl.
  rewrite sql_eq_sym, Hxp. reflexivity.
Qed.

Lemma process_report_keeps_distinct_run_ids (force : bool) (db db' : Store)
  (report : file_content) (o : outcome) :
  distinct_run_ids (runs db) ->
  process_report rt force db report = (db', o) ->
  distinct_run_ids (runs db').
Proof.
  intros Hinv H.
  destruct o; try (rewrite (process_report_store _ _ _ _ _ _ H); [assumption | discriminate]).
  apply process_report_ingested in H
    as (data & run_id & v & run_row & step_rows & failure_rows & search_rows
        & _ & _ & _ & _ & Hfresh & -> & _ & _ & _ & H1 & _).
  simpl. apply Forall_inv in H1.
  apply distinct_run_ids_snoc; [|rewrite H1; exact Hfresh].
  destruct (insertion_base_cases force v db) as [-> | ->]; [exact Hinv|].
  unfold without_run; simpl. apply distinct_run_ids_filter; exact Hinv.
Qed.

(** X4.  Forced or not, [ingest_reports] never creates a duplicate run: if
    no two run rows of the store carry the same identifier before the call,
    none do after it. *)
Theorem ingestion_keeps_run_ids_distinct :
  forall (force : bool) (reports_dir : option (list (string * file_content)))
         (db : Store),
    distinct_run_ids (runs db) ->
    distinct_run_ids (runs (fst (ingest_reports rt force reports_dir db))).
Proof.
  intros force reports_dir db.
  apply (ingest_reports_keeps (fun d => distinct_run_ids (runs d)) force).
  intros db1 report db2 o; apply process_report_keeps_distinct_run_ids.
Qed.

(** ** What the store holds of a run once its report is ingested *)

Lemma base_holds_nothing_of_run (force : bool) (db : Store) (v : sqlval) (t : table) :
  no_orphans db ->
  has_run (insertion_base force v db) v = false ->
  filter (of_run t v) (rows_of t (insertion_base force v db)) = [].
Proof.
  intros Hinv Hfresh. apply filter_none. intros r Hr. unfold of_run.
  destruct (sql_eq (col t "run_id" r) v) eqn:E; [|reflexivity]. exfalso.
  destruct (insertion_base_cases force v db) as [Hb | Hb]; rewrite Hb in *.
  - destruct t.
    + unfold has_run in Hfresh. simpl in Hr.
      assert (existsb (fun p => sql_eq (col Runs "run_id" p) v) (runs db) = true)
        by (apply existsb_exists; eauto).
      congruence.
    + assert (Hp := Hinv Steps r ltac:(discriminate) Hr).
      apply sql_eq_eq in E. rewrite E in Hp. congruence.
    + assert (Hp := Hinv Failures r ltac:(discriminate) Hr).
      apply sql_eq_eq in E. rewrite E in Hp. congruence.
    + assert (Hp := Hinv WebSearches r ltac:(discriminate) Hr).
      apply sql_eq_eq in E. rewrite E in Hp. congruence.
  - rewrite rows_of_without_run in Hr. apply filter_In in Hr as (_ & Hr).
    unfold of_other_run in Hr. rewrite E in Hr. discriminate.
Qed.

(** X5.  After a report file is ingested, forced or not, into a store
    without orphans, the store holds of its run exactly one run row, one
    step row per entry of step_outcomes, one failure row per entry of
    failures.details and one web-search row per entry of web_searches:
    nothing of an earlier ingestion of the run is left. *)
Theorem ingested_run_holds_the_report :
  forall (force : bool) (db db' : Store) (report : file_content)
         (data run_id : json) (v : sqlval),
    no_orphans db ->
    process_report rt force db report = (db', Ingested) ->
    json_load report = Ok data ->
    py_get data "run_id" = Ok run_id ->
    bind_param run_id = Ok v ->
    List.length (filter (of_run Runs v) (runs db')) = 1
    /\ List.length (filter (of_run Steps v) (steps db'))
       = List.length (step_outcome_entries data)
    /\ List.length (filter (of_run Failures v) (failures db'))
       = List.length (failure_detail_entries data)
    /\ List.length (filter (of_run WebSearches v) (web_searches db'))
       = List.length (web_search_entries data).
Proof.
  intros force db db' report data run_id v Hinv H Hload Hrid Hv.
  apply process_report_ingested in H
    as (data' & rid' & v' & run_row & step_rows & failure_rows & search_rows
        & Hload' & Hrid' & Hv' & Hnn & Hfresh & -> & Hl1 & Hl2 & Hl3
        & H1 & H2 & H3 & H4 & _).
  rewrite Hload in Hload'; inversion Hload'; subst data'.
  rewrite Hrid in Hrid'; inversion Hrid'; subst rid'.
  rewrite Hv in Hv'; inversion Hv'; subst v'.
  assert (Hnew : forall t new, all_of_run t v new -> filter (of_run t v) new = new).
  { intros t new Hall. apply filter_all. intros r Hr.
    unfold all_of_run in Hall. rewrite Forall_forall in Hall.
    unfold of_run. rewrite (Hall r Hr). apply sql_eq_refl; exact Hnn. }
  pose proof (base_holds_nothing_of_run force db v Runs Hinv Hfresh) as B1.
  pose proof (base_holds_nothing_of_run force db v Steps Hinv Hfresh) as B2.
  pose proof (base_holds_nothing_of_run force db v Failures Hinv Hfresh) as B3.
  pose proof (base_holds_nothing_of_run force db v WebSearches Hinv Hfresh) as B4.
  simpl in B1, B2, B3, B4. simpl.
  rewrite !filter_app, B1, B2, B3, B4.
  rewrite (Hnew Runs _ H1), (Hnew Steps _ H2), (Hnew Failures _ H3),
    (Hnew WebSearches _ H4).
  simpl. auto.
Qed.

(** ** Forced ingestion never skips *)

Lemma forced_report_not_skipped (db db' : Store) (report : file_content)
  (o : outcome) :
  process_report rt true db report = (db', o) -> o <> Skipped.
Proof.
  intros H ->.
  destruct (try_report rt true db report) as [[db1 o1]|e] eqn:E;
    [|rewrite (process_report_Raise _ _ _ _ _ E) in H; discriminate].
  rewrite (process_report_Ok _ _ _ _ _ E) in H; inversion H; subst db1 o1.
  apply try_report_Ok in E as (data & run_id & _ & _ & [C | [C | C]]).
  - destruct C as (_ & _ & C); discriminate.
  - destruct C as (_ & C & _); discriminate.
  - destruct C as (_ & _ & _ & C); discriminate.
Qed.

Lemma forced_loop_skips_none (files : list file_content) (db : Store) (r : counts) :
  skipped (snd (ingest_loop rt true files db r)) = skipped r.
Proof.
  revert db r; induction files as [|f files IH]; simpl; intros db r; [reflexivity|].
  destruct (process_report rt true db f) as [db' o] eqn:E.
  rewrite IH. pose proof (forced_report_not_skipped _ _ _ _ E) as Ho.
  destruct o; try reflexivity. congruence.
Qed.

(** X6.  With force no file is skipped: the skipped count is 0, and the
    ingested and errors counts add up to the number of matching files. *)
Theorem forced_ingestion_skips_nothing :
  forall (dir_entries : list (string * file_content)) (db : Store),
    let r := snd (ingest_reports rt true (Some dir_entries) db) in
    skipped r = 0
    /\ ingested r + errors r = List.length (glob_full_json dir_entries).
Proof.
  intros dir_entries db r.
  assert (Hs : skipped r = 0).
  { subst r. unfold ingest_reports.
    destruct (glob_full_json dir_entries) as [|f files]; [reflexivity|].
    apply (forced_loop_skips_none (f :: files) db (mkCounts 0 0 0)). }
  split; [exact Hs|].
  assert (Ht : ingested r + skipped r + errors r
               = List.length (glob_full_json dir_entries)).
  { subst r. unfold ingest_reports.
    destruct (glob_full_json dir_entries) as [|f files]; [reflexivity|].
    exact (ingest_loop_total rt true (f :: files) db (mkCounts 0 0 0)). }
  lia.
Qed.

(** ** Freshly ingested steps are unclassified *)

Lemma process_report_keeps_unclassified (force : bool) (db db' : Store)
  (report : file_content) (o : outcome) :
  Forall unclassified (steps db) ->
  process_report rt force db report = (db', o) ->
  Forall unclassified (steps db').
Proof.
  intros Hinv H.
  destruct o; try (rewrite (process_report_store _ _ _ _ _ _ H); [assumption | discriminate]).
  apply process_report_ingested in H
    as (data & run_id & v & run_row & step_rows & failure_rows & search_rows
        & _ & _ & _ & _ & _ & -> & _ & _ & _ & _ & _ & _ & _ & Hun).
  simpl. apply Forall_app; split; [|exact Hun].
  destruct (insertion_base_cases force v db) as [-> | ->]; [exact Hinv|].
  unfold without_run; simpl. apply Forall_forall. intros r Hr.
  apply filter_In in Hr as (Hr & _). rewrite Forall_forall in Hinv; auto.
Qed.

Lemma unclassified_label (s : row) : unclassified s -> label_of s = SText "pending".
Proof.
  intros H. unfold label_of. rewrite (H "classification"); [reflexivity|].
  left; reflexivity.
Qed.

(** X7.  Ingestion leaves classification to the classifier: if every step
    of the store has its seven classifier columns unset before a call of
    [ingest_reports], forced or not, every step has them unset after it,
    and [get_stats] then counts all steps as pending. *)
Theorem ingested_steps_are_pending :
  forall (force : bool) (reports_dir : option (list (string * file_content)))
         (db : Store),
    Forall unclassified (steps db) ->
    let db' := fst (ingest_reports rt force reports_dir db) in
    Forall unclassified (steps db')
    /\ get_stats db'
       = Ok (mkStats (List.length (steps db'))
               [("architectural", 0); ("implementation", 0); ("clean_pass", 0);
                ("ambiguous", 0); ("pending", List.length (steps db'))]).
Proof.
  intros force reports_dir db Hinv db'.
  assert (Hun : Forall unclassified (steps db')).
  { subst db'. revert Hinv.
    apply (ingest_reports_keeps (fun d => Forall unclassified (steps d)) force).
    intros db1 report db2 o; apply process_report_keeps_unclassified. }
  split; [exact Hun|].
  generalize dependent db'. intros db' Hun. clear Hinv.
  assert (Hrows : classification_rows db'
                  = match steps db' with
                    | [] => []
                    | _ => [(SText "pending", List.length (steps db'))]
                    end).
  { unfold classification_rows, group_by.
    assert (Hl : map (fun s => coalesce (col Steps "classification" s) (SText "pending"))
                     (steps db')
                 = repeat (SText "pending") (List.length (steps db'))).
    { induction Hun as [|s l Hs _ IH]; simpl; [reflexivity|].
      rewrite IH. f_equal. exact (unclassified_label s Hs). }
    rewrite Hl.
    assert (Hd : forall n, distinct (repeat (SText "pending") (S n)) = [SText "pending"]).
    { induction n as [|n IHn]; [reflexivity|].
      change (repeat (SText "pending") (S (S n)))
        with (SText "pending" :: repeat (SText "pending") (S n)).
      cbn [distinct]. rewrite IHn. reflexivity. }
    destruct (steps db') as [|s l] eqn:Es; [reflexivity|].
    cbn [List.length]. rewrite Hd. cbn [map fst snd]. do 2 f_equal.
    rewrite <- Es in *. rewrite filter_all; [rewrite Es; reflexivity|].
    intros x Hx. rewrite Forall_forall in Hun.
    change (coalesce (col Steps "classification" x) (SText "pending"))
      with (label_of x).
    rewrite (unclassified_label x (Hun x Hx)). reflexivity. }
  unfold get_stats. rewrite Hrows.
  destruct (steps db') as [|s l]; reflexivity.
Qed.

(** ** The bounds of the errors summary *)

Lemma list_comp_Forall {A B : Type} (g : A -> result B) (p : A -> result bool)
  (Q : B -> Prop) (l : list A) (ys : list B) :
  (forall x y, p x = Ok true -> g x = Ok y -> Q y) ->
  list_comp g p l = Ok ys -> Forall Q ys.
Proof.
  intros HQ; revert ys; induction l as [|x l IH]; simpl; intros ys H.
  - inversion H; constructor.
  - bind_step H b Hb. destruct b.
    + bind_step H y Hy. bind_step H ys' Hys. inversion H; subst ys.
      constructor; [exact (HQ x y Hb Hy) | exact (IH _ Hys)].
    + exact (IH _ H).
Qed.

Lemma string_length_append (s1 s2 : string) :
  String.length (s1 ++ s2) = String.length s1 + String.length s2.
Proof.
  induction s1 as [|c s1 IH]; simpl; [reflexivity | rewrite IH; reflexivity].
Qed.

Lemma join_strings_length_head (sep s : string) (l : list string) :
  String.length s <= String.length (join_strings sep (s :: l)).
Proof.
  destruct l as [|s' l]; simpl; [lia|].
  rewrite string_length_append; lia.
Qed.

Lemma build_errors_summary_bounds (step_failures : list json) (es : json) :
  build_errors_summary step_failures = Ok es ->
  es = JNull
  \/ exists s, es = JStr s /\ 1 <= String.length s <= 1000.
Proof.
  unfold build_errors_summary; intros H. bind_step H msgs Hmsgs.
  destruct msgs as [|m ms]; [inversion H; left; reflexivity|].
  bind_step H joined Hj. injection H as <-. right.
  exists (str_take 1000 joined); split; [reflexivity|].
  rewrite str_take_length.
  assert (Hm : truthy m = true).
  { apply (list_comp_Forall _ _ (fun y => truthy y = true)) in Hmsgs;
      [exact (Forall_inv Hmsgs)|].
    intros f y Hp Hg. bind_step Hp v Hv. injection Hp as Ht.
    destruct f; try discriminate. unfold py_get, py_get_default in Hv, Hg.
    destruct (assoc "error" items).
    - injection Hv as <-. injection Hg as <-. exact Ht.
    - injection Hv as <-. discriminate. }
  unfold py_join in Hj. bind_step Hj ss Hss. injection Hj as <-.
  simpl in Hss. bind_step Hss s0 Hs0. bind_step Hss rest Hrest.
  injection Hss as <-.
  destruct m; try discriminate. injection Hs0 as <-.
  pose proof (join_strings_length_head " | " s rest) as Hlen.
  assert (1 <= String.length s).
  { destruct s; [discriminate | simpl; lia]. }
  lia.
Qed.

(** X8.  The errors summary bound to a step row is either unset or a text
    of 1 to 1000 characters: never the empty string, never longer. *)
Theorem stored_errors_summary_bounds :
  forall (run_id raw_data failures_details step_outcome : json)
         (params : list json) (r : row),
    steps_params rt run_id raw_data failures_details step_outcome = Ok params ->
    mapM bind_param params = Ok r ->
    col Steps "errors_summary" r = SNull
    \/ exists s, col Steps "errors_summary" r = SText s
                 /\ 1 <= String.length s <= 1000.
Proof.
  intros run_id raw_data failures_details step_outcome params r H Hr.
  unfold steps_params in H.
  bind_step H n Hn. bind_step H raw_steps Hraw. bind_step H phase Hphase.
  bind_step H tool Htool. bind_step H sf Hsf. bind_step H cats Hcats.
  bind_step H es Hes. bind_step H ra Hra. bind_step H ofs Hofs.
  bind_step H ufs Hufs.
  apply mapM_five in Hofs as (va & vb & vc & vd & ve & ->).
  inversion H; subst params. clear H.
  apply (mapM_nth _ _ _ (position "errors_summary" (columns Steps)) JNull SNull) in Hr;
    [|simpl; lia].
  simpl in Hr. unfold col.
  change (position "errors_summary" (columns Steps)) with 12.
  destruct (build_errors_summary_bounds _ _ Hes) as [-> | (s & -> & Hs)];
    simpl in Hr; inversion Hr; [left; reflexivity | right; eauto].
Qed.

(** ** Deleting twice, deleting an absent run *)

(** X9.  Deleting the data of a run that can be bound succeeds; deleting it
    a second time changes nothing more, and when no row of any table is
    filed under the run the first deletion changes nothing either. *)
Theorem delete_run_data_idempotent :
  forall (conn : Conn) (run_id : json) (v : sqlval),
    bind_param run_id = Ok v ->
    exists c1 c2,
      _delete_run_data conn run_id = Ok c1
      /\ _delete_run_data c1 run_id = Ok c2
      /\ pending c2 = pending c1
      /\ ((forall t r, In r (rows_of t (pending conn)) -> of_run t v r = false) ->
          pending c1 = pending conn).
Proof.
  intros conn run_id v Hv.
  eexists; eexists.
  split; [apply (delete_run_data_spec _ _ _ Hv)|].
  split; [apply (delete_run_data_spec _ _ _ Hv)|].
  assert (Hkeep : forall db : Store,
             (forall t r, In r (rows_of t db) -> of_run t v r = false) ->
             without_run v db = db).
  { intros db Hnone. unfold without_run. destruct db as [rs ss fs ws]; simpl.
    f_equal; apply filter_all; intros r Hr.
    - apply negb_true_iff. exact (Hnone Runs r Hr).
    - apply negb_true_iff. exact (Hnone Steps r Hr).
    - apply negb_true_iff. exact (Hnone Failures r Hr).
    - apply negb_true_iff. exact (Hnone WebSearches r Hr). }
  simpl. split; [|apply Hkeep].
  apply Hkeep. intros t r Hr. rewrite rows_of_without_run in Hr.
  apply filter_In in Hr as (_ & Hr). unfold of_other_run in Hr.
  unfold of_run. apply negb_true_iff; exact Hr.
Qed.

(** ** The handler for KeyError is never taken *)

Lemma nk_Ok {A : Type} (a : A) : never_raises KeyError (Ok a).
Proof. discriminate. Qed.

Lemma nk_bind {A B : Type} (m : result A) (k : A -> result B) :
  never_raises KeyError m ->
  (forall a, m = Ok a -> never_raises KeyError (k a)) ->
  never_raises KeyError (bind m k).
Proof.
  unfold never_raises. destruct m as [a|e]; simpl; intros Hm Hk; [exact (Hk a eq_refl)|].
  intros H; apply Hm; injection H as ->; reflexivity.
Qed.

Lemma nk_mapM {A B : Type} (f : A -> result B) (l : list A) :
  (forall x, never_raises KeyError (f x)) -> never_raises KeyError (mapM f l).
Proof.
  intros Hf; induction l as [|x l IH]; simpl; [apply nk_Ok|].
  apply nk_bind; [apply Hf | intros y _].
  apply nk_bind; [exact IH | intros ys _; apply nk_Ok].
Qed.

Lemma nk_foldM {A S : Type} (f : S -> A -> result S) (l : list A) (s : S) :
  (forall s x, never_raises KeyError (f s x)) -> never_raises KeyError (foldM f l s).
Proof.
  intros Hf; revert s; induction l as [|x l IH]; simpl; intros s; [apply nk_Ok|].
  apply nk_bind; [apply Hf | intros s' _; apply IH].
Qed.

Lemma nk_list_comp {A B : Type} (g : A -> result B) (p : A -> result bool)
  (l : list A) :
  (forall x, never_raises KeyError (g x)) ->
  (forall x, never_raises KeyError (p x)) ->
  never_raises KeyError (list_comp g p l).
Proof.
  intros Hg Hp; induction l as [|x l IH]; simpl; [apply nk_Ok|].
  apply nk_bind; [apply Hp | intros b _]. destruct b; [|exact IH].
  apply nk_bind; [apply Hg | intros y _].
  apply nk_bind; [exact IH | intros ys _; apply nk_Ok].
Qed.

Lemma nk_py_get_default (d : json) (k : string) (v : json) :
  never_raises KeyError (py_get_default d k v).
Proof. destruct d; discriminate. Qed.

Lemma nk_py_get (d : json) (k : string) : never_raises KeyError (py_get d k).
Proof. apply nk_py_get_default. Qed.

Lemma nk_py_iter (v : json) : never_raises KeyError (py_iter v).
Proof. destruct v; discriminate. Qed.

Lemma nk_py_hash (v : json) : never_raises KeyError (py_hash v).
Proof. destruct v; discriminate. Qed.

Lemma nk_bind_param (v : json) : never_raises KeyError (bind_param v).
Proof. destruct v; discriminate. Qed.

Lemma nk_as_str (v : json) : never_raises KeyError (as_str v).
Proof. destruct v; discriminate. Qed.

Lemma nk_json_load (f : file_content) : never_raises KeyError (json_load f).
Proof. destruct f; discriminate. Qed.

Create HintDb nk.
#[local] Hint Resolve nk_Ok nk_py_get_default nk_py_get nk_py_iter nk_py_hash
  nk_bind_param nk_as_str nk_json_load nk_mapM nk_foldM nk_list_comp : nk.

(** Peel the binds of the goal, closing the steps the hints know. *)
Ltac nk_steps :=
  repeat first
    [ apply nk_Ok
    | apply nk_mapM; intros
    | apply nk_foldM; intros
    | apply nk_list_comp; intros
    | solve [auto with nk]
    | apply nk_bind; [|intros ? _] ].

Lemma nk_execute (s : stmt) (params : list json) (conn : Conn) :
  never_raises KeyError (execute s params conn).
Proof.
  unfold execute. apply nk_bind; [apply nk_mapM; auto with nk | intros vals _].
  destruct s; [apply nk_Ok|].
  destruct (violates t vals (rows_of t (pending conn))); [discriminate | apply nk_Ok].
Qed.

Lemma nk_fromkeys_from (seen : list hkey) (l : list json) :
  never_raises KeyError (fromkeys_from seen l).
Proof.
  revert seen; induction l as [|x l IH]; simpl; intros seen; [apply nk_Ok|].
  apply nk_bind; [auto with nk | intros k _].
  destruct (existsb (hkey_eqb k) seen); [apply IH|].
  apply nk_bind; [apply IH | intros; apply nk_Ok].
Qed.

Lemma nk_py_join (sep : string) (l : list json) :
  never_raises KeyError (py_join sep l).
Proof. unfold py_join. nk_steps. Qed.

Lemma nk_truthy_fields (k : string) (l : list json) :
  never_raises KeyError (truthy_fields k l).
Proof. unfold truthy_fields. nk_steps. Qed.

Lemma nk_get_raw_steps (raw_data n : json) :
  never_raises KeyError (get_raw_steps_for_step_number raw_data n).
Proof. unfold get_raw_steps_for_step_number. nk_steps. Qed.

Lemma nk_get_failures (details n : json) :
  never_raises KeyError (_get_failures_for_step details n).
Proof. unfold _get_failures_for_step. nk_steps. Qed.

#[local] Hint Resolve nk_execute nk_fromkeys_from nk_py_join nk_truthy_fields
  nk_get_raw_steps nk_get_failures : nk.

Lemma nk_extract_phase (raw_steps : list json) :
  never_raises KeyError (_extract_phase_from_raw_steps raw_steps).
Proof.
  unfold _extract_phase_from_raw_steps, dict_fromkeys.
  destruct raw_steps; [apply nk_Ok|].
  apply nk_bind; [auto with nk | intros phases _].
  destruct phases; [apply nk_Ok|].
  apply nk_bind; [auto with nk | intros u _].
  destruct u as [|p [|q u]]; nk_steps.
Qed.

Lemma nk_extract_tool (raw_steps : list json) :
  never_raises KeyError (_extract_tool_from_raw_steps raw_steps).
Proof.
  unfold _extract_tool_from_raw_steps, Counter.
  destruct raw_steps; [apply nk_Ok|].
  apply nk_bind; [auto with nk | intros tools _].
  destruct tools; [apply nk_Ok|].
  apply nk_bind; [nk_steps | intros c _].
  destruct c; [apply nk_Ok|].
  destruct (most_common_1 _) as [|[t n] rest]; [discriminate | apply nk_Ok].
Qed.

Lemma nk_build_errors_summary (sf : list json) :
  never_raises KeyError (build_errors_summary sf).
Proof.
  unfold build_errors_summary.
  apply nk_bind; [nk_steps | intros msgs _].
  destruct msgs; nk_steps.
Qed.

Lemma nk_build_error_categories (sf : list json) :
  never_raises KeyError (build_error_categories rt sf).
Proof. unfold build_error_categories, dict_fromkeys. nk_steps. Qed.

#[local] Hint Resolve nk_extract_phase nk_extract_tool nk_build_errors_summary
  nk_build_error_categories : nk.

Lemma nk_steps_params (run_id raw_data details step_outcome : json) :
  never_raises KeyError (steps_params rt run_id raw_data details step_outcome).
Proof. unfold steps_params. nk_steps. Qed.

Lemma nk_runs_params (data run_id a b c d : json) :
  never_raises KeyError (runs_params rt data run_id a b c d).
Proof. unfold runs_params. nk_steps. Qed.

Lemma nk_failures_params (run_id f : json) :
  never_raises KeyError (failures_params run_id f).
Proof. unfold failures_params. nk_steps. Qed.

Lemma nk_web_searches_params (run_id w : json) :
  never_raises KeyError (web_searches_params run_id w).
Proof. unfold web_searches_params. nk_steps. Qed.

#[local] Hint Resolve nk_steps_params nk_runs_params nk_failures_params
  nk_web_searches_params : nk.

Lemma py_getitem_present (data : json) (k : string) (v : json) :
  py_get data k = Ok v -> truthy v = true -> py_getitem data k = Ok v.
Proof.
  destruct data; try discriminate. unfold py_get, py_get_default, py_getitem.
  destruct (assoc k items); intros H Ht; [exact H|].
  injection H as <-. discriminate.
Qed.

Lemma nk_ingest_single_report (conn : Conn) (report : file_content)
  (data run_id : json) :
  json_load report = Ok data ->
  py_get data "run_id" = Ok run_id ->
  truthy run_id = true ->
  never_raises KeyError (_ingest_single_report rt conn report).
Proof.
  intros Hload Hrid Ht. unfold _ingest_single_report.
  rewrite Hload; cbn [bind]. rewrite (py_getitem_present _ _ _ Hrid Ht); cbn [bind].
  unfold ingest_step, ingest_failure, ingest_web_search. nk_steps.
Qed.

Lemma nk_run_exists (db : Store) (run_id : json) :
  never_raises KeyError (run_exists db run_id).
Proof. unfold run_exists. nk_steps. Qed.

Lemma nk_delete_run_data (conn : Conn) (run_id : json) :
  never_raises KeyError (_delete_run_data conn run_id).
Proof. unfold _delete_run_data. nk_steps. Qed.

(** X10.  Whatever the file and the store, the [try] block of
    [ingest_reports] never ends in a KeyError: a file that reaches
    [_ingest_single_report] has passed the test on [data.get("run_id")], so
    [data["run_id"]] finds its key, and the handler for KeyError is never
    the one that counts the error. *)
Theorem try_report_never_raises_KeyError :
  forall (force : bool) (db : Store) (report : file_content),
    never_raises KeyError (try_report rt force db report).
Proof.
  intros force db report. unfold try_report.
  apply nk_bind; [apply nk_json_load | intros data Hload].
  apply nk_bind; [apply nk_py_get | intros run_id Hrid].
  destruct (truthy run_id) eqn:Ht; cbn [negb]; [|apply nk_Ok].
  apply nk_bind.
  { destruct force; cbn [negb]; [apply nk_Ok | apply nk_run_exists]. }
  intros skip _. destruct skip; [apply nk_Ok|].
  apply nk_bind; [|intros; apply nk_Ok].
  unfold ingest_transaction.
  apply nk_bind.
  { destruct force; [|apply nk_Ok].
    apply nk_bind; [apply nk_run_exists | intros e _].
    destruct e; [apply nk_delete_run_data | apply nk_Ok]. }
  intros conn _.
  apply nk_bind; [|intros; apply nk_Ok].
  exact (nk_ingest_single_report conn report data run_id Hload Hrid Ht).
Qed.
End IngestionInvariants.

(** * Further properties of the aggregations *)

(** ** Ordering by a descending count *)

Lemma insert_desc_perm {A : Type} (key : A -> nat) (x : A) (l : list A) :
  Permutation (insert_desc key x l) (x :: l).
Proof.
  induction l as [|y l IH]; simpl; [apply Permutation_refl|].
  destruct (key y <? key x); [apply Permutation_refl|].
  eapply perm_trans; [apply perm_skip; exact IH | apply perm_swap].
Qed.

Lemma order_by_desc_perm {A : Type} (key : A -> nat) (l : list A) :
  Permutation (order_by_desc key l) l.
Proof.
  unfold order_by_desc. induction l as [|x l IH]; simpl; [apply perm_nil|].
  eapply perm_trans; [apply insert_desc_perm | apply perm_skip; exact IH].
Qed.

Lemma insert_desc_sorted {A : Type} (key : A -> nat) (x : A) (l : list A) :
  descending key l -> descending key (insert_desc key x l).
Proof.
  unfold descending. induction l as [|y l IH]; simpl; intros H.
  - constructor; constructor.
  - inversion H as [|? ? Hl Hy]; subst.
    destruct (key y <? key x) eqn:E.
    + apply Nat.ltb_lt in E. constructor; [exact H|].
      constructor; [lia|].
      rewrite Forall_forall in Hy |- *. intros z Hz. specialize (Hy z Hz). lia.
    + apply Nat.ltb_ge in E. constructor; [apply IH; exact Hl|].
      apply Forall_forall. intros z Hz.
      apply (Permutation_in _ (insert_desc_perm key x l)) in Hz.
      destruct Hz as [<- | Hz]; [exact E|].
      rewrite Forall_forall in Hy; auto.
Qed.

Lemma order_by_desc_sorted {A : Type} (key : A -> nat) (l : list A) :
  descending key (order_by_desc key l).
Proof.
  unfold order_by_desc. induction l as [|x l IH]; simpl; [constructor|].
  apply insert_desc_sorted; exact IH.
Qed.

Lemma descending_app {A : Type} (key : A -> nat) (l1 l2 : list A) :
  descending key (l1 ++ l2) ->
  descending key l1
  /\ forall a b, In a l1 -> In b l2 -> key b <= key a.
Proof.
  unfold descending. induction l1 as [|x l1 IH]; simpl; intros H.
  - split; [constructor | intros a b []].
  - inversion H as [|? ? Hl Hx]; subst. destruct (IH Hl) as (Hs & Hc).
    split.
    + constructor; [exact Hs|]. apply Forall_forall. intros z Hz.
      rewrite Forall_forall in Hx. apply Hx. apply in_or_app; left; exact Hz.
    + intros a b [<- | Ha] Hb; [|exact (Hc a b Ha Hb)].
      rewrite Forall_forall in Hx. apply Hx. apply in_or_app; right; exact Hb.
Qed.

(** [LIMIT n] on a descending list keeps the largest keys. *)
Lemma firstn_descending {A : Type} (key : A -> nat) (n : nat) (l : list A) :
  descending key l ->
  descending key (firstn n l)
  /\ forall a b, In a (firstn n l) -> In b l ->
                 In b (firstn n l) \/ (List.length (firstn n l) = n /\ key b <= key a).
Proof.
  intros H. rewrite <- (firstn_skipn n l) in H.
  destruct (descending_app _ _ _ H) as (Hs & Hc).
  split; [exact Hs|]. intros a b Ha Hb.
  rewrite <- (firstn_skipn n l) in Hb. apply in_app_or in Hb as [Hb | Hb]; [left; exact Hb|].
  right. split; [|exact (Hc a b Ha Hb)].
  apply firstn_length_le.
  destruct (Nat.le_gt_cases n (List.length l)) as [Hle | Hgt]; [exact Hle|].
  rewrite skipn_all2 in Hb by lia. contradiction.
Qed.

(** ** Grouping *)

Section Grouping.

Context {A K : Type}.
Variable eqb : K -> K -> bool.
Hypothesis eqb_eq : forall a b, eqb a b = true <-> a = b.
Variable key : A -> K.

Lemma eqb_same (a : K) : eqb a a = true.
Proof. apply eqb_eq; reflexivity. Qed.

Lemma distinct_by_In (l : list K) (k : K) : In k (distinct_by eqb l) <-> In k l.
Proof.
  induction l as [|v l IH]; simpl; [tauto|].
  rewrite filter_In, IH, negb_true_iff.
  destruct (eqb v k) eqn:E.
  - apply eqb_eq in E. tauto.
  - assert (v <> k) by (intros ->; rewrite eqb_same in E; discriminate). tauto.
Qed.

Lemma distinct_by_NoDup (l : list K) : NoDup (distinct_by eqb l).
Proof.
  induction l as [|v l IH]; simpl; constructor.
  - rewrite filter_In, eqb_same; simpl. intros [_ H]; discriminate.
  - apply NoDup_filter; assumption.
Qed.

Lemma group_by_key_In (l : list A) (k : K) (g : list A) :
  In (k, g) (group_by_key eqb key l)
  <-> In k (map key l) /\ g = filter (fun x => eqb (key x) k) l.
Proof.
  unfold group_by_key. rewrite in_map_iff. split.
  - intros (k' & Hk & Hin). inversion Hk; subst.
    split; [apply distinct_by_In; exact Hin | reflexivity].
  - intros (Hin & ->). exists k; split; [reflexivity | apply distinct_by_In; exact Hin].
Qed.

Lemma group_by_key_keys (l : list A) :
  map fst (group_by_key eqb key l) = distinct_by eqb (map key l).
Proof.
  unfold group_by_key. rewrite map_map. simpl. apply map_id.
Qed.

Lemma group_nonempty (l : list A) (k : K) :
  In k (map key l) -> 1 <= List.length (filter (fun x => eqb (key x) k) l).
Proof.
  intros H. apply in_map_iff in H as (x & Hx & Hin).
  assert (Hf : In x (filter (fun x => eqb (key x) k) l)).
  { apply filter_In; split; [exact Hin | apply eqb_eq; exact Hx]. }
  destruct (filter _ l); [contradiction | simpl; lia].
Qed.

Lemma count_over_keys (ks : list K) (l : list A) :
  NoDup ks ->
  (forall x, In x l -> In (key x) ks) ->
  list_sum (map (fun k => List.length (filter (fun x => eqb (key x) k) l)) ks)
  = List.length l.
Proof.
  intros Hnd. induction l as [|x l IH]; intros Hin.
  - clear. induction ks as [|k ks IHk]; simpl; [reflexivity | exact IHk].
  - assert (Hone : forall ks', NoDup ks' ->
               list_sum (map (fun k => List.length
                                         (filter (fun x => eqb (key x) k) (x :: l))) ks')
               = (if existsb (eqb (key x)) ks' then 1 else 0)
                 + list_sum (map (fun k => List.length
                                             (filter (fun x => eqb (key x) k) l)) ks')).
    { intros ks'. induction ks' as [|k ks' IHk]; intros Hnd'; [reflexivity|].
      inversion Hnd' as [|? ? Hnotin Hnd'']; subst.
      cbn [map existsb].
      change (list_sum ?a) with (fold_right Nat.add 0 a). cbn [fold_right].
      change (fold_right Nat.add 0 ?a) with (list_sum a).
      rewrite (IHk Hnd''). cbn [filter].
      destruct (eqb (key x) k) eqn:E; cbn [orb List.length].
      - apply eqb_eq in E. subst k.
        destruct (existsb (eqb (key x)) ks') eqn:Ex; [|lia].
        exfalso. apply existsb_exists in Ex as (k' & Hk' & Ek').
        apply eqb_eq in Ek'. subst k'. contradiction.
      - lia. }
    rewrite (Hone ks Hnd).
    rewrite IH by (intros y Hy; apply Hin; right; exact Hy).
    assert (Hex : existsb (eqb (key x)) ks = true).
    { apply existsb_exists. exists (key x); split; [|apply eqb_same].
      apply Hin; left; reflexivity. }
    rewrite Hex. reflexivity.
Qed.

(** The groups partition the rows. *)
Lemma group_sizes_total (l : list A) :
  list_sum (map (fun g => List.length (snd g)) (group_by_key eqb key l))
  = List.length l.
Proof.
  unfold group_by_key. rewrite map_map. cbn [snd].
  apply count_over_keys; [apply distinct_by_NoDup|].
  intros x Hx. apply distinct_by_In. apply in_map; exact Hx.
Qed.

End Grouping.

Lemma group_by_as_key {A : Type} (key : A -> sqlval) (l : list A) :
  group_by key l = group_by_key sqlval_eqb key l.
Proof.
  unfold group_by, group_by_key. f_equal.
  induction (map key l) as [|v r IH]; simpl; [reflexivity | rewrite IH; reflexivity].
Qed.

Lemma pair_eqb_eq (a b : sqlval * sqlval) : pair_eqb a b = true <-> a = b.
Proof.
  destruct a as [a1 a2], b as [b1 b2]. unfold pair_eqb; simpl.
  rewrite andb_true_iff, !sqlval_eqb_eq. split; [intros [-> ->]; reflexivity|].
  intros H; inversion H; auto.
Qed.

Lemma triple_eqb_eq (a b : sqlval * sqlval * sqlval) : triple_eqb a b = true <-> a = b.
Proof.
  destruct a as [[a1 a2] a3], b as [[b1 b2] b3]. unfold triple_eqb; simpl.
  rewrite !andb_true_iff, !sqlval_eqb_eq. split; [intros [[-> ->] ->]; reflexivity|].
  intros H; inversion H; auto.
Qed.

Lemma list_sum_perm (l l' : list nat) :
  Permutation l l' -> list_sum l = list_sum l'.
Proof.
  induction 1; simpl; lia.
Qed.

(** ** The most frequent error categories and failure phases *)

Lemma in_firstn {A : Type} (n : nat) (l : list A) (x : A) :
  In x (firstn n l) -> In x l.
Proof.
  intros H. rewrite <- (firstn_skipn n l). apply in_or_app; left; exact H.
Qed.

Lemma failure_counts_perm (column : string) (db : Store) :
  Permutation
    (failure_counts_by column db)
    (map (fun g => (fst g, List.length (snd g)))
       (group_by_key sqlval_eqb (col Failures column)
          (filter (fun f => not_null_nor_empty (col Failures column f))
             (failures db)))).
Proof.
  unfold failure_counts_by. rewrite group_by_as_key. apply order_by_desc_perm.
Qed.

Lemma count_of_named (column : string) (db : Store) (c : sqlval) :
  not_null_nor_empty c = true ->
  filter (fun f => sqlval_eqb (col Failures column f) c)
    (filter (fun f => not_null_nor_empty (col Failures column f)) (failures db))
  = filter (fun f => sqlval_eqb (col Failures column f) c) (failures db).
Proof.
  intros Hc. rewrite filter_filter. apply filter_ext. intros f.
  destruct (sqlval_eqb (col Failures column f) c) eqn:E; [|apply andb_false_r].
  apply sqlval_eqb_eq in E. rewrite E, Hc. reflexivity.
Qed.

Lemma failure_counts_entry (column : string) (db : Store) (c : sqlval) (n : nat) :
  In (c, n) (failure_counts_by column db)
  <-> not_null_nor_empty c = true
      /\ 1 <= n
      /\ n = List.length
               (filter (fun f => sqlval_eqb (col Failures column f) c) (failures db)).
Proof.
  split.
  - intros H. apply (Permutation_in _ (failure_counts_perm column db)) in H.
    apply in_map_iff in H as ([k g] & Hkg & Hin). simpl in Hkg. inversion Hkg; subst.
    apply (group_by_key_In sqlval_eqb sqlval_eqb_eq) in Hin as (Hk & ->).
    assert (Hc : not_null_nor_empty c = true).
    { apply in_map_iff in Hk as (f & <- & Hf). apply filter_In in Hf; tauto. }
    split; [exact Hc|]. split.
    + apply (group_nonempty sqlval_eqb sqlval_eqb_eq); exact Hk.
    + rewrite (count_of_named _ _ _ Hc). reflexivity.
  - intros (Hc & Hn & ->).
    apply (Permutation_in _ (Permutation_sym (failure_counts_perm column db))).
    apply in_map_iff.
    exists (c, filter (fun f => sqlval_eqb (col Failures column f) c)
                 (filter (fun f => not_null_nor_empty (col Failures column f))
                         (failures db))).
    split; [simpl; rewrite (count_of_named _ _ _ Hc); reflexivity|].
    apply (group_by_key_In sqlval_eqb sqlval_eqb_eq). split; [|reflexivity].
    destruct (filter (fun f => sqlval_eqb (col Failures column f) c) (failures db))
      as [|f l] eqn:F; [simpl in Hn; lia|].
    assert (Hf : In f (filter (fun f => sqlval_eqb (col Failures column f) c)
                          (failures db))) by (rewrite F; left; reflexivity).
    apply filter_In in Hf as (Hf & Hfc). apply sqlval_eqb_eq in Hfc.
    apply in_map_iff. exists f; split; [exact Hfc|].
    apply filter_In; split; [exact Hf | rewrite Hfc; exact Hc].
Qed.

Lemma failure_counts_keys (column : string) (db : Store) :
  NoDup (map fst (failure_counts_by column db)).
Proof.
  apply (Permutation_NoDup
           (Permutation_sym (Permutation_map fst (failure_counts_perm column db)))).
  rewrite map_map. cbn [fst].
  change (map (fun g : sqlval * list row => fst g)
              (group_by_key sqlval_eqb (col Failures column)
                 (filter (fun f => not_null_nor_empty (col Failures column f))
                         (failures db))))
    with (map fst
              (group_by_key sqlval_eqb (col Failures column)
                 (filter (fun f => not_null_nor_empty (col Failures column f))
                         (failures db)))).
  rewrite group_by_key_keys. apply (distinct_by_NoDup sqlval_eqb sqlval_eqb_eq).
Qed.

Lemma failure_counts_sorted (column : string) (db : Store) :
  descending snd (failure_counts_by column db).
Proof.
  apply order_by_desc_sorted.
Qed.

(** X11.  [top_error_categories] lists at most ten categories, by
    descending count and each once; a listed category is neither null nor
    empty and its count is the number of failure rows that carry it, at
    least one. *)
Theorem top_error_categories_listed :
  forall db : Store,
    List.length (top_error_categories db) <= 10
    /\ descending snd (top_error_categories db)
    /\ NoDup (map fst (top_error_categories db))
    /\ forall c n,
        In (c, n) (top_error_categories db) ->
        not_null_nor_empty c = true
        /\ 1 <= n
        /\ n = List.length
                 (filter (fun f => sqlval_eqb (col Failures "category" f) c)
                         (failures db)).
Proof.
  intros db. unfold top_error_categories.
  split; [apply firstn_le_length|].
  split; [apply (firstn_descending snd 10 _ (failure_counts_sorted "category" db))|].
  split.
  - pose proof (failure_counts_keys "category" db) as H.
    rewrite <- (firstn_skipn 10 (failure_counts_by "category" db)), map_app in H.
    exact (NoDup_app_remove_r _ _ H).
  - intros c n Hin. apply (failure_counts_entry "category" db).
    exact (in_firstn _ _ _ Hin).
Qed.

(** X12.  The limit of [top_error_categories] drops only the least
    frequent: a category that is neither null nor empty and is carried by
    some failure row is listed with its count, unless ten categories are
    listed that are each at least as frequent. *)
Theorem top_error_categories_keeps_most_frequent :
  forall (db : Store) (c : sqlval),
    let n := List.length
               (filter (fun f => sqlval_eqb (col Failures "category" f) c)
                       (failures db)) in
    not_null_nor_empty c = true ->
    1 <= n ->
    In (c, n) (top_error_categories db)
    \/ (List.length (top_error_categories db) = 10
        /\ forall c' n', In (c', n') (top_error_categories db) -> n <= n').
Proof.
  intros db c n Hc Hn.
  assert (Hin : In (c, n) (failure_counts_by "category" db)).
  { apply failure_counts_entry. auto. }
  unfold top_error_categories.
  destruct (firstn 10 (failure_counts_by "category" db)) as [|e rest] eqn:F.
  - left. destruct (failure_counts_by "category" db); [contradiction | discriminate].
  - rewrite <- F.
    destruct (firstn_descending snd 10 _ (failure_counts_sorted "category" db))
      as (_ & Hcut).
    assert (He : In e (firstn 10 (failure_counts_by "category" db)))
      by (rewrite F; left; reflexivity).
    destruct (Hcut e (c, n) He Hin) as [Hl | (Hlen & _)]; [left; exact Hl|].
    destruct (in_dec (fun a b : sqlval * nat =>
                        ltac:(decide equality;
                              [apply Nat.eq_dec
                              | decide equality; [apply Z.eq_dec | apply string_dec]]))
                     (c, n) (firstn 10 (failure_counts_by "category" db)))
      as [Hyes | Hno]; [left; exact Hyes|].
    right. split; [exact Hlen|].
    intros c' n' Hin'.
    destruct (Hcut (c', n') (c, n) Hin' Hin) as [Hl | (_ & Hle)]; [contradiction|].
    exact Hle.
Qed.

(** X13.  [top_failure_phases] lists every build phase that is neither null
    nor empty, by descending count and each once, and its counts add up to
    the number of failure rows with such a build phase. *)
Theorem top_failure_phases_total :
  forall db : Store,
    descending snd (top_failure_phases db)
    /\ NoDup (map fst (top_failure_phases db))
    /\ list_sum (map snd (top_failure_phases db))
       = List.length
           (filter (fun f => not_null_nor_empty (col Failures "build_phase" f))
                   (failures db)).
Proof.
  intros db. unfold top_failure_phases.
  split; [apply failure_counts_sorted|]. split; [apply failure_counts_keys|].
  rewrite (list_sum_perm _ _
             (Permutation_map snd (failure_counts_perm "build_phase" db))).
  rewrite map_map. cbn [snd].
  apply (group_sizes_total sqlval_eqb sqlval_eqb_eq).
Qed.

(** ** The counts of runs *)

(** X14.  In the counts of [get_stats] a run is completed, failed or
    neither: [completed_runs], [failed_runs] and the number of runs whose
    status is neither 'success' nor 'failed' (null included) add up to
    [total_runs]. *)
Theorem run_counts_partition :
  forall db : Store,
    let c := get_stats_run_counts db in
    completed_runs c + failed_runs c
    + List.length
        (filter (fun r => negb (status_is "success" r) && negb (status_is "failed" r))
                (runs db))
    = total_runs c.
Proof.
  intros db; simpl. induction (runs db) as [|r l IH]; [reflexivity|].
  cbn [filter].
  destruct (status_is "success" r) eqn:E1, (status_is "failed" r) eqn:E2;
    cbn [negb andb List.length]; try lia.
  unfold status_is in E1, E2. apply sql_eq_eq in E1, E2. congruence.
Qed.

(** ** The error heatmap *)

Lemma left_join_steps_fst (db : Store) (f : row) (fs : row * option row) :
  In fs (left_join_steps db f) -> fst fs = f.
Proof.
  unfold left_join_steps. destruct (filter (joins f) (steps db)) as [|s ss].
  - intros [<- | []]; reflexivity.
  - intros H. apply in_map_iff in H as (s' & <- & _). reflexivity.
Qed.

Lemma left_join_steps_length (db : Store) (f : row) :
  1 <= List.length (left_join_steps db f)
  /\ (List.length (filter (joins f) (steps db)) <= 1 ->
      List.length (left_join_steps db f) = 1).
Proof.
  unfold left_join_steps. destruct (filter (joins f) (steps db)) as [|s ss]; simpl.
  - split; [lia | reflexivity].
  - rewrite length_map. split; [lia | intros H; lia].
Qed.

Lemma located_failures_In (db : Store) (fs : row * option row) :
  In fs (located_failures db) ->
  In (fst fs) (failures db) /\ located (fst fs) = true.
Proof.
  unfold located_failures. intros H. apply in_flat_map in H as (f & Hf & Hfs).
  rewrite (left_join_steps_fst _ _ _ Hfs). apply filter_In in Hf. exact Hf.
Qed.

Lemma flat_map_length_ge {A B : Type} (g : A -> list B) (l : list A) :
  (forall x, In x l -> 1 <= List.length (g x)) ->
  List.length l <= List.length (flat_map g l).
Proof.
  induction l as [|x l IH]; simpl; intros H; [lia|].
  rewrite length_app. specialize (H x (or_introl eq_refl)) as Hx.
  assert (List.length l <= List.length (flat_map g l))
    by (apply IH; intros y Hy; apply H; right; exact Hy).
  lia.
Qed.

Lemma flat_map_length_eq {A B : Type} (g : A -> list B) (l : list A) :
  (forall x, In x l -> List.length (g x) = 1) ->
  List.length (flat_map g l) = List.length l.
Proof.
  induction l as [|x l IH]; simpl; intros H; [reflexivity|].
  rewrite length_app, (H x (or_introl eq_refl)), IH; [reflexivity|].
  intros y Hy; apply H; right; exact Hy.
Qed.

Lemma disjoint_filters_length {A : Type} (p q : A -> bool) (l : list A) :
  (forall x, p x = true -> q x = false) ->
  List.length (filter p l) + List.length (filter q l) <= List.length l.
Proof.
  intros H. induction l as [|x l IH]; simpl; [lia|].
  destruct (p x) eqn:E; [rewrite (H x E)|destruct (q x)]; simpl; lia.
Qed.

Lemma classified_as_disjoint (fs : row * option row) :
  classified_as "architectural" fs = true ->
  classified_as "implementation" fs = false.
Proof.
  unfold classified_as. destruct (snd fs) as [s|]; [|reflexivity].
  intros H. apply sql_eq_eq in H. rewrite H. reflexivity.
Qed.

Lemma pattern_group_In (db : Store) (g : (sqlval * sqlval) * list (row * option row)) :
  In g (pattern_groups db) ->
  1 <= List.length (snd g)
  /\ not_null_nor_empty (fst (fst g)) = true
  /\ not_null_nor_empty (snd (fst g)) = true
  /\ snd g = filter (fun fs => pair_eqb (cell_of fs) (fst g)) (located_failures db).
Proof.
  destruct g as [k g]. unfold pattern_groups. intros H.
  apply (group_by_key_In pair_eqb pair_eqb_eq) in H as (Hk & ->). cbn [fst snd].
  split; [apply (group_nonempty pair_eqb pair_eqb_eq); exact Hk|].
  apply in_map_iff in Hk as (fs & <- & Hfs).
  apply located_failures_In in Hfs as (_ & Hloc).
  unfold located in Hloc. apply andb_true_iff in Hloc. unfold cell_of; simpl.
  tauto.
Qed.

(** X15.  Every cell of [error_heatmap] stands for at least one failure row
    with a category and a build phase, its architectural and implementation
    counts together do not exceed its count, and the cells come by
    descending count. *)
Theorem error_heatmap_cells :
  forall db : Store,
    descending hm_count (error_heatmap db)
    /\ forall e,
        In e (error_heatmap db) ->
        1 <= hm_count e
        /\ hm_architectural e + hm_implementation e <= hm_count e
        /\ not_null_nor_empty (hm_category e) = true
        /\ not_null_nor_empty (hm_build_phase e) = true.
Proof.
  intros db. split; [apply order_by_desc_sorted|].
  intros e He. unfold error_heatmap in He.
  apply (Permutation_in _ (order_by_desc_perm _ _)) in He.
  apply in_map_iff in He as (g & <- & Hg).
  apply pattern_group_In in Hg as (Hn & Hc & Hb & _).
  unfold heatmap_entry_of; cbn [hm_count hm_architectural hm_implementation
                                   hm_category hm_build_phase].
  split; [exact Hn|]. split; [|split; assumption].
  apply disjoint_filters_length. exact classified_as_disjoint.
Qed.

(** X16.  The left join of [error_heatmap] loses no failure: the counts of
    the cells add up to at least the number of failure rows with a category
    and a build phase, and to exactly that number when no failure row joins
    more than one step. *)
Theorem error_heatmap_total :
  forall db : Store,
    let named := filter located (failures db) in
    List.length named <= list_sum (map hm_count (error_heatmap db))
    /\ ((forall f, In f named ->
                   List.length (filter (joins f) (steps db)) <= 1) ->
        list_sum (map hm_count (error_heatmap db)) = List.length named).
Proof.
  intros db named.
  assert (Hsum : list_sum (map hm_count (error_heatmap db))
                 = List.length (located_failures db)).
  { unfold error_heatmap.
    rewrite (list_sum_perm _ _ (Permutation_map hm_count (order_by_desc_perm _ _))).
    rewrite map_map. cbn [heatmap_entry_of hm_count].
    apply (group_sizes_total pair_eqb pair_eqb_eq). }
  rewrite Hsum. unfold located_failures. fold named. split.
  - apply flat_map_length_ge. intros f _. apply left_join_steps_length.
  - intros H. apply flat_map_length_eq. intros f Hf.
    apply left_join_steps_length. exact (H f Hf).
Qed.

(** ** The top patterns *)

Lemma descending_map {A B : Type} (f : A -> B) (key : B -> nat) (l : list A) :
  descending (fun x => key (f x)) l -> descending key (map f l).
Proof.
  unfold descending. induction 1 as [|x l Hl IH Hx]; simpl; constructor.
  - exact IH.
  - apply Forall_map. exact Hx.
Qed.

Lemma split_on_comma_free (s : string) :
  comma_free s = true -> split_on "," s = [s].
Proof.
  induction s as [|c s IH]; simpl; [reflexivity|].
  intros H. apply andb_true_iff in H as (Hc & Hs).
  apply negb_true_iff in Hc. rewrite Hc, (IH Hs). reflexivity.
Qed.

Lemma split_on_app (s r : string) :
  comma_free s = true ->
  split_on "," (s ++ "," ++ r) = s :: split_on "," r.
Proof.
  induction s as [|c s IH]; simpl; [reflexivity|].
  intros H. apply andb_true_iff in H as (Hc & Hs).
  apply negb_true_iff in Hc. rewrite Hc. simpl in IH. rewrite (IH Hs).
  reflexivity.
Qed.

Lemma split_join (l : list string) :
  l <> [] ->
  Forall (fun s => comma_free s = true) l ->
  split_on "," (join_strings "," l) = l.
Proof.
  induction l as [|s l IH]; [congruence|]. intros _ H.
  inversion H as [|? ? Hs Hl]; subst.
  destruct l as [|t l]; [apply split_on_comma_free; exact Hs|].
  change (join_strings "," (s :: t :: l))
    with (s ++ "," ++ join_strings "," (t :: l))%string.
  rewrite (split_on_app _ _ Hs), IH; [reflexivity | discriminate | exact Hl].
Qed.

Lemma join_strings_nonempty (s : string) (l : list string) :
  s <> "" -> join_strings "," (s :: l) <> "".
Proof.
  intros Hs. destruct s as [|c s]; [congruence|].
  destruct l; simpl; discriminate.
Qed.

Lemma plain_texts (d : list sqlval) :
  Forall plain_run_id d ->
  d = map SText (map text_or_empty d)
  /\ Forall (fun s => comma_free s = true) (map text_or_empty d)
  /\ Forall (fun s => s <> "") (map text_or_empty d)
  /\ filter (fun v => negb (sqlval_eqb v SNull)) d = d.
Proof.
  induction 1 as [|v d (s & -> & Hs & Hc) Hd (IH1 & IH2 & IH3 & IH4)]; simpl.
  - repeat split; constructor.
  - rewrite IH4. repeat split; try (constructor; assumption).
    f_equal. exact IH1.
Qed.

Lemma NoDup_firstn {A : Type} (n : nat) (l : list A) :
  NoDup l -> NoDup (firstn n l).
Proof.
  intros H. rewrite <- (firstn_skipn n l) in H.
  exact (NoDup_app_remove_r _ _ H).
Qed.

Lemma split_run_ids_plain (vals : list sqlval) :
  Forall plain_run_id vals ->
  map SText (split_run_ids (group_concat_distinct vals)) = distinct vals.
Proof.
  intros H. unfold group_concat_distinct.
  destruct (plain_texts _ H) as (_ & _ & _ & ->).
  assert (Hd : Forall plain_run_id (distinct vals)).
  { apply Forall_forall. intros v Hv. apply (proj1 (distinct_In _ _)) in Hv.
    exact (proj1 (Forall_forall _ _) H v Hv). }
  destruct (plain_texts _ Hd) as (Heq & Hc & Hn & _).
  destruct (distinct vals) as [|v d] eqn:E; [reflexivity|].
  cbn [split_run_ids].
  destruct (String.eqb_spec (join_strings "," (map text_or_empty (v :: d))) "")
    as [Hz|_].
  - exfalso. revert Hz. cbn [map]. apply join_strings_nonempty.
    inversion Hn; assumption.
  - rewrite split_join; [symmetry; exact Heq | discriminate | exact Hc].
Qed.

Lemma firstn_le_length {A : Type} (n : nat) (l : list A) :
  List.length (firstn n l) <= n.
Proof.
  revert l. induction n as [|n IH]; intros [|x l]; simpl; try lia.
  specialize (IH l). lia.
Qed.

Lemma top_patterns_In (db : Store) (e : pattern_entry) :
  In e (top_patterns db) ->
  exists g, In g (pattern_groups db) /\ e = pattern_entry_of g.
Proof.
  unfold top_patterns. intros H. apply in_map_iff in H as (g & <- & Hg).
  apply in_firstn in Hg.
  apply (Permutation_in _ (order_by_desc_perm _ _)) in Hg.
  exists g. split; [exact Hg | reflexivity].
Qed.

(** X17.  [top_patterns] lists at most twenty patterns, by descending number
    of occurrences; each stands for at least one failure row, shows at most
    five example run identifiers, and its architectural and implementation
    counts together do not exceed its occurrences. *)
Theorem top_patterns_bounds :
  forall db : Store,
    List.length (top_patterns db) <= 20
    /\ descending pt_total_occurrences (top_patterns db)
    /\ forall e,
        In e (top_patterns db) ->
        1 <= pt_total_occurrences e
        /\ pt_architectural_count e + pt_implementation_count e
           <= pt_total_occurrences e
        /\ List.length (pt_example_run_ids e) <= 5.
Proof.
  intros db. split; [|split].
  - unfold top_patterns. rewrite length_map. apply firstn_le_length.
  - unfold top_patterns. apply descending_map. cbn [pattern_entry_of pt_total_occurrences].
    apply firstn_descending, order_by_desc_sorted.
  - intros e He. apply top_patterns_In in He as (g & Hg & ->).
    apply pattern_group_In in Hg as (Hn & _).
    cbn [pattern_entry_of pt_total_occurrences pt_architectural_count
           pt_implementation_count pt_example_run_ids].
    split; [exact Hn|]. split; [|apply firstn_le_length].
    apply disjoint_filters_length. exact classified_as_disjoint.
Qed.

(** X18.  When the run identifier of every failure row is a text that is
    not empty and holds no comma, the example run identifiers of a pattern
    are pairwise distinct, and each is the run identifier of a failure row
    with the category and the build phase of the pattern. *)
Theorem top_patterns_examples_are_runs :
  forall db : Store,
    (forall f, In f (failures db) -> plain_run_id (col Failures "run_id" f)) ->
    forall e,
      In e (top_patterns db) ->
      NoDup (pt_example_run_ids e)
      /\ forall id,
          In id (pt_example_run_ids e) ->
          exists f,
            In f (failures db)
            /\ col Failures "run_id" f = SText id
            /\ col Failures "category" f = pt_category e
            /\ col Failures "build_phase" f = pt_build_phase e.
Proof.
  intros db Hplain e He. apply top_patterns_In in He as (g & Hg & ->).
  apply pattern_group_In in Hg as (_ & _ & _ & Hgroup).
  cbn [pattern_entry_of pt_example_run_ids pt_category pt_build_phase].
  set (vals := map (fun fs : row * option row => col Failures "run_id" (fst fs)) (snd g)).
  assert (Hin : forall fs, In fs (snd g) ->
                           In (fst fs) (failures db) /\ cell_of fs = fst g).
  { intros fs Hfs. rewrite Hgroup in Hfs. apply filter_In in Hfs as (Hfs & Hk).
    apply pair_eqb_eq in Hk. apply located_failures_In in Hfs. tauto. }
  assert (Hvals : Forall plain_run_id vals).
  { apply Forall_forall. intros v Hv. apply in_map_iff in Hv as (fs & <- & Hfs).
    apply Hplain. apply Hin. exact Hfs. }
  pose proof (split_run_ids_plain _ Hvals) as Heq.
  split.
  - apply NoDup_firstn. apply (NoDup_map_inv SText). rewrite Heq.
    apply distinct_NoDup.
  - intros id Hid. apply in_firstn in Hid.
    apply (in_map SText) in Hid. rewrite Heq in Hid.
    apply (proj1 (distinct_In _ _)) in Hid.
    apply in_map_iff in Hid as (fs & Hrun & Hfs).
    destruct (Hin fs Hfs) as (Hf & Hcell).
    exists (fst fs). split; [exact Hf|]. split; [exact Hrun|].
    rewrite <- Hcell. split; reflexivity.
Qed.

(** ** Self-correction when no failure is counted twice *)

Lemma filter_keeps_distinct_images {A B : Type} (f : A -> B) (p : A -> bool) :
  forall l : list A, NoDup (map f l) -> NoDup (map f (filter p l)).
Proof.
  intros l. induction l as [|x l IH]; simpl; intros H; [constructor|].
  inversion H as [|? ? Hx Hl]; subst.
  destruct (p x); [|exact (IH Hl)].
  simpl. constructor; [|exact (IH Hl)].
  intros Hin. apply Hx. apply in_map_iff in Hin as (y & Hy & Hyl).
  apply filter_In in Hyl as (Hyl & _). rewrite <- Hy. apply in_map; exact Hyl.
Qed.

Lemma distinct_of_NoDup (l : list sqlval) : NoDup l -> distinct l = l.
Proof.
  induction 1 as [|v l Hv Hl IH]; simpl; [reflexivity|].
  rewrite IH. f_equal. apply filter_all. intros w Hw.
  apply negb_true_iff. destruct (sqlval_eqb v w) eqn:E; [|reflexivity].
  apply sqlval_eqb_eq in E. subst w. contradiction.
Qed.

Lemma verdicts_disjoint (v : sqlval) :
  upper_in ["PROCEED"; "PASS"] v = true -> upper_in ["FAIL"; "SKIP"] v = false.
Proof.
  destruct v as [|n|s]; try reflexivity. unfold upper_in; cbn [existsb].
  destruct (String.eqb_spec (upper s) "PROCEED") as [->|_]; [reflexivity|].
  destruct (String.eqb_spec (upper s) "PASS") as [->|_]; [reflexivity|].
  discriminate.
Qed.

Lemma round3_of_fraction (a b : nat) :
  a <= b -> 1 <= b ->
  (0 <= round3 (Qmake (Z.of_nat a) (Pos.of_nat b)))%Q
  /\ (round3 (Qmake (Z.of_nat a) (Pos.of_nat b)) <= 1)%Q.
Proof.
  intros Hab Hb. unfold round3. cbn [Qnum Qden].
  assert (Hd : Z.pos (Pos.of_nat b) = Z.of_nat b).
  { destruct b as [|b]; [lia|]. rewrite <- Pos.of_nat_succ.
    rewrite Zpos_P_of_succ_nat. lia. }
  rewrite Hd.
  set (n := (Z.of_nat a * 1000)%Z). set (d := Z.of_nat b).
  assert (Hd0 : (0 < d)%Z) by (unfold d; lia).
  assert (Hn : (0 <= n <= 1000 * d)%Z) by (unfold n, d; lia).
  pose proof (Z.div_mod n d ltac:(lia)) as Hdm.
  pose proof (Z.mod_pos_bound n d Hd0) as Hr.
  assert (Hf : (0 <= n / d <= 1000)%Z).
  { split; [apply Z.div_pos; lia|].
    apply Z.div_le_upper_bound; lia. }
  assert (Hnum : (0 <= (if if (d <? 2 * (n mod d))%Z then true
                           else if (2 * (n mod d) <? d)%Z then false
                                else Z.odd (n / d)
                        then n / d + 1 else n / d) <= 1000)%Z).
  { destruct (Z.eq_dec (n / d) 1000) as [E|E].
    - assert (n mod d = 0)%Z as -> by nia.
      replace (d <? 2 * 0)%Z with false by (symmetry; apply Z.ltb_ge; lia).
      replace (2 * 0 <? d)%Z with true by (symmetry; apply Z.ltb_lt; lia).
      lia.
    - destruct (if (d <? 2 * (n mod d))%Z then true
                else if (2 * (n mod d) <? d)%Z then false else Z.odd (n / d));
        lia. }
  unfold Qle; cbn [Qnum Qden]. lia.
Qed.

(** X19.  When no step is matched by two failure records of one category,
    the self-correction figures of a category are sound: the steps counted
    as self-corrected and as failed are together at most the total, and the
    rate lies between 0 and 1. *)
Theorem self_correction_sound_without_repeats :
  forall db : Store,
    NoDup (map (fun fs => (col Failures "category" (fst fs),
                           col Steps "id" (snd fs)))
               (retried_failures db)) ->
    (forall fs, In fs (retried_failures db) -> col Steps "id" (snd fs) <> SNull) ->
    forall e,
      In e (get_patterns_self_correction db) ->
      1 <= sc_total e
      /\ sc_self_corrected e + sc_failed e <= sc_total e
      /\ (0 <= sc_rate e)%Q /\ (sc_rate e <= 1)%Q.
Proof.
  intros db Hnd Hid e He. unfold get_patterns_self_correction in He.
  apply in_map_iff in He as (r & <- & Hr). unfold self_correction_rows in Hr.
  apply (Permutation_in _ (order_by_desc_perm _ _)) in Hr.
  apply in_map_iff in Hr as ([k g] & <- & Hg). rewrite group_by_as_key in Hg.
  apply (group_by_key_In sqlval_eqb sqlval_eqb_eq) in Hg as (Hk & Hgroup).
  cbn [fst snd].
  assert (Htotal : count_distinct_ids g = List.length g).
  { unfold count_distinct_ids.
    rewrite filter_all.
    - rewrite distinct_of_NoDup; [apply length_map|].
      apply (NoDup_map_inv (pair k)). rewrite map_map.
      rewrite (map_ext_in _ (fun fs : row * row =>
                               (col Failures "category" (fst fs),
                                col Steps "id" (snd fs)))).
      + rewrite Hgroup. apply filter_keeps_distinct_images. exact Hnd.
      + intros fs Hfs. rewrite Hgroup in Hfs. apply filter_In in Hfs as (_ & E).
        apply sqlval_eqb_eq in E. rewrite E. reflexivity.
    - intros v Hv. apply in_map_iff in Hv as (fs & <- & Hfs).
      rewrite Hgroup in Hfs. apply filter_In in Hfs as (Hfs & _).
      apply negb_true_iff. destruct (sqlval_eqb _ SNull) eqn:E; [|reflexivity].
      apply sqlval_eqb_eq in E. exfalso. exact (Hid fs Hfs E). }
  assert (Hone : 1 <= List.length g).
  { rewrite Hgroup. apply (group_nonempty sqlval_eqb sqlval_eqb_eq). exact Hk. }
  assert (Hsum : sum_verdict_in ["PROCEED"; "PASS"] g
                 + sum_verdict_in ["FAIL"; "SKIP"] g <= List.length g).
  { unfold sum_verdict_in. apply disjoint_filters_length. intros fs H.
    apply andb_true_iff in H as (_ & H). rewrite (verdicts_disjoint _ H).
    apply andb_false_r. }
  unfold self_correction_entry_of.
  cbn [sc_total sc_self_corrected sc_failed sc_rate].
  rewrite Htotal.
  replace (0 <? List.length g) with true by (symmetry; apply Nat.ltb_lt; lia).
  split; [exact Hone|]. split; [exact Hsum|].
  apply round3_of_fraction; lia.
Qed.

(** ** The comparison of tool configurations *)

Lemma sql_concat_null_r (a : sqlval) : sql_concat a SNull = SNull.
Proof. unfold sql_concat. destruct (sql_text a); reflexivity. Qed.

Lemma steps_of_config_null (db : Store) : steps_of_config db SNull = [].
Proof.
  unfold steps_of_config. apply filter_none. intros sr _.
  destruct (tool_config_of (snd sr)); reflexivity.
Qed.

Lemma tool_comparison_In (db : Store) (e : tool_entry) :
  In e (tool_comparison db)
  <-> exists g, In g (tool_groups db) /\ e = tool_entry_of db g.
Proof.
  unfold tool_comparison. rewrite in_map_iff. split.
  - intros (g & <- & Hg).
    apply (Permutation_in _ (order_by_desc_perm _ _)) in Hg.
    exists g; split; [exact Hg | reflexivity].
  - intros (g & Hg & ->). exists g; split; [reflexivity|].
    apply (Permutation_in _ (Permutation_sym (order_by_desc_perm _ _))).
    exact Hg.
Qed.

(** X20.  A run with a planner but without an implementer or a verifier is
    reported by [tool_comparison] under the configuration [None], with at
    least one run and with both classification counts 0, whatever the
    classification of its steps. *)
Theorem tool_comparison_incomplete_config :
  forall (db : Store) (r : row),
    In r (runs db) ->
    col Runs "planner" r <> SNull ->
    col Runs "implementer" r = SNull \/ col Runs "verifier" r = SNull ->
    exists e,
      In e (tool_comparison db)
      /\ tc_tool_config e = SNull
      /\ 1 <= tc_run_count e
      /\ tc_architectural_count e = 0
      /\ tc_implementation_count e = 0.
Proof.
  intros db r Hr Hp Hmissing.
  set (l := filter (fun r => negb (sqlval_eqb (col Runs "planner" r) SNull)) (runs db)).
  assert (Hl : In r l).
  { apply filter_In. split; [exact Hr|]. apply negb_true_iff.
    destruct (sqlval_eqb _ SNull) eqn:E; [|reflexivity].
    apply sqlval_eqb_eq in E. contradiction. }
  set (g := (tools_of r, filter (fun x => triple_eqb (tools_of x) (tools_of r)) l)).
  assert (Hg : In g (tool_groups db)).
  { apply (group_by_key_In triple_eqb triple_eqb_eq). split; [|reflexivity].
    apply in_map. exact Hl. }
  exists (tool_entry_of db g). split; [apply tool_comparison_In; eauto|].
  assert (Hconfig : tc_tool_config (tool_entry_of db g) = SNull).
  { unfold tool_entry_of, g, tools_of; cbn [tc_tool_config fst snd].
    destruct Hmissing as [-> | ->].
    - rewrite sql_concat_null_r. reflexivity.
    - apply sql_concat_null_r. }
  split; [exact Hconfig|]. split.
  - unfold tool_entry_of, g; cbn [tc_run_count snd].
    apply (group_nonempty triple_eqb triple_eqb_eq). apply in_map. exact Hl.
  - unfold tool_entry_of in *. cbn [tc_tool_config] in Hconfig.
    cbn [tc_architectural_count tc_implementation_count].
    rewrite Hconfig, steps_of_config_null. split; reflexivity.
Qed.

(** X21.  [tool_comparison] lists the configurations by descending number
    of runs, each with at least one run, and the numbers of runs add up to
    the number of runs that have a planner. *)
Theorem tool_comparison_run_counts :
  forall db : Store,
    descending tc_run_count (tool_comparison db)
    /\ (forall e, In e (tool_comparison db) -> 1 <= tc_run_count e)
    /\ list_sum (map tc_run_count (tool_comparison db))
       = List.length
           (filter (fun r => negb (sqlval_eqb (col Runs "planner" r) SNull))
                   (runs db)).
Proof.
  intros db. split; [|split].
  - unfold tool_comparison. apply descending_map.
    cbn [tool_entry_of tc_run_count]. apply order_by_desc_sorted.
  - intros e He. apply tool_comparison_In in He as ([k g] & Hg & ->).
    apply (group_by_key_In triple_eqb triple_eqb_eq) in Hg as (Hk & ->).
    cbn [tool_entry_of tc_run_count snd].
    apply (group_nonempty triple_eqb triple_eqb_eq). exact Hk.
  - unfold tool_comparison. rewrite map_map. cbn [tool_entry_of tc_run_count].
    rewrite (list_sum_perm _ _ (Permutation_map _ (order_by_desc_perm _ _))).
    apply (group_sizes_total triple_eqb triple_eqb_eq).
Qed.

(** * Properties of list_runs *)

Lemma key_ltb_asym (a b : sort_key) : key_ltb a b = true -> key_ltb b a = false.
Proof.
  destruct a as [s|n], b as [t|m]; simpl; try reflexivity.
  - unfold String.ltb. rewrite (String.compare_antisym t s).
    destruct (String.compare s t); simpl; congruence.
  - intros H. apply Z.ltb_lt in H. apply Z.ltb_ge. lia.
Qed.

Lemma insert_reverse_In {A : Type} (key : A -> sort_key) (x y : A) (l : list A) :
  In y (insert_reverse key x l) <-> y = x \/ In y l.
Proof.
  induction l as [|z l IH]; simpl; [intuition congruence|].
  destruct (key_ltb (key x) (key z)); simpl; [rewrite IH|]; intuition congruence.
Qed.

Lemma fold_insert_reverse_In {A : Type} (key : A -> sort_key) (y : A) (l : list A) :
  In y (fold_right (insert_reverse key) [] l) <-> In y l.
Proof.
  induction l as [|x l IH]; simpl; [tauto|].
  rewrite insert_reverse_In, IH. intuition congruence.
Qed.

Lemma insert_reverse_sorted {A : Type} (key : A -> sort_key) (x : A) (l : list A) :
  Sorted (fun a b => key_ltb (key a) (key b) = false) l ->
  Sorted (fun a b => key_ltb (key a) (key b) = false) (insert_reverse key x l).
Proof.
  induction 1 as [|y l Hl IH Hy]; simpl; [repeat constructor|].
  destruct (key_ltb (key x) (key y)) eqn:E.
  - constructor; [exact IH|].
    destruct l as [|z l]; simpl.
    + constructor. apply key_ltb_asym; exact E.
    + destruct (key_ltb (key x) (key z)).
      * inversion Hy; subst. constructor; assumption.
      * constructor. apply key_ltb_asym; exact E.
  - constructor; [constructor; assumption|]. constructor. exact E.
Qed.

Lemma fold_insert_reverse_sorted {A : Type} (key : A -> sort_key) (l : list A) :
  Sorted (fun a b => key_ltb (key a) (key b) = false)
         (fold_right (insert_reverse key) [] l).
Proof.
  induction l as [|x l IH]; simpl; [constructor|].
  apply insert_reverse_sorted; exact IH.
Qed.

Lemma given_Some (o : option string) (s : string) :
  given o = Some s <-> o = Some s /\ s <> "".
Proof.
  unfold given. destruct o as [t|]; [|split; [discriminate | intros [H _]; discriminate]].
  destruct (String.eqb_spec t "") as [->|Hne]; split.
  - discriminate.
  - intros [H Hs]. inversion H; subst. congruence.
  - intros H; inversion H; subst. split; [reflexivity | exact Hne].
  - intros [H _]; exact H.
Qed.

Lemma given_None (o : option string) :
  given o = None -> forall s, o = Some s -> s = "".
Proof.
  unfold given. intros H s ->.
  destruct (String.eqb_spec s ""); [assumption | discriminate].
Qed.

Section ListRunsProperties.

Variable get_all_runs : list row.
Variable get_classification_summary : sqlval -> string -> option Z.
Variable get_steps_for_run : sqlval -> list row.
Variable get_failures_for_run : sqlval -> list row.

Lemma status_filter_In (status : option string) (l : list run_view) (r : run_view) :
  In r (status_filter status l) <-> In r l /\ asked_status status r.
Proof.
  unfold status_filter, asked_status. destruct (given status) as [s|] eqn:E.
  - apply given_Some in E as (-> & Hs). rewrite filter_In. split.
    + intros (Hin & Heq). split; [exact Hin|]. intros s' H _. inversion H; subst.
      apply sql_eq_eq; exact Heq.
    + intros (Hin & H). split; [exact Hin|]. rewrite (H s eq_refl Hs).
      simpl. apply String.eqb_refl.
  - split; [|tauto]. intros Hin. split; [exact Hin|].
    intros s H Hs. elim Hs. exact (given_None _ E _ H).
Qed.

Lemma architectural_filter_In (has_architectural : option bool)
  (l : list run_view) (r : run_view) :
  In r (architectural_filter has_architectural l)
  <-> In r l /\ asked_architectural has_architectural r.
Proof.
  unfold architectural_filter, asked_architectural.
  destruct has_architectural as [[|]|]; rewrite ?filter_In.
  - rewrite Z.ltb_lt. split.
    + intros (Hin & H). split; [exact Hin|]. intros b Hb; inversion Hb; subst; exact H.
    + intros (Hin & H). split; [exact Hin | exact (H true eq_refl)].
  - rewrite Z.eqb_eq. split.
    + intros (Hin & H). split; [exact Hin|]. intros b Hb; inversion Hb; subst; exact H.
    + intros (Hin & H). split; [exact Hin | exact (H false eq_refl)].
  - split; [|tauto]. intros Hin; split; [exact Hin | discriminate].
Qed.

Lemma build_phase_filter_In (build_phase : option string)
  (l : list run_view) (r : run_view) :
  In r (build_phase_filter get_steps_for_run build_phase l)
  <-> In r l
      /\ asked_build_phase build_phase
           (get_steps_for_run (col Runs "run_id" (fst r))).
Proof.
  unfold build_phase_filter, asked_build_phase.
  destruct (given build_phase) as [b|] eqn:E.
  - apply given_Some in E as (-> & Hb). rewrite filter_In, existsb_exists. split.
    + intros (Hin & s & Hs & Heq). split; [exact Hin|].
      intros b' H _; inversion H; subst. exists s. split; [exact Hs|].
      apply sql_eq_eq; exact Heq.
    + intros (Hin & H). split; [exact Hin|].
      destruct (H b eq_refl Hb) as (s & Hs & Heq). exists s. split; [exact Hs|].
      rewrite Heq. simpl. apply String.eqb_refl.
  - split; [|tauto]. intros Hin. split; [exact Hin|].
    intros b H Hb. elim Hb. exact (given_None _ E _ H).
Qed.

Lemma error_category_filter_In (error_category : option string)
  (l : list run_view) (r : run_view) :
  In r (error_category_filter get_failures_for_run error_category l)
  <-> In r l
      /\ asked_error_category error_category
           (get_failures_for_run (col Runs "run_id" (fst r))).
Proof.
  unfold error_category_filter, asked_error_category.
  destruct (given error_category) as [c|] eqn:E.
  - apply given_Some in E as (-> & Hc). rewrite filter_In, existsb_exists. split.
    + intros (Hin & f & Hf & Heq). split; [exact Hin|].
      intros c' H _; inversion H; subst. exists f. split; [exact Hf|].
      apply sql_eq_eq; exact Heq.
    + intros (Hin & H). split; [exact Hin|].
      destruct (H c eq_refl Hc) as (f & Hf & Heq). exists f. split; [exact Hf|].
      rewrite Heq. simpl. apply String.eqb_refl.
  - split; [|tauto]. intros Hin. split; [exact Hin|].
    intros c H Hc. elim Hc. exact (given_None _ E _ H).
Qed.

(** X22.  When the [generated_at] of every run is a text or missing,
    [list_runs] answers with exactly the runs that meet every filter of the
    request, each with its classification summary, and no run in the answer
    is followed by one generated later; a filter given as the empty text
    asks for nothing. *)
Theorem list_runs_selects_and_sorts :
  forall (status : option string) (has_architectural : option bool)
         (build_phase error_category : option string),
    (forall run, In run get_all_runs ->
                 is_text_key (or_empty (col Runs "generated_at" run)) = true) ->
    exists answer,
      list_runs get_all_runs get_classification_summary get_steps_for_run
                get_failures_for_run status has_architectural build_phase
                error_category = Ok answer
      /\ newest_first answer
      /\ forall r,
          In r answer
          <-> (exists run,
                  In run get_all_runs
                  /\ r = (run, get_classification_summary (col Runs "run_id" run)))
              /\ asked_status status r
              /\ asked_architectural has_architectural r
              /\ asked_build_phase build_phase
                   (get_steps_for_run (col Runs "run_id" (fst r)))
              /\ asked_error_category error_category
                   (get_failures_for_run (col Runs "run_id" (fst r))).
Proof.
  intros status has_architectural build_phase error_category Hdates.
  unfold list_runs.
  set (all := map (fun run => (run, get_classification_summary (col Runs "run_id" run)))
                  get_all_runs).
  set (chosen := error_category_filter get_failures_for_run error_category
                   (build_phase_filter get_steps_for_run build_phase
                      (architectural_filter has_architectural
                         (status_filter status all)))).
  assert (Hchosen : forall r,
             In r chosen
             <-> In r all
                 /\ asked_status status r
                 /\ asked_architectural has_architectural r
                 /\ asked_build_phase build_phase
                      (get_steps_for_run (col Runs "run_id" (fst r)))
                 /\ asked_error_category error_category
                      (get_failures_for_run (col Runs "run_id" (fst r)))).
  { intros r. unfold chosen.
    rewrite error_category_filter_In, build_phase_filter_In,
      architectural_filter_In, status_filter_In. tauto. }
  assert (Hall : forall r,
             In r all
             <-> exists run,
                 In run get_all_runs
                 /\ r = (run, get_classification_summary (col Runs "run_id" run))).
  { intros r. unfold all. rewrite in_map_iff. split.
    - intros (run & <- & Hrun). exists run; split; [exact Hrun | reflexivity].
    - intros (run & Hrun & ->). exists run; split; [reflexivity | exact Hrun]. }
  exists (fold_right (insert_reverse run_key) [] chosen). split; [|split].
  - unfold sort_reverse.
    replace (forallb (fun x => is_text_key (run_key x)) chosen) with true;
      [reflexivity|].
    symmetry. apply forallb_forall. intros r Hr.
    apply Hchosen in Hr as (Hr & _). apply Hall in Hr as (run & Hrun & ->).
    unfold run_key; cbn [fst]. apply Hdates; exact Hrun.
  - apply fold_insert_reverse_sorted.
  - intros r. rewrite fold_insert_reverse_In, Hchosen, Hall. tauto.
Qed.

End ListRunsProperties.

(** * Properties of the command line *)

Lemma first_plain_flags (flags : list string) (rest : list string) :
  Forall (fun a => is_flag a = true) flags ->
  first_plain (flags ++ rest) = first_plain rest.
Proof.
  induction 1 as [|a flags Ha _ IH]; simpl; [reflexivity|].
  rewrite Ha. exact IH.
Qed.

Lemma existsb_eqb_In (s : string) (l : list string) :
  existsb (String.eqb s) l = true <-> In s l.
Proof.
  rewrite existsb_exists. split.
  - intros (x & Hx & E). apply String.eqb_eq in E. subst; exact Hx.
  - intros H. exists s; split; [exact H | apply String.eqb_refl].
Qed.

(** X23.  [main] on [classify] takes as run identifier the first argument
    that does not start with two dashes, wherever the flags stand, and
    ignores what follows it: with [--force] anywhere on the command line it
    reclassifies that run, without it it classifies that run. *)
Theorem main_classify_one_run :
  forall (program run_id : string) (flags rest : list string),
    Forall (fun a => is_flag a = true) flags ->
    is_flag run_id = false ->
    run_id <> "" ->
    let argv := program :: "classify" :: flags ++ run_id :: rest in
    (In "--force" argv -> main argv = ReclassifyRun run_id)
    /\ (~ In "--force" argv -> main argv = ClassifyRun run_id).
Proof.
  intros program run_id flags rest Hflags Hplain Hne argv.
  assert (Hmain : main argv
                  = if existsb (String.eqb "--force") argv
                    then ReclassifyRun run_id else ClassifyRun run_id).
  { unfold argv, main. cbn [String.eqb Ascii.eqb Bool.eqb].
    rewrite (first_plain_flags _ _ Hflags). cbn [first_plain]. rewrite Hplain.
    unfold given. destruct (String.eqb_spec run_id ""); [contradiction|].
    reflexivity. }
  rewrite Hmain. split; intros H.
  - apply existsb_eqb_In in H. rewrite H. reflexivity.
  - destruct (existsb (String.eqb "--force") argv) eqn:E; [|reflexivity].
    apply existsb_eqb_In in E. contradiction.
Qed.

(** X24.  [main] on [classify] with nothing but flags after the command
    classifies all runs, also when [--force] is among them, and so does
    [trigger_classify] without a run identifier, whatever [force] is. *)
Theorem classify_without_run_ignores_force :
  forall (program : string) (flags : list string),
    Forall (fun a => is_flag a = true) flags ->
    main (program :: "classify" :: flags) = ClassifyAllRuns
    /\ forall force,
        trigger_classify None force = ClassifyAllRuns
        /\ trigger_classify (Some "") force = ClassifyAllRuns.
Proof.
  intros program flags Hflags. split; [|intros force; split; reflexivity].
  unfold main. cbn [String.eqb Ascii.eqb Bool.eqb].
  rewrite <- (app_nil_r flags), (first_plain_flags _ _ Hflags). reflexivity.
Qed.

(** * The further properties on the sample data *)

Lemma ingestion_leaves_other_runs_sample :
  Forall (fun report => file_run_id report <> Some (SText "r1"))
         (glob_full_json [("r2_full.json", Document second_report)])
  /\ forall t,
      filter (of_run t (SText "r1"))
             (rows_of t (fst (ingest_reports sample_runtime true
                                (Some [("r2_full.json", Document second_report)])
                                two_runs_store)))
      = filter (of_run t (SText "r1")) (rows_of t two_runs_store).
Proof.
  assert (H : Forall (fun report => file_run_id report <> Some (SText "r1"))
                     (glob_full_json [("r2_full.json", Document second_report)])).
  { constructor; [|constructor]. vm_compute. discriminate. }
  split; [exact H|].
  exact (ingestion_leaves_other_runs sample_runtime true _ two_runs_store _ H).
Defined.

Lemma two_runs_store_no_orphans : no_orphans two_runs_store.
Proof.
  intros t r Ht Hr. destruct t; [congruence| | |];
    vm_compute in Hr;
    repeat (destruct Hr as [<- | Hr]; [reflexivity|]); contradiction.
Defined.

Lemma ingestion_keeps_no_orphans_sample :
  no_orphans two_runs_store
  /\ no_orphans (fst (ingest_reports sample_runtime true (Some sample_files)
                        two_runs_store)).
Proof.
  split; [exact two_runs_store_no_orphans|].
  exact (ingestion_keeps_no_orphans sample_runtime true (Some sample_files)
           two_runs_store two_runs_store_no_orphans).
Defined.

Lemma ingestion_keeps_run_ids_distinct_sample :
  distinct_run_ids (runs two_runs_store)
  /\ distinct_run_ids
       (runs (fst (ingest_reports sample_runtime true (Some sample_files)
                     two_runs_store))).
Proof.
  assert (H : distinct_run_ids (runs two_runs_store))
    by (vm_compute; repeat split).
  split; [exact H|].
  exact (ingestion_keeps_run_ids_distinct sample_runtime true (Some sample_files)
           two_runs_store H).
Defined.

Lemma ingested_run_holds_the_report_sample :
  let db' := fst (process_report sample_runtime true two_runs_store
                    (Document sample_report)) in
  no_orphans two_runs_store
  /\ process_report sample_runtime true two_runs_store (Document sample_report)
     = (db', Ingested)
  /\ List.length (filter (of_run Runs (SText "r1")) (runs db')) = 1
  /\ List.length (filter (of_run Steps (SText "r1")) (steps db')) = 1
  /\ List.length (filter (of_run Failures (SText "r1")) (failures db')) = 2
  /\ List.length (filter (of_run WebSearches (SText "r1")) (web_searches db')) = 1.
Proof.
  intros db'.
  assert (H : process_report sample_runtime true two_runs_store
                (Document sample_report) = (db', Ingested))
    by (vm_compute; reflexivity).
  split; [exact two_runs_store_no_orphans|]. split; [exact H|].
  exact (ingested_run_holds_the_report sample_runtime true two_runs_store db'
           (Document sample_report) sample_report (JStr "r1") (SText "r1")
           two_runs_store_no_orphans H eq_refl eq_refl eq_refl).
Defined.

Lemma ingested_steps_are_pending_sample :
  Forall unclassified (steps two_runs_store)
  /\ get_stats (fst (ingest_reports sample_runtime true (Some sample_files)
                       two_runs_store))
     = Ok (mkStats 2
             [("architectural", 0); ("implementation", 0); ("clean_pass", 0);
              ("ambiguous", 0); ("pending", 2)]).
Proof.
  assert (H : Forall unclassified (steps two_runs_store)).
  { vm_compute. repeat constructor;
      intros c Hc; repeat (destruct Hc as [<- | Hc]; [reflexivity|]);
      contradiction. }
  split; [exact H|].
  exact (proj2 (ingested_steps_are_pending sample_runtime true (Some sample_files)
                  two_runs_store H)).
Defined.

Lemma stored_errors_summary_bounds_sample :
  steps_params sample_runtime (JStr "r1") sample_raw_data (JArr sample_details)
    sample_step_outcome = Ok sample_step_params
  /\ mapM bind_param sample_step_params = Ok sample_step_row
  /\ (col Steps "errors_summary" sample_step_row = SNull
      \/ exists s, col Steps "errors_summary" sample_step_row = SText s
                   /\ 1 <= String.length s <= 1000).
Proof.
  assert (H1 : steps_params sample_runtime (JStr "r1") sample_raw_data
                 (JArr sample_details) sample_step_outcome
               = Ok sample_step_params) by (vm_compute; reflexivity).
  assert (H2 : mapM bind_param sample_step_params = Ok sample_step_row)
    by (vm_compute; reflexivity).
  split; [exact H1|]. split; [exact H2|].
  exact (stored_errors_summary_bounds sample_runtime _ _ _ _ _ _ H1 H2).
Defined.

Lemma delete_run_data_idempotent_sample :
  bind_param (JStr "r1") = Ok (SText "r1")
  /\ exists c1 c2,
      _delete_run_data (get_db two_runs_store) (JStr "r1") = Ok c1
      /\ _delete_run_data c1 (JStr "r1") = Ok c2
      /\ pending c2 = pending c1
      /\ ((forall t r, In r (rows_of t (pending (get_db two_runs_store))) ->
                       of_run t (SText "r1") r = false) ->
          pending c1 = pending (get_db two_runs_store)).
Proof.
  split; [reflexivity|].
  exact (delete_run_data_idempotent (get_db two_runs_store) (JStr "r1")
           (SText "r1") eq_refl).
Defined.

Lemma top_error_categories_keeps_most_frequent_sample :
  let n := List.length
             (filter (fun f => sqlval_eqb (col Failures "category" f)
                                          (SText "timeout"))
                     (failures four_runs_store)) in
  not_null_nor_empty (SText "timeout") = true
  /\ 1 <= n
  /\ (In (SText "timeout", n) (top_error_categories four_runs_store)
      \/ (List.length (top_error_categories four_runs_store) = 10
          /\ forall c' n',
              In (c', n') (top_error_categories four_runs_store) -> n <= n')).
Proof.
  intros n.
  assert (H : 1 <= n) by (vm_compute; lia).
  split; [reflexivity|]. split; [exact H|].
  exact (top_error_categories_keeps_most_frequent four_runs_store
           (SText "timeout") eq_refl H).
Defined.

Lemma two_runs_store_plain_run_ids :
  forall f, In f (failures two_runs_store) ->
            plain_run_id (col Failures "run_id" f).
Proof.
  intros f Hf. vm_compute in Hf.
  repeat (destruct Hf as [<- | Hf];
          [eexists; split; [vm_compute; reflexivity|];
           split; [discriminate | reflexivity]|]).
  contradiction.
Defined.

Lemma top_patterns_examples_are_runs_sample :
  (forall f, In f (failures two_runs_store) ->
             plain_run_id (col Failures "run_id" f))
  /\ forall e,
      In e (top_patterns two_runs_store) ->
      NoDup (pt_example_run_ids e)
      /\ forall id,
          In id (pt_example_run_ids e) ->
          exists f,
            In f (failures two_runs_store)
            /\ col Failures "run_id" f = SText id
            /\ col Failures "category" f = pt_category e
            /\ col Failures "build_phase" f = pt_build_phase e.
Proof.
  split; [exact two_runs_store_plain_run_ids|].
  exact (top_patterns_examples_are_runs two_runs_store
           two_runs_store_plain_run_ids).
Defined.

Lemma self_correction_sound_without_repeats_sample :
  NoDup (map (fun fs => (col Failures "category" (fst fs),
                         col Steps "id" (snd fs)))
             (retried_failures four_runs_store))
  /\ (forall fs, In fs (retried_failures four_runs_store) ->
                 col Steps "id" (snd fs) <> SNull)
  /\ forall e,
      In e (get_patterns_self_correction four_runs_store) ->
      1 <= sc_total e
      /\ sc_self_corrected e + sc_failed e <= sc_total e
      /\ (0 <= sc_rate e)%Q /\ (sc_rate e <= 1)%Q.
Proof.
  assert (H1 : NoDup (map (fun fs => (col Failures "category" (fst fs),
                                      col Steps "id" (snd fs)))
                          (retried_failures four_runs_store))).
  { vm_compute.
    repeat (constructor;
            [intros H; repeat (destruct H as [H | H]; [discriminate H|]);
             contradiction|]).
    constructor. }
  assert (H2 : forall fs, In fs (retried_failures four_runs_store) ->
                          col Steps "id" (snd fs) <> SNull).
  { intros fs H. vm_compute in H.
    repeat (destruct H as [<- | H]; [vm_compute; discriminate|]).
    contradiction. }
  split; [exact H1|]. split; [exact H2|].
  exact (self_correction_sound_without_repeats four_runs_store H1 H2).
Defined.

Lemma tool_comparison_incomplete_config_sample :
  In planner_only_run (runs planner_only_store)
  /\ col Runs "planner" planner_only_run <> SNull
  /\ col Runs "implementer" planner_only_run = SNull
  /\ exists e,
      In e (tool_comparison planner_only_store)
      /\ tc_tool_config e = SNull
      /\ 1 <= tc_run_count e
      /\ tc_architectural_count e = 0
      /\ tc_implementation_count e = 0.
Proof.
  assert (H1 : In planner_only_run (runs planner_only_store))
    by (vm_compute; left; reflexivity).
  assert (H2 : col Runs "planner" planner_only_run <> SNull)
    by (vm_compute; discriminate).
  assert (H3 : col Runs "implementer" planner_only_run = SNull)
    by (vm_compute; reflexivity).
  split; [exact H1|]. split; [exact H2|]. split; [exact H3|].
  exact (tool_comparison_incomplete_config planner_only_store planner_only_run
           H1 H2 (or_introl H3)).
Defined.

Lemma list_runs_selects_and_sorts_sample :
  (forall run, In run (runs two_runs_store) ->
               is_text_key (or_empty (col Runs "generated_at" run)) = true)
  /\ exists answer,
      list_runs (runs two_runs_store) no_summary sample_steps_for_run
                sample_failures_for_run (Some "success") (Some false)
                (Some "") (Some "timeout") = Ok answer
      /\ newest_first answer
      /\ forall r,
          In r answer
          <-> (exists run,
                  In run (runs two_runs_store)
                  /\ r = (run, no_summary (col Runs "run_id" run)))
              /\ asked_status (Some "success") r
              /\ asked_architectural (Some false) r
              /\ asked_build_phase (Some "")
                   (sample_steps_for_run (col Runs "run_id" (fst r)))
              /\ asked_error_category (Some "timeout")
                   (sample_failures_for_run (col Runs "run_id" (fst r))).
Proof.
  assert (H : forall run, In run (runs two_runs_store) ->
                          is_text_key (or_empty (col Runs "generated_at" run))
                          = true).
  { intros run Hrun. vm_compute in Hrun.
    repeat (destruct Hrun as [<- | Hrun]; [reflexivity|]). contradiction. }
  split; [exact H|].
  exact (list_runs_selects_and_sorts (runs two_runs_store) no_summary
           sample_steps_for_run sample_failures_for_run (Some "success")
           (Some false) (Some "") (Some "timeout") H).
Defined.

Lemma main_classify_one_run_sample :
  Forall (fun a => is_flag a = true) ["--force"]
  /\ is_flag "r1" = false
  /\ "r1" <> ""
  /\ main ["run_dashboard.py"; "classify"; "--force"; "r1"; "r2"]
     = ReclassifyRun "r1".
Proof.
  assert (H1 : Forall (fun a => is_flag a = true) ["--force"])
    by (repeat constructor).
  assert (H3 : "r1" <> "") by discriminate.
  split; [exact H1|]. split; [reflexivity|]. split; [exact H3|].
  apply (main_classify_one_run "run_dashboard.py" "r1" ["--force"] ["r2"]
           H1 eq_refl H3).
  simpl. tauto.
Defined.

Lemma classify_without_run_ignores_force_sample :
  Forall (fun a => is_flag a = true) ["--force"]
  /\ main ["run_dashboard.py"; "classify"; "--force"] = ClassifyAllRuns.
Proof.
  assert (H : Forall (fun a => is_flag a = true) ["--force"])
    by (repeat constructor).
  split; [exact H|].
  exact (proj1 (classify_without_run_ignores_force "run_dashboard.py"
                  ["--force"] H)).
Defined.
